(** * Zoom webinar synchronisation: a shallow embedding of the two edge functions

    The development follows [supabase/functions/zoom-sync-webinars-v2/index.ts]
    (the queue based, rate limited sync) and
    [supabase/functions/zoom-sync-webinars/index.ts] (the older batch sync).

    Asynchronous TypeScript is rendered as a state-and-exception monad over a
    [world]: a logical clock, the trace of HTTP requests issued so far, the
    rate limiter object and the tables of the store.  The remote API, the
    credential cipher and the faults of the store are an environment
    ([platform]) the code is run against. *)

From Stdlib Require Import ZArith QArith List String Ascii Bool Lia DecimalString.
Import ListNotations.
Set Warnings "-register-all".
Open Scope string_scope.
Open Scope Z_scope.

(** ** JavaScript values *)

(** The payloads the code inspects are [any]: JSON documents plus [undefined].
    Numbers are integer valued (counts, durations, epoch milliseconds). *)
Inductive json : Type :=
| JUndef
| JNull
| JBool (b : bool)
| JNum (n : Z)
| JStr (s : string)
| JArr (items : list json)
| JObj (fields : list (string * json)).

(** Truthiness, as tested by [if (v)], [v || d] and [v && w]. *)
Definition truthy (v : json) : bool :=
  match v with
  | JUndef | JNull => false
  | JBool b => b
  | JNum n => negb (n =? 0)
  | JStr s => negb (s =? "")%string
  | JArr _ | JObj _ => true
  end.

(** [a || b] *)
Definition orj (a b : json) : json := if truthy a then a else b.

Fixpoint assoc (k : string) (fs : list (string * json)) : json :=
  match fs with
  | [] => JUndef
  | (k', v) :: rest => if (k =? k')%string then v else assoc k rest
  end.

(** [v.k] on a value that is neither [null] nor [undefined]; primitives have
    none of the properties read here. *)
Definition prop (k : string) (v : json) : json :=
  match v with
  | JObj fs => assoc k fs
  | _ => JUndef
  end.

(** [v?.k] *)
Definition optprop (k : string) (v : json) : json :=
  match v with
  | JUndef | JNull => JUndef
  | _ => prop k v
  end.

Definition nullish (v : json) : bool :=
  match v with JUndef | JNull => true | _ => false end.

(** [obj.k = v] on an object literal under construction: the last write wins
    and the key keeps its first position. *)
Fixpoint setField (k : string) (v : json) (fs : list (string * json))
  : list (string * json) :=
  match fs with
  | [] => [(k, v)]
  | (k', v') :: rest =>
      if (k =? k')%string then (k, v) :: rest else (k', v') :: setField k v rest
  end.

(** Strict equality on the primitives compared in the code. *)
Definition strictEqStr (v : json) (s : string) : bool :=
  match v with JStr s' => (s' =? s)%string | _ => false end.

(** ** Errors and outcomes *)

(** A thrown value: [message], and the [status] and [headers['retry-after']]
    properties the rate limiter looks for. *)
Record error : Type := mkError {
  message : string;
  status : option Z;
  retryAfterHeader : option string
}.

Definition Error (msg : string) : error := mkError msg None None.

(** What awaiting a computation produces.  [Diverge] is the model running out
    of fuel: the JavaScript is still retrying or still paginating. *)
Inductive outcome (A : Type) : Type :=
| Return (a : A)
| Throw (e : error)
| Diverge.
Arguments Return {A} a.
Arguments Throw {A} e.
Arguments Diverge {A}.

(** ** The world the edge functions run in *)

Inductive webinarType : Type := past | upcoming.

Definition webinarTypeName (t : webinarType) : string :=
  match t with past => "past" | upcoming => "upcoming" end.

(** The URLs the code requests, by their path and query parameters.  Dates in
    a query ([from], [to]) are day numbers since the epoch, standing for the
    [YYYY-MM-DD] prefix of [toISOString()]. *)
Inductive endpoint : Type :=
| ListWebinars (type : webinarType) (from to : option Z) (page_size : Z)
               (next_page_token : option json)
| PastWebinarDetail (webinarId : json)
| WebinarDetail (webinarId : json)
| Registrants (webinarId : json)
| Participants (webinarId : json)
| TrackingSources (webinarId : json)
| Polls (webinarId : json)
| QA (webinarId : json)
| OAuthToken (refresh_token : json)
| UsersMe
| ListAllWebinars (next_page_token : string).

(** The settled [fetch] promise: a response, or a rejection.  [took] is the
    time the call kept the caller suspended. *)
Record response : Type := mkResponse {
  ok : bool;
  httpStatus : Z;
  body : option json;      (* [None]: [response.json()] rejects *)
  text : string
}.

Inductive fetchResult : Type :=
| Fulfilled (took : Z) (r : response)
| Rejected (took : Z) (e : error).

Definition row : Type := list (string * json).

(** A row of [sync_progress_updates].  The percentage is the one number of
    the code that need not be an integer; it is kept as an exact fraction,
    [None] when the argument is omitted. *)
Record progressUpdate : Type := mkProgress {
  sync_id : json;
  update_type : string;
  progressMessage : string;
  details : json;
  progress_percentage : option Q
}.

Record database : Type := mkDb {
  zoom_connections : list row;
  zoom_sync_logs : list row;
  sync_progress_updates : list progressUpdate;
  webinar_sync_queue : list row;
  zoom_webinars : list row;
  sync_state : list row;
  next_id : Z                 (* the next row identifier the store hands out *)
}.

(** [class RateLimitManager]: its private fields.  [retryAfter] is a JavaScript
    number that may be [NaN] ([None]). *)
Record RateLimitManager : Type := mkLimiter {
  callsPerMinute : Z;
  callsPerSecond : Z;
  windowStart : Z;
  secondWindowStart : Z;
  retryAfter : option Z
}.

Definition MAX_CALLS_PER_MINUTE : Z := 30.
Definition MAX_CALLS_PER_SECOND : Z := 2.

Record world : Type := mkWorld {
  clock : Z;                      (* [Date.now()] *)
  requests : list endpoint;       (* every [fetch] issued, most recent first *)
  limiter : RateLimitManager;
  db : database
}.

(** What the code is run against.  [server ep n] settles the [n]-th request of
    the run when it is made to [ep].  The store reports a fault only where the
    code inspects the returned [error]. *)
Record platform : Type := mkPlatform {
  server : endpoint -> nat -> fetchResult;
  decryptToken : json -> json -> option string;
  encryptToken : json -> json -> json;
  parseDate : json -> option Z;             (* [new Date(v)]; [None] is Invalid Date *)
  storeFault : string -> list row -> option string;
  envConfigured : bool
}.

(** ** The monad of asynchronous code *)

Definition M (A : Type) : Type := world -> outcome A * world.

Definition ret {A} (a : A) : M A := fun w => (Return a, w).
Definition throw {A} (e : error) : M A := fun w => (Throw e, w).
Definition diverge {A} : M A := fun w => (Diverge, w).

Definition bind {A B} (m : M A) (k : A -> M B) : M B :=
  fun w =>
    match m w with
    | (Return a, w') => k a w'
    | (Throw e, w') => (Throw e, w')
    | (Diverge, w') => (Diverge, w')
    end.

(** [try { m } catch (e) { h e }] *)
Definition tryCatch {A} (m : M A) (h : error -> M A) : M A :=
  fun w =>
    match m w with
    | (Return a, w') => (Return a, w')
    | (Throw e, w') => h e w'
    | (Diverge, w') => (Diverge, w')
    end.

Declare Scope async_scope.
Delimit Scope async_scope with async.
Notation "x <- m ;; k" := (bind m (fun x => k))
  (at level 61, m at next level, right associativity) : async_scope.
Notation "m ;;; k" := (bind m (fun _ => k))
  (at level 61, right associativity) : async_scope.
Open Scope async_scope.

Definition getWorld : M world := fun w => (Return w, w).
Definition modify (f : world -> world) : M unit := fun w => (Return tt, f w).

Definition setClock (t : Z) (w : world) : world :=
  mkWorld t (requests w) (limiter w) (db w).
Definition setRequests (l : list endpoint) (w : world) : world :=
  mkWorld (clock w) l (limiter w) (db w).
Definition setLimiter (l : RateLimitManager) (w : world) : world :=
  mkWorld (clock w) (requests w) l (db w).
Definition setDb (d : database) (w : world) : world :=
  mkWorld (clock w) (requests w) (limiter w) d.

(** [Date.now()] *)
Definition dateNow : M Z := fun w => (Return (clock w), w).

(** [await new Promise(resolve => setTimeout(resolve, ms))]: a timer with a
    negative delay fires at once. *)
Definition sleep (ms : Z) : M unit :=
  modify (fun w => setClock (clock w + Z.max 0 ms) w).

(** [await fetch(url, ...)] *)
Definition fetch (P : platform) (ep : endpoint) : M response :=
  fun w =>
    let n := List.length (requests w) in
    let w1 := setRequests (ep :: requests w) w in
    match server P ep n with
    | Fulfilled took r => (Return r, setClock (clock w + Z.max 0 took) w1)
    | Rejected took e => (Throw e, setClock (clock w + Z.max 0 took) w1)
    end.

(** [await response.json()] *)
Definition responseJson (r : response) : M json :=
  match body r with
  | Some v => ret v
  | None => throw (Error "SyntaxError")
  end.

(** ** [parseInt] *)

Definition isWhiteSpace (c : ascii) : bool :=
  match nat_of_ascii c with
  | 9%nat | 10%nat | 11%nat | 12%nat | 13%nat | 32%nat => true
  | _ => false
  end.

Fixpoint trimStart (s : string) : string :=
  match s with
  | String c rest => if isWhiteSpace c then trimStart rest else s
  | EmptyString => s
  end.

Definition digitValue (radix : Z) (c : ascii) : option Z :=
  let n := Z.of_nat (nat_of_ascii c) in
  let d := if (48 <=? n) && (n <=? 57) then Some (n - 48)
           else if (97 <=? n) && (n <=? 122) then Some (n - 87)
           else if (65 <=? n) && (n <=? 90) then Some (n - 55)
           else None in
  match d with
  | Some v => if v <? radix then Some v else None
  | None => None
  end.

(** The longest prefix of digits, [None] when there is none. *)
Fixpoint parseDigits (radix : Z) (s : string) (acc : option Z) : option Z :=
  match s with
  | EmptyString => acc
  | String c rest =>
      match digitValue radix c with
      | Some d =>
          parseDigits radix rest
            (Some (match acc with Some a => a * radix + d | None => d end))
      | None => acc
      end
  end.

(** [parseInt(s)] with no radix argument; [None] is [NaN]. *)
Definition parseInt (s : string) : option Z :=
  let s1 := trimStart s in
  let '(negative, s2) :=
    match s1 with
    | String "-" r => (true, r)
    | String "+" r => (false, r)
    | _ => (false, s1)
    end in
  let '(radix, s3) :=
    match s2 with
    | String "0" (String "x" r) => (16, r)
    | String "0" (String "X" r) => (16, r)
    | _ => (10, s2)
    end in
  match parseDigits radix s3 None with
  | Some n => Some (if negative then - n else n)
  | None => None
  end.

(** ** Rate limit manager (v2, lines 24-98) *)

Definition getLimiter : M RateLimitManager := fun w => (Return (limiter w), w).
Definition putLimiter (l : RateLimitManager) : M unit := modify (setLimiter l).

Definition newRateLimitManager (now : Z) : RateLimitManager :=
  mkLimiter 0 0 now now (Some 0).

Definition when (b : bool) (m : M unit) : M unit := if b then m else ret tt.

(** [private async waitForRateLimit()] *)
Definition waitForRateLimit : M unit :=
  this <- getLimiter ;;
  now0 <- dateNow ;;
  let blocked := match retryAfter this with Some r => r >? now0 | None => false end in
  if blocked then
    (* Check if we're in a retry-after period *)
    sleep (match retryAfter this with Some r => r - now0 | None => 0 end)
  else
    (* Reset windows if needed *)
    now <- dateNow ;;
    when (now - windowStart this >? 60000)
      (l <- getLimiter ;;
       putLimiter (mkLimiter 0 (callsPerSecond l) now (secondWindowStart l) (retryAfter l))) ;;;
    l1 <- getLimiter ;;
    when (now - secondWindowStart l1 >? 1000)
      (l <- getLimiter ;;
       putLimiter (mkLimiter (callsPerMinute l) 0 (windowStart l) now (retryAfter l))) ;;;
    (* Wait if at per-second limit *)
    l2 <- getLimiter ;;
    when (callsPerSecond l2 >=? MAX_CALLS_PER_SECOND)
      (let waitTime := 1000 - (now - secondWindowStart l2) in
       when (waitTime >? 0)
         (sleep waitTime ;;;
          t <- dateNow ;;
          l <- getLimiter ;;
          putLimiter (mkLimiter (callsPerMinute l) 0 (windowStart l) t (retryAfter l)))) ;;;
    (* Wait if at per-minute limit *)
    l3 <- getLimiter ;;
    when (callsPerMinute l3 >=? MAX_CALLS_PER_MINUTE)
      (let waitTime := 60000 - (now - windowStart l3) in
       when (waitTime >? 0)
         (sleep waitTime ;;;
          t <- dateNow ;;
          l <- getLimiter ;;
          putLimiter (mkLimiter 0 (callsPerSecond l) t (secondWindowStart l) (retryAfter l)))).

(** [private recordCall()] *)
Definition recordCall : M unit :=
  l <- getLimiter ;;
  putLimiter (mkLimiter (callsPerMinute l + 1) (callsPerSecond l + 1)
                (windowStart l) (secondWindowStart l) (retryAfter l)).

Definition is429 (e : error) : bool :=
  match status e with Some s => s =? 429 | None => false end.

(** [parseInt(error.headers?.['retry-after'] || '60')] *)
Definition retryAfterSeconds (e : error) : option Z :=
  match retryAfterHeader e with
  | Some h => if (h =? "")%string then parseInt "60" else parseInt h
  | None => parseInt "60"
  end.

Definition setRetryAfter (r : option Z) : M unit :=
  l <- getLimiter ;;
  putLimiter (mkLimiter (callsPerMinute l) (callsPerSecond l)
                (windowStart l) (secondWindowStart l) r).

(** [async executeWithRateLimit<T>(fn)].  The recursive call in the [catch]
    has no bound in the source; here every invocation spends one unit of
    [fuel] and [Diverge] means the retries have not ended yet. *)
Fixpoint executeWithRateLimit {T} (fuel : nat) (fn : M T) : M T :=
  match fuel with
  | O => diverge
  | S fuel' =>
      waitForRateLimit ;;;
      tryCatch
        (result <- fn ;;
         recordCall ;;;
         ret result)
        (fun error =>
           if is429 error then
             (* Handle rate limit error *)
             let retryAfter := retryAfterSeconds error in
             now <- dateNow ;;
             setRetryAfter (option_map (fun s => now + s * 1000) retryAfter) ;;;
             (* Wait and retry *)
             sleep (match retryAfter with Some s => s * 1000 | None => 0 end) ;;;
             executeWithRateLimit fuel' fn
           else throw error)
  end.

(** ** Status derivation (v2, lines 233-265) *)

(** [new Date(v)]: a number is that instant, anything else is parsed. *)
Definition newDate (P : platform) (v : json) : option Z :=
  match v with
  | JNum n => Some n
  | _ => parseDate P v
  end.

Definition validStatuses : list string :=
  ["waiting"; "started"; "finished"; "scheduled"].

(** [validStatuses.includes(v)] *)
Definition includes (l : list string) (v : json) : bool :=
  existsb (strictEqStr v) l.

Definition jsonString (v : json) : string :=
  match v with JStr s => s | _ => "" end.

(** [determineWebinarStatus(webinarDetails, webinarType)], with the instant
    read by [new Date()] as [now]. *)
Definition determineWebinarStatus (P : platform) (now : Z)
    (webinarDetails : json) (webinarType : webinarType) : string :=
  match webinarType with
  | past => "finished"
  | upcoming =>
      let inPast :=
        if truthy (prop "start_time" webinarDetails) then
          match newDate P (prop "start_time" webinarDetails) with
          | Some startTime => startTime <? now
          | None => false
          end
        else false in
      if inPast then "finished"
      else
        let usable :=
          if truthy (prop "status" webinarDetails)
          then includes validStatuses (prop "status" webinarDetails)
          else false in
        if usable then jsonString (prop "status" webinarDetails)
        else "scheduled"
  end.

(** ** Strings of values *)

Definition stringOfZ (n : Z) : string := NilZero.string_of_int (Z.to_int n).

(** [`${v}`] *)
Fixpoint toString (v : json) : string :=
  match v with
  | JUndef => "undefined"
  | JNull => "null"
  | JBool true => "true"
  | JBool false => "false"
  | JNum n => stringOfZ n
  | JStr s => s
  | JArr items =>
      (fix join (l : list json) : string :=
         match l with
         | [] => ""
         | x :: rest =>
             let here := match x with JUndef | JNull => "" | _ => toString x end in
             match rest with
             | [] => here
             | _ => here ++ "," ++ join rest
             end
         end) items
  | JObj _ => "[object Object]"
  end.

(** Equality of stored values. *)
Fixpoint json_eqb (a b : json) : bool :=
  match a, b with
  | JUndef, JUndef => true
  | JNull, JNull => true
  | JBool x, JBool y => Bool.eqb x y
  | JNum x, JNum y => x =? y
  | JStr x, JStr y => (x =? y)%string
  | JArr xs, JArr ys =>
      (fix all2 (l1 l2 : list json) : bool :=
         match l1, l2 with
         | [], [] => true
         | x :: r1, y :: r2 => json_eqb x y && all2 r1 r2
         | _, _ => false
         end) xs ys
  | JObj xs, JObj ys =>
      (fix all2 (l1 l2 : list (string * json)) : bool :=
         match l1, l2 with
         | [], [] => true
         | (k1, x) :: r1, (k2, y) :: r2 =>
             (k1 =? k2)%string && json_eqb x y && all2 r1 r2
         | _, _ => false
         end) xs ys
  | _, _ => false
  end.

(** ** The store *)

(** A column of a row; an absent column reads as [undefined]. *)
Definition col (k : string) (r : row) : json := assoc k r.

(** [.eq(column, value)]: a null never matches. *)
Definition sqlEq (a b : json) : bool :=
  negb (nullish a) && negb (nullish b) && json_eqb a b.

Definition whereEq (k : string) (v : json) (r : row) : bool := sqlEq (col k r) v.

(** [.update(patch)]: the columns of [patch] overwrite those of the row. *)
Definition applyPatch (patch : row) (r : row) : row :=
  fold_left (fun acc kv => setField (fst kv) (snd kv) acc) patch r.

Definition updateWhere (p : row -> bool) (patch : row) (rows : list row) : list row :=
  map (fun r => if p r then applyPatch patch r else r) rows.

(** [.single()]: data only when exactly one row matches. *)
Definition single (rows : list row) : option row :=
  match rows with
  | [r] => Some r
  | _ => None
  end.

(** [.upsert(r, { onConflict: keys })]: the first row that agrees with [r] on
    every conflict column is overwritten by the columns of [r]; with no such
    row, [r] is inserted. *)
Definition conflicts (keys : list string) (r r' : row) : bool :=
  forallb (fun k => sqlEq (col k r') (col k r)) keys.

Fixpoint upsertRow (keys : list string) (r : row) (rows : list row) : list row :=
  match rows with
  | [] => [r]
  | r' :: rest =>
      if conflicts keys r r' then applyPatch r r' :: rest
      else r' :: upsertRow keys r rest
  end.

Definition getDb : M database := fun w => (Return (db w), w).
Definition modifyDb (f : database -> database) : M unit :=
  modify (fun w => setDb (f (db w)) w).

Definition setConnections (l : list row) (d : database) : database :=
  mkDb l (zoom_sync_logs d) (sync_progress_updates d) (webinar_sync_queue d)
       (zoom_webinars d) (sync_state d) (next_id d).
Definition setSyncLogs (l : list row) (d : database) : database :=
  mkDb (zoom_connections d) l (sync_progress_updates d) (webinar_sync_queue d)
       (zoom_webinars d) (sync_state d) (next_id d).
Definition setProgress (l : list progressUpdate) (d : database) : database :=
  mkDb (zoom_connections d) (zoom_sync_logs d) l (webinar_sync_queue d)
       (zoom_webinars d) (sync_state d) (next_id d).
Definition setQueue (l : list row) (d : database) : database :=
  mkDb (zoom_connections d) (zoom_sync_logs d) (sync_progress_updates d) l
       (zoom_webinars d) (sync_state d) (next_id d).
Definition setWebinars (l : list row) (d : database) : database :=
  mkDb (zoom_connections d) (zoom_sync_logs d) (sync_progress_updates d)
       (webinar_sync_queue d) l (sync_state d) (next_id d).
Definition setSyncState (l : list row) (d : database) : database :=
  mkDb (zoom_connections d) (zoom_sync_logs d) (sync_progress_updates d)
       (webinar_sync_queue d) (zoom_webinars d) l (next_id d).
Definition setNextId (n : Z) (d : database) : database :=
  mkDb (zoom_connections d) (zoom_sync_logs d) (sync_progress_updates d)
       (webinar_sync_queue d) (zoom_webinars d) (sync_state d) n.

(** [new Date().toISOString()]: timestamps are kept as the instant they
    denote. *)
Definition nowISO : M json := now <- dateNow ;; ret (JNum now).

(** ** Progress broadcaster (v2, lines 101-120) *)

(** [broadcastProgress(supabase, syncId, type, message, details?, percentage?)]:
    the insert is wrapped in a [try] whose [catch] only logs. *)
Definition broadcastProgress (syncId : json) (type message : string)
    (details : json) (percentage : option Q) : M unit :=
  modifyDb (fun d =>
    setProgress (sync_progress_updates d ++
      [mkProgress syncId type message (orj details (JObj [])) percentage])%list d).

Definition TypeError : error := Error "TypeError".
Definition RangeError : error := Error "RangeError: Invalid time value".

(** Reading a property of [data] right after [response.json()]: a [null]
    document has none. *)
Definition requireObject (data : json) : M unit :=
  if nullish data then throw TypeError else ret tt.

(** ** Credentials (v2, lines 123-191) *)

(** [getZoomAccessToken(supabase, connectionId)] *)
Definition getZoomAccessToken (P : platform) (connectionId : json) : M json :=
  d <- getDb ;;
  match single (filter (whereEq "id" connectionId) (zoom_connections d)) with
  | None => throw (Error "Connection not found")
  | Some connection =>
      (* Decrypt the current access token *)
      match decryptToken P (col "access_token" connection) (col "zoom_email" connection) with
      | None => throw (Error "Failed to decrypt access token")
      | Some decryptedToken =>
          (* Check if token needs refresh *)
          now <- dateNow ;;
          let fiveMinutesFromNow := now + 5 * 60 * 1000 in
          let expiring :=
            match newDate P (col "token_expires_at" connection) with
            | Some expiresAt => expiresAt <=? fiveMinutesFromNow
            | None => false
            end in
          if expiring then
            refreshResponse <- fetch P (OAuthToken (col "refresh_token" connection)) ;;
            if negb (ok refreshResponse) then throw (Error "Failed to refresh token")
            else
              tokens <- responseJson refreshResponse ;;
              requireObject tokens ;;;
              let encryptedAccessToken :=
                encryptToken P (prop "access_token" tokens) (col "zoom_email" connection) in
              t <- dateNow ;;
              match prop "expires_in" tokens with
              | JNum expires_in =>
                  modifyDb (fun d =>
                    setConnections
                      (updateWhere (whereEq "id" connectionId)
                         [("access_token", encryptedAccessToken);
                          ("refresh_token", prop "refresh_token" tokens);
                          ("token_expires_at", JNum (t + expires_in * 1000))]
                         (zoom_connections d)) d) ;;;
                  ret (prop "access_token" tokens)
              | _ => throw RangeError
              end
          else ret (JStr decryptedToken)
      end
  end.

(** ** Remote resource client (v2, lines 194-476) *)

(** [fetchWebinarList(accessToken, type, dateRange, pageSize, nextPageToken)]:
    the page of stubs and the continuation token. *)
Definition fetchWebinarList (P : platform) (type : webinarType)
    (from to : option Z) (pageSize : Z) (nextPageToken : json) : M (json * json) :=
  response <- fetch P (ListWebinars type from to pageSize
                         (if truthy nextPageToken then Some nextPageToken else None)) ;;
  if negb (ok response) then
    throw (Error ("Failed to fetch webinar list: " ++ text response))
  else
    data <- responseJson response ;;
    requireObject data ;;;
    ret (orj (prop "webinars" data) (JArr []), prop "next_page_token" data).

(** [fetchWebinarDetails(accessToken, webinarId, type)] *)
Definition fetchWebinarDetails (P : platform) (webinarId : json)
    (type : webinarType) : M json :=
  let endpoint :=
    match type with
    | past => PastWebinarDetail webinarId
    | upcoming => WebinarDetail webinarId
    end in
  response <- fetch P endpoint ;;
  if negb (ok response) then
    throw (Error ("Failed to fetch webinar details: " ++ text response))
  else
    data <- responseJson response ;;
    requireObject data ;;;
    ret data.

(** [fetchRegistrantCount(accessToken, webinarId, rateLimiter)] *)
Definition fetchRegistrantCount (P : platform) (fuel : nat) (webinarId : json) : M json :=
  tryCatch
    (response <- executeWithRateLimit fuel (fetch P (Registrants webinarId)) ;;
     if ok response then
       data <- responseJson response ;;
       requireObject data ;;;
       ret (orj (prop "total_records" data) (JNum 0))
     else ret (JNum 0))
    (fun _ => ret (JNum 0)).

(** The [forEach] of [fetchParticipantData]: the sum and the number of the
    positive durations.  Durations are numbers. *)
Fixpoint sumDurations (participants : list json) (totalDuration validParticipants : Z)
  : M (Z * Z) :=
  match participants with
  | [] => ret (totalDuration, validParticipants)
  | p :: rest =>
      if nullish p then throw TypeError
      else
        match prop "duration" p with
        | JNum d =>
            if (negb (d =? 0)) && (d >? 0)
            then sumDurations rest (totalDuration + d) (validParticipants + 1)
            else sumDurations rest totalDuration validParticipants
        | _ => sumDurations rest totalDuration validParticipants
        end
  end.

(** [Math.round(a / b)] for [b > 0]: halves round up. *)
Definition roundDiv (a b : Z) : Z := (2 * a + b) / (2 * b).

(** [fetchParticipantData(accessToken, webinarId, rateLimiter)]:
    [{ count, avgDuration }]. *)
Definition fetchParticipantData (P : platform) (fuel : nat) (webinarId : json)
  : M (json * json) :=
  tryCatch
    (response <- executeWithRateLimit fuel (fetch P (Participants webinarId)) ;;
     if ok response then
       data <- responseJson response ;;
       requireObject data ;;;
       match orj (prop "participants" data) (JArr []) with
       | JArr participants =>
           let count := orj (prop "total_records" data)
                            (JNum (Z.of_nat (List.length participants))) in
           (* Calculate average duration *)
           sums <- sumDurations participants 0 0 ;;
           let '(totalDuration, validParticipants) := sums in
           let avgDuration :=
             if validParticipants >? 0 then roundDiv totalDuration validParticipants else 0 in
           ret (count, JNum avgDuration)
       | _ => throw TypeError
       end
     else ret (JNum 0, JNum 0))
    (fun _ => ret (JNum 0, JNum 0)).

(** The three list-valued enrichments share one shape: inside a [try], a rate
    limited call that answers the list under [key], or [[]] for a response
    that is not ok. *)
Definition fetchListField (P : platform) (fuel : nat) (ep : endpoint) (key : string)
  : M json :=
  executeWithRateLimit fuel
    (response <- fetch P ep ;;
     if ok response then
       data <- responseJson response ;;
       requireObject data ;;;
       ret (orj (prop key data) (JArr []))
     else ret (JArr [])).

(** [try { additionalData.field = await ... } catch (error) { console.error(...) }] *)
Definition addListField (P : platform) (fuel : nat) (ep : endpoint) (key field : string)
    (additionalData : row) : M row :=
  tryCatch
    (v <- fetchListField P fuel ep key ;;
     ret (setField field v additionalData))
    (fun _ => ret additionalData).

(** [fetchAdditionalWebinarData(accessToken, webinarId, type, rateLimiter)]:
    the [additionalData] object. *)
Definition fetchAdditionalWebinarData (P : platform) (fuel : nat)
    (webinarId : json) (type : webinarType) : M row :=
  let additionalData : row := [] in
  (* Fetch registrant count for all webinars *)
  registrantCount <- fetchRegistrantCount P fuel webinarId ;;
  let additionalData := setField "registrantCount" registrantCount additionalData in
  (* Fetch participant data for past webinars *)
  additionalData <-
    match type with
    | past =>
        participantData <- fetchParticipantData P fuel webinarId ;;
        ret (setField "avgAttendanceDuration" (snd participantData)
               (setField "participantCount" (fst participantData) additionalData))
    | upcoming => ret additionalData
    end ;;
  (* Fetch tracking sources (only for upcoming webinars) *)
  additionalData <-
    match type with
    | upcoming =>
        addListField P fuel (TrackingSources webinarId) "tracking_sources"
          "trackingSources" additionalData
    | past => ret additionalData
    end ;;
  (* Fetch polls, Q&A for past webinars *)
  match type with
  | past =>
      additionalData <-
        addListField P fuel (Polls webinarId) "questions" "polls" additionalData ;;
      addListField P fuel (QA webinarId) "questions" "qa" additionalData
  | upcoming => ret additionalData
  end.

(** ** Reconciler and item processing (v2, lines 479-704) *)

Fixpoint splitOn (sep : ascii) (s : string) : list string :=
  match s with
  | EmptyString => [EmptyString]
  | String c rest =>
      if Ascii.eqb c sep then EmptyString :: splitOn sep rest
      else
        match splitOn sep rest with
        | [] => [String c EmptyString]
        | hd :: tl => String c hd :: tl
        end
  end.

Fixpoint revString (s acc : string) : string :=
  match s with
  | EmptyString => acc
  | String c rest => revString rest (String c acc)
  end.

Definition trim (s : string) : string :=
  revString (trimStart (revString (trimStart s) EmptyString)) EmptyString.

(** [JSON.stringify] leaves out the members that are [undefined]: they never
    reach the store. *)
Definition serialize (r : row) : row :=
  filter (fun kv => match snd kv with JUndef => false | _ => true end) r.

Definition rowType (queueItem : row) : webinarType :=
  if strictEqStr (col "webinar_type" queueItem) "past" then past else upcoming.

(** The object literal [webinarData] of [processWebinar] (lines 519-631). *)
Definition buildWebinarData (P : platform) (now : Z) (connectionId : json)
    (type : webinarType) (webinarDetails : json) (additionalData : row)
    (status : string) : M row :=
  let d := fun k => prop k webinarDetails in
  let s := fun k => optprop k (prop "settings" webinarDetails) in
  let a := fun k => assoc k additionalData in
  webinar_created_at <-
    (if truthy (d "created_at") then
       match newDate P (d "created_at") with
       | Some t => ret (JNum t)
       | None => throw RangeError
       end
     else ret JNull) ;;
  alternative_hosts <-
    (if truthy (d "alternative_hosts_email") then
       match d "alternative_hosts_email" with
       | JStr hosts => ret (JArr (map (fun h => JStr (trim h)) (splitOn "," hosts)))
       | _ => throw TypeError
       end
     else ret JNull) ;;
  ret
    [("webinar_id", orj (d "id") (d "uuid"));
     ("webinar_uuid", orj (orj (d "uuid") (d "id")) (JStr ("webinar-" ++ toString (d "id"))));
     ("connection_id", connectionId);
     ("topic", d "topic");
     ("type", orj (d "type") (JNum 5));
     ("start_time", d "start_time");
     ("duration", orj (d "duration") (JNum 0));
     ("timezone", d "timezone");
     ("webinar_created_at", webinar_created_at);
     ("start_url", d "start_url");
     ("join_url", d "join_url");
     ("status", JStr status);
     (* Host information *)
     ("host_id", orj (d "host_id") (JStr "unknown"));
     ("host_email", orj (orj (d "host_email") (optprop "email" (d "host"))) JNull);
     ("alternative_hosts", alternative_hosts);
     (* Registration settings *)
     ("registration_url", d "registration_url");
     ("registration_required",
        match s "registrants_require_approval" with
        | JUndef => orj (d "registration_required") (JBool false)
        | _ => JBool true
        end);
     ("approval_type", orj (s "approval_type") (d "approval_type"));
     ("registration_type", orj (s "registration_type") (d "registration_type"));
     ("max_registrants", orj (orj (s "registrants_restrict_number") (d "max_registrants")) JNull);
     ("max_attendees", orj (orj (s "max_attendees") (d "max_attendees")) JNull);
     (* Use fetched data for counts *)
     ("total_registrants", orj (orj (a "registrantCount") (d "registrants_count")) (JNum 0));
     ("total_attendees", orj (orj (a "participantCount") (d "participants_count")) (JNum 0));
     ("total_minutes", orj (d "total_minutes") (JNum 0));
     ("avg_attendance_duration",
        orj (orj (a "avgAttendanceDuration") (d "avg_attendance_duration")) (JNum 0));
     (* Meeting settings *)
     ("audio", orj (orj (s "audio") (d "audio")) (JStr "both"));
     ("auto_recording", orj (orj (s "auto_recording") (d "auto_recording")) (JStr "none"));
     ("enforce_login", orj (s "enforce_login") (JBool false));
     ("hd_video", orj (s "hd_video") (JBool false));
     ("hd_video_for_attendees", orj (s "hd_video_for_attendees") (JBool false));
     ("send_1080p_video_to_attendees", orj (s "send_1080p_video_to_attendees") (JBool false));
     ("host_video", orj (s "host_video") (JBool false));
     ("on_demand", orj (s "on_demand") (JBool false));
     ("panelists_video", orj (s "panelists_video") (JBool false));
     ("practice_session", orj (s "practice_session") (JBool false));
     ("question_answer", orj (orj (s "question_answer") (s "q_and_a")) (JBool false));
     ("registrants_confirmation_email", orj (s "registrants_confirmation_email") (JBool false));
     ("registrants_email_notification", orj (s "registrants_email_notification") (JBool false));
     ("registrants_restrict_number", orj (s "registrants_restrict_number") (JNum 0));
     ("notify_registrants", orj (s "notify_registrants") (JBool false));
     ("post_webinar_survey", orj (s "post_webinar_survey") (JBool false));
     ("survey_url", orj (orj (s "survey_url") (d "survey_url")) JNull);
     (* Authentication *)
     ("authentication_option", orj (s "authentication_option") JNull);
     ("authentication_domains", orj (s "authentication_domains") JNull);
     ("authentication_name", orj (s "authentication_name") JNull);
     (* Email settings *)
     ("email_language", orj (orj (s "email_language") (s "language")) (JStr "en-US"));
     ("panelists_invitation_email_notification",
        orj (s "panelists_invitation_email_notification") (JBool false));
     (* Contact information *)
     ("contact_name", orj (orj (s "contact_name") (d "contact_name")) JNull);
     ("contact_email", orj (orj (s "contact_email") (d "contact_email")) JNull);
     (* Q&A settings *)
     ("attendees_and_panelists_reminder_email_notification",
        orj (s "attendees_and_panelists_reminder_email_notification") JNull);
     ("follow_up_attendees_email_notification",
        orj (s "follow_up_attendees_email_notification") JNull);
     ("follow_up_absentees_email_notification",
        orj (s "follow_up_absentees_email_notification") JNull);
     (* Password settings *)
     ("password", orj (d "password") JNull);
     ("h323_password", orj (d "h323_password") JNull);
     ("pstn_password", orj (d "pstn_password") JNull);
     ("webinar_passcode", orj (d "passcode") JNull);
     ("encrypted_password", orj (d "encrypted_password") JNull);
     (* Agenda *)
     ("agenda", orj (d "agenda") JNull);
     (* Tracking fields *)
     ("tracking_fields", orj (orj (d "tracking_fields") (a "trackingSources")) JNull);
     (* Recurrence *)
     ("recurrence", orj (d "recurrence") JNull);
     ("occurrences", orj (d "occurrences") JNull);
     ("occurrence_id", orj (d "occurrence_id") JNull);
     (* Simulive settings *)
     ("simulive", orj (d "is_simulive") (JBool false));
     ("record_file_id", orj (d "record_file_id") JNull);
     (* Settings object *)
     ("settings", orj (d "settings") (JObj []));
     (* Additional data *)
     ("additional_data",
        JObj (setField "raw_response" webinarDetails
               (setField "occurrences" (orj (d "occurrences") (JArr []))
                  (setField "settings" (d "settings") additionalData))));
     (* Sync metadata *)
     ("created_at", JNum now);
     ("updated_at", JNum now);
     ("synced_at", JNum now);
     ("last_synced_at", JNum now);
     ("sync_status", JStr "synced");
     (* Participant sync status *)
     ("participant_sync_status",
        JStr match type with past => "pending" | upcoming => "not_applicable" end)].

Definition webinarConflictTarget : list string := ["webinar_id"; "connection_id"].

(** [.from('zoom_webinars').upsert(webinarData, { onConflict: 'webinar_id,connection_id' })] *)
Definition upsertWebinar (P : platform) (webinarData : row) : M unit :=
  match storeFault P "zoom_webinars" [serialize webinarData] with
  | Some msg => throw (Error msg)
  | None =>
      modifyDb (fun d =>
        setWebinars (upsertRow webinarConflictTarget (serialize webinarData) (zoom_webinars d)) d)
  end.

Definition updateQueueItem (id : json) (patch : row) : M unit :=
  modifyDb (fun d =>
    setQueue (updateWhere (whereEq "id" id) (serialize patch) (webinar_sync_queue d)) d).

(** [queueItem.retry_count + 1] *)
Definition nextRetryCount (queueItem : row) : json :=
  match col "retry_count" queueItem with
  | JNum n => JNum (n + 1)
  | JNull => JNum 1
  | _ => JNull
  end.

(** [processWebinar(supabase, accessToken, queueItem, rateLimiter, syncId, connectionId)] *)
Definition processWebinar (P : platform) (fuel : nat) (queueItem : row)
    (syncId connectionId : json) : M unit :=
  let webinar_id := col "webinar_id" queueItem in
  let webinar_type := rowType queueItem in
  tryCatch
    ((* Mark as processing *)
     started <- nowISO ;;
     updateQueueItem (col "id" queueItem)
       [("processing_status", JStr "processing"); ("started_at", started)] ;;;
     (* Fetch complete webinar details *)
     webinarDetails <-
       executeWithRateLimit fuel (fetchWebinarDetails P webinar_id webinar_type) ;;
     (* Fetch additional data *)
     additionalData <- fetchAdditionalWebinarData P fuel webinar_id webinar_type ;;
     (* Determine the correct status *)
     now <- dateNow ;;
     let status := determineWebinarStatus P now webinarDetails webinar_type in
     (* Prepare data for upsert *)
     webinarData <-
       buildWebinarData P now connectionId webinar_type webinarDetails additionalData status ;;
     (* Upsert webinar data *)
     upsertWebinar P webinarData ;;;
     (* Mark as completed *)
     completed <- nowISO ;;
     updateQueueItem (col "id" queueItem)
       [("processing_status", JStr "completed"); ("completed_at", completed)] ;;;
     (* Broadcast progress *)
     broadcastProgress syncId "webinar"
       ("Processed webinar: " ++ toString (prop "topic" webinarDetails))
       (JObj [("webinar_id", webinar_id);
              ("status", JStr status);
              ("registrants", orj (assoc "registrantCount" additionalData) (JNum 0));
              ("attendees", orj (assoc "participantCount" additionalData) (JNum 0))])
       None)
    (fun error =>
       (* Update queue item with error *)
       updateQueueItem (col "id" queueItem)
         [("processing_status", JStr "failed");
          ("error_message", JStr (message error));
          ("retry_count", nextRetryCount queueItem)] ;;;
       (* Broadcast error *)
       broadcastProgress syncId "error"
         ("Failed to process webinar " ++ toString webinar_id ++ ": " ++ message error)
         (JObj [("webinar_id", webinar_id); ("error", JStr (message error))])
         None ;;;
       (* Re-throw for higher level handling *)
       throw error).

(** ** Sync orchestrator (v2, lines 707-1015) *)

Record request : Type := mkRequest {
  method : string;
  jsonBody : option json        (* [None]: [req.json()] rejects *)
}.

Record httpResponse : Type := mkHttp {
  statusCode : Z;
  responseBody : json
}.

(** An entry of [allWebinars]. *)
Record WebinarQueueItem : Type := mkItem {
  webinar_id : json;
  webinar_type : webinarType
}.

Definition natStr (n : nat) : string := stringOfZ (Z.of_nat n).

(** [webinars.map(w => ({ webinar_id: w.id || w.uuid, webinar_type }))] *)
Fixpoint stubsOf (type : webinarType) (webinars : list json) : M (list WebinarQueueItem) :=
  match webinars with
  | [] => ret []
  | w :: rest =>
      if nullish w then throw TypeError
      else
        items <- stubsOf type rest ;;
        ret (mkItem (orj (prop "id" w) (prop "uuid" w)) type :: items)
  end.

(** One of the two [do ... while (nextPageToken)] loops of phase 1 (lines
    800-827 for ["past"], 837-864 for ["upcoming"]).  They differ in the date
    bound, the percentage reported and the base of the count they report.
    [fuel] bounds the pages fetched, [retries] each rate limited call. *)
Fixpoint listPages (P : platform) (retries fuel : nat) (type : webinarType)
    (from to : option Z) (syncId : json) (percentage : Q) (upcomingStart : nat)
    (nextPageToken : json) (pageCount : Z) (allWebinars : list WebinarQueueItem)
  : M (list WebinarQueueItem) :=
  match fuel with
  | O => diverge
  | S fuel' =>
      page <- executeWithRateLimit retries
                (fetchWebinarList P type from to 100 nextPageToken) ;;
      let '(webinars, token) := page in
      stubs <- match webinars with
               | JArr l => stubsOf type l
               | _ => throw TypeError
               end ;;
      let allWebinars := (allWebinars ++ stubs)%list in
      let nextPageToken := token in
      let pageCount := pageCount + 1 in
      broadcastProgress syncId "progress"
        ("Fetching " ++ webinarTypeName type ++ " webinars... (Page "
           ++ stringOfZ pageCount ++ ")")
        (JObj [("pageCount", JNum pageCount);
               ("webinarCount",
                  JNum (Z.of_nat (List.length allWebinars) - Z.of_nat upcomingStart))])
        (Some percentage) ;;;
      if truthy nextPageToken then
        listPages P retries fuel' type from to syncId percentage upcomingStart
          nextPageToken pageCount allWebinars
      else ret allWebinars
  end.

(** [setDate(getDate() - days)] on the UTC clock of the edge runtime moves a
    date by whole days of 86400000 ms. *)
Definition msPerDay : Z := 86400000.

(** [(dateRange.pastDays || 90)] as a number of days; day counts are numbers. *)
Definition dayCount (v : json) (default : Z) : M Z :=
  match orj v (JNum default) with
  | JNum n => ret n
  | _ => throw RangeError
  end.

(** Modelled from the spec: the column defaults of the tables, whose
    declarations are not part of the sources.  The store numbers a new row and
    a work item starts [pending] with a [retry_count] of 0. *)
Definition withDefault (k : string) (v : json) (r : row) : row :=
  match assoc k r with
  | JUndef => (r ++ [(k, v)])%list
  | _ => r
  end.

Fixpoint insertQueueRows (rows : list row) (nextId : Z) : list row :=
  match rows with
  | [] => []
  | r :: rest =>
      withDefault "retry_count" (JNum 0)
        (withDefault "processing_status" (JStr "pending")
           (withDefault "id" (JNum nextId) (serialize r)))
      :: insertQueueRows rest (nextId + 1)
  end.

(** Lines 752-773: [if (!syncId) { ... }], creating the sync log. *)
Definition createSyncLog (P : platform) (connectionId syncMode dateRange : json) : M json :=
  started <- nowISO ;;
  d <- getDb ;;
  let newSync : row :=
    withDefault "id" (JNum (next_id d))
      (serialize
         [("connection_id", connectionId);
          ("status", JStr "running");
          ("started_at", started);
          ("sync_type", syncMode);
          ("metadata", JObj [("dateRange", dateRange)])]) in
  match storeFault P "zoom_sync_logs" [newSync] with
  | Some _ => throw (Error "Failed to create sync log")
  | None =>
      modifyDb (fun d => setNextId (next_id d + 1)
                           (setSyncLogs (zoom_sync_logs d ++ [newSync])%list d)) ;;;
      let syncId := col "id" newSync in
      broadcastProgress syncId "status" "Starting new sync..."
        (JObj [("syncMode", syncMode); ("dateRange", dateRange)]) None ;;;
      ret syncId
  end.

(** Phase 1 (lines 790-867): both listings. *)
Definition enumerateWebinars (P : platform) (fuel : nat) (syncId : json)
    (from to : Z) : M (list WebinarQueueItem) :=
  broadcastProgress syncId "status" "Fetching webinar lists..." (JObj []) (Some 0%Q) ;;;
  (* Fetch past webinars *)
  pastWebinars <-
    listPages P fuel fuel past (Some from) None syncId 5%Q 0 JUndef 0 [] ;;
  (* Fetch upcoming webinars *)
  listPages P fuel fuel upcoming None (Some to) syncId 10%Q
    (List.length pastWebinars) JUndef 0 pastWebinars.

(** The rows built at lines 881-887. *)
Definition queueItems (syncId : json) (now : Z) (allWebinars : list WebinarQueueItem)
  : list row :=
  map (fun w =>
         [("sync_id", syncId);
          ("webinar_id", webinar_id w);
          ("webinar_type", JStr (webinarTypeName (webinar_type w)));
          ("priority", JNum 5);
          ("scheduled_at", JNum now)])
      allWebinars.

(** Phase 2 (lines 869-908): queue the work items and save the sync state.
    [sync_state] is taken to be keyed by [sync_id]. *)
Definition queueWebinars (P : platform) (syncId connectionId : json)
    (allWebinars : list WebinarQueueItem) : M unit :=
  let total := Z.of_nat (List.length allWebinars) in
  broadcastProgress syncId "status"
    ("Queuing " ++ stringOfZ total ++ " webinars for processing...")
    (JObj [("totalWebinars", JNum total)]) (Some 15%Q) ;;;
  (* Insert webinars into queue *)
  (if total >? 0 then
     now <- dateNow ;;
     let rows := queueItems syncId now allWebinars in
     match storeFault P "webinar_sync_queue" rows with
     | Some msg => throw (Error ("Failed to queue webinars: " ++ msg))
     | None =>
         modifyDb (fun d =>
           setNextId (next_id d + total)
             (setQueue (webinar_sync_queue d ++ insertQueueRows rows (next_id d))%list d))
     end
   else ret tt) ;;;
  (* Save sync state *)
  modifyDb (fun d =>
    setSyncState
      (upsertRow ["sync_id"]
         (serialize
            [("sync_id", syncId);
             ("connection_id", connectionId);
             ("state_type", JStr "webinar_details");
             ("state_data", JObj [("totalWebinars", JNum total)]);
             ("total_items", JNum total);
             ("processed_items", JNum 0)])
         (sync_state d)) d).

Definition numOf (v : json) : Z := match v with JNum n => n | _ => 0 end.

(** [.order('priority', { ascending: false }).order('scheduled_at', { ascending: true })]:
    [a] may come before [b]. *)
Definition queueOrder (a b : row) : bool :=
  let pa := numOf (col "priority" a) in
  let pb := numOf (col "priority" b) in
  (pa >? pb) ||
  ((pa =? pb) && (numOf (col "scheduled_at" a) <=? numOf (col "scheduled_at" b))).

Fixpoint insertOrdered (r : row) (sorted : list row) : list row :=
  match sorted with
  | [] => [r]
  | r' :: rest =>
      if queueOrder r r' then r :: sorted else r' :: insertOrdered r rest
  end.

(** The ordered select of lines 913-919; rows that tie keep the order in which
    they were inserted. *)
Definition selectPending (syncId : json) (queue : list row) : list row :=
  fold_right insertOrdered []
    (filter (fun r => whereEq "sync_id" syncId r
                      && whereEq "processing_status" (JStr "pending") r) queue).

(** The [for ... of] loop of lines 925-957, returning
    [(processedCount, failedCount)]. *)
Fixpoint drainQueue (P : platform) (fuel : nat) (syncId connectionId : json)
    (total : nat) (items : list row) (processedCount failedCount : Z) : M (Z * Z) :=
  match items with
  | [] => ret (processedCount, failedCount)
  | item :: rest =>
      counts <-
        tryCatch
          (processWebinar P fuel item syncId connectionId ;;;
           let processedCount := processedCount + 1 in
           (* Update progress *)
           let percentage :=
             Qred (15 + (inject_Z processedCount / inject_Z (Z.of_nat total)) * 80)%Q in
           broadcastProgress syncId "progress"
             ("Processing webinars... (" ++ stringOfZ processedCount ++ "/"
                ++ natStr total ++ ")")
             (JObj [("processedCount", JNum processedCount);
                    ("totalCount", JNum (Z.of_nat total))])
             (Some percentage) ;;;
           (* Update sync state *)
           updated <- nowISO ;;
           modifyDb (fun d =>
             setSyncState
               (updateWhere
                  (fun r => whereEq "sync_id" syncId r
                            && whereEq "state_type" (JStr "webinar_details") r)
                  (serialize
                     [("processed_items", JNum processedCount);
                      ("last_processed_item", col "webinar_id" item);
                      ("updated_at", updated)])
                  (sync_state d)) d) ;;;
           ret (processedCount, failedCount))
          (fun _ =>
             (* Continue with next webinar *)
             ret (processedCount, failedCount + 1)) ;;
      drainQueue P fuel syncId connectionId total rest (fst counts) (snd counts)
  end.

(** Phase 3 (lines 910-960). *)
Definition processQueue (P : platform) (fuel : nat) (syncId connectionId : json)
  : M (Z * Z) :=
  d <- getDb ;;
  let queuedItems := selectPending syncId (webinar_sync_queue d) in
  drainQueue P fuel syncId connectionId (List.length queuedItems) queuedItems 0 0.

(** Phase 4 (lines 962-999). *)
Definition completeSync (syncId syncMode dateRange : json)
    (allWebinars : list WebinarQueueItem) : M httpResponse :=
  let total := Z.of_nat (List.length allWebinars) in
  ended <- nowISO ;;
  modifyDb (fun d =>
    setSyncLogs
      (updateWhere (whereEq "id" syncId)
         (serialize
            [("status", JStr "completed");
             ("ended_at", ended);
             ("webinars_synced", JNum total);
             ("metadata", JObj [("dateRange", dateRange);
                                ("syncMode", syncMode);
                                ("totalWebinars", JNum total)])])
         (zoom_sync_logs d)) d) ;;;
  broadcastProgress syncId "status"
    ("Sync completed successfully! Processed " ++ stringOfZ total ++ " webinars.")
    (JObj [("totalWebinars", JNum total)]) (Some 100%Q) ;;;
  ret (mkHttp 200
         (JObj (serialize
                  [("success", JBool true);
                   ("syncId", syncId);
                   ("webinarsSynced", JNum total);
                   ("message", JStr "Sync completed successfully")]))).

Definition defaulted (v default : json) : json :=
  match v with JUndef => default | _ => v end.

(** The [try] block of the handler (lines 712-999). *)
Definition syncRun (P : platform) (fuel : nat) (req : request) : M httpResponse :=
  if negb (envConfigured P) then throw (Error "Missing required environment variables")
  else
    match jsonBody req with
    | None => throw (Error "SyntaxError")
    | Some payload =>
        requireObject payload ;;;
        let connectionId := prop "connectionId" payload in
        let syncMode := defaulted (prop "syncMode" payload) (JStr "full") in
        let dateRange :=
          defaulted (prop "dateRange" payload)
            (JObj [("pastDays", JNum 90); ("futureDays", JNum 180)]) in
        let resumeSyncId := prop "resumeSyncId" payload in
        (* Validate connection *)
        if negb (truthy connectionId) then throw (Error "Connection ID is required")
        else
          requireObject dateRange ;;;
          (* Initialize or resume sync *)
          (if truthy resumeSyncId then
             (* Resume existing sync *)
             d <- getDb ;;
             match single (filter (whereEq "sync_id" resumeSyncId) (sync_state d)) with
             | Some existingState =>
                 broadcastProgress resumeSyncId "status" "Resuming sync..."
                   (JObj [("resumed", JBool true)]) None
             | None => ret tt
             end
           else ret tt) ;;;
          syncId <-
            (if negb (truthy resumeSyncId)
             then createSyncLog P connectionId syncMode dateRange
             else ret resumeSyncId) ;;
          (* Get access token *)
          accessToken <- getZoomAccessToken P connectionId ;;
          (* Initialize rate limiter *)
          created <- dateNow ;;
          putLimiter (newRateLimitManager created) ;;;
          (* Calculate date ranges *)
          now <- dateNow ;;
          pastDays <- dayCount (prop "pastDays" dateRange) 90 ;;
          futureDays <- dayCount (prop "futureDays" dateRange) 180 ;;
          let pastDate := now - pastDays * msPerDay in
          let futureDate := now + futureDays * msPerDay in
          (* Phase 1: Fetch webinar lists *)
          allWebinars <-
            enumerateWebinars P fuel syncId (pastDate / msPerDay) (futureDate / msPerDay) ;;
          (* Phase 2: Queue webinars for processing *)
          queueWebinars P syncId connectionId allWebinars ;;;
          (* Phase 3: Process webinars *)
          processQueue P fuel syncId connectionId ;;;
          (* Phase 4: Complete sync *)
          completeSync syncId syncMode dateRange allWebinars
    end.

(** [serve(async (req) => { ... })] *)
Definition serve (P : platform) (fuel : nat) (req : request) : M httpResponse :=
  if (method req =? "OPTIONS")%string then ret (mkHttp 200 JNull)
  else
    tryCatch (syncRun P fuel req)
      (fun error =>
         ret (mkHttp 500
                (JObj [("error",
                        JStr (if (message error =? "")%string
                              then "An error occurred during sync"
                              else message error))]))).

(** ** The older batch sync ([zoom-sync-webinars/index.ts]) *)

Module ZoomWebinarSyncService.

(** [new EdgeFunctionError(message, statusCode)]; the class is imported from
    [./shared/index.ts], the status code is kept in [status]. *)
Definition EdgeFunctionError (msg : string) (statusCode : Z) : error :=
  mkError msg (Some statusCode) None.

Definition maxPages : Z := 10.

(** [createSyncLog(connectionId, syncType)] *)
Definition createSyncLog (P : platform) (connectionId syncType : json) : M json :=
  started <- nowISO ;;
  d <- getDb ;;
  let syncLog : row :=
    withDefault "id" (JNum (next_id d))
      (serialize
         [("connection_id", connectionId);
          ("sync_type", syncType);
          ("status", JStr "in_progress");
          ("started_at", started);
          ("total_items", JNum 0);
          ("processed_items", JNum 0)]) in
  match storeFault P "zoom_sync_logs" [syncLog] with
  | Some _ => throw (EdgeFunctionError "Failed to initialize sync" 500)
  | None =>
      modifyDb (fun d => setNextId (next_id d + 1)
                           (setSyncLogs (zoom_sync_logs d ++ [syncLog])%list d)) ;;;
      ret (col "id" syncLog)
  end.

(** [testZoomAPI(accessToken)] *)
Definition testZoomAPI (P : platform) : M json :=
  response <- fetch P UsersMe ;;
  if negb (ok response) then
    throw (EdgeFunctionError
             "Zoom API authentication failed. Please reconnect your account." 401)
  else responseJson response.

(** [...data.webinars] when [data.webinars && data.webinars.length > 0]. *)
Fixpoint charsOf (s : string) : list json :=
  match s with
  | EmptyString => []
  | String c rest => JStr (String c EmptyString) :: charsOf rest
  end.

Definition pageItems (webinars : json) : list json :=
  match webinars with
  | JArr l => l
  | JStr s => charsOf s
  | _ => []
  end.

(** The [do ... while (nextPageToken && pageCount < maxPages)] loop of
    [fetchWebinars] (lines 66-86), entered with the current accumulator,
    token and page count. *)
Fixpoint fetchWebinarsLoop (P : platform) (fuel : nat) (allWebinars : list json)
    (nextPageToken : json) (pageCount : Z) : M (list json) :=
  match fuel with
  | O => diverge
  | S fuel' =>
      let pageCount := pageCount + 1 in
      response <- fetch P (ListAllWebinars
                             (if truthy nextPageToken then toString nextPageToken else "")) ;;
      if negb (ok response) then
        throw (EdgeFunctionError
                 ("Failed to fetch webinars: " ++ stringOfZ (httpStatus response)) 500)
      else
        data <- responseJson response ;;
        requireObject data ;;;
        let allWebinars := (allWebinars ++ pageItems (prop "webinars" data))%list in
        let nextPageToken := orj (prop "next_page_token" data) (JStr "") in
        if truthy nextPageToken && (pageCount <? maxPages) then
          fetchWebinarsLoop P fuel' allWebinars nextPageToken pageCount
        else ret allWebinars
  end.

(** [fetchWebinars(accessToken)] *)
Definition fetchWebinars (P : platform) (fuel : nat) : M (list json) :=
  fetchWebinarsLoop P fuel [] (JStr "") 0.

(** [webinar.duration * 60 * 1000] *)
Definition durationMs (v : json) : option Z :=
  match v with
  | JNum n => Some (n * 60 * 1000)
  | JNull => Some 0
  | _ => None
  end.

(** [mapWebinarStatus(webinar)]; a comparison with an invalid date is false. *)
Definition mapWebinarStatus (P : platform) (now : Z) (webinar : json) : string :=
  let startTime := newDate P (prop "start_time" webinar) in
  let endTime :=
    match startTime, durationMs (prop "duration" webinar) with
    | Some s, Some d => Some (s + d)
    | _, _ => None
    end in
  let lt a b := match b with Some y => a <? y | None => false end in
  let ge a b := match b with Some y => a >=? y | None => false end in
  let le a b := match b with Some y => a <=? y | None => false end in
  if lt now startTime then "scheduled"
  else if ge now startTime && le now endTime then "started"
  else "finished".

(** The object built for one webinar at lines 96-111. *)
Definition webinarRow (P : platform) (now : Z) (connectionId : json) (webinar : json)
  : M row :=
  if nullish webinar then throw TypeError
  else if nullish (prop "id" webinar) then throw TypeError
  else
    ret [("connection_id", connectionId);
         ("webinar_id", JStr (toString (prop "id" webinar)));
         ("webinar_uuid", prop "uuid" webinar);
         ("host_id", prop "host_id" webinar);
         ("topic", prop "topic" webinar);
         ("type", prop "type" webinar);
         ("start_time", prop "start_time" webinar);
         ("duration", prop "duration" webinar);
         ("timezone", prop "timezone" webinar);
         ("agenda", orj (prop "agenda" webinar) (JStr ""));
         ("status", JStr (mapWebinarStatus P now webinar));
         ("join_url", prop "join_url" webinar);
         ("registration_url", prop "registration_url" webinar);
         ("last_synced_at", JNum now)].

Fixpoint webinarRows (P : platform) (now : Z) (connectionId : json) (batch : list json)
  : M (list row) :=
  match batch with
  | [] => ret []
  | webinar :: rest =>
      r <- webinarRow P now connectionId webinar ;;
      rs <- webinarRows P now connectionId rest ;;
      ret (r :: rs)
  end.

Definition conflictTarget : list string := ["connection_id"; "webinar_id"].

(** [updateSyncProgress(syncLogId, processedItems)] *)
Definition updateSyncProgress (syncLogId : json) (processedItems : Z) : M unit :=
  modifyDb (fun d =>
    setSyncLogs (updateWhere (whereEq "id" syncLogId)
                   [("processed_items", JNum processedItems)] (zoom_sync_logs d)) d).

Definition batchSize : nat := 50.

(** The [for] loop of [saveWebinars] over the batches still to save. *)
Fixpoint saveBatches (P : platform) (fuel : nat) (webinars : list json)
    (connectionId syncLogId : json) (processedCount : Z) : M unit :=
  match fuel with
  | O => diverge
  | S fuel' =>
      match webinars with
      | [] => ret tt
      | _ =>
          let batch := firstn batchSize webinars in
          now <- dateNow ;;
          webinarsToInsert <- webinarRows P now connectionId batch ;;
          let payload := map serialize webinarsToInsert in
          match storeFault P "zoom_webinars" payload with
          | Some msg => throw (EdgeFunctionError ("Failed to save webinars: " ++ msg) 500)
          | None =>
              modifyDb (fun d =>
                setWebinars
                  (fold_left (fun rows r => upsertRow conflictTarget r rows)
                     payload (zoom_webinars d)) d) ;;;
              let processedCount := processedCount + Z.of_nat (List.length batch) in
              (* Update progress *)
              updateSyncProgress syncLogId processedCount ;;;
              saveBatches P fuel' (skipn batchSize webinars) connectionId syncLogId
                processedCount
          end
      end
  end.

(** [saveWebinars(webinars, connectionId, syncLogId)] *)
Definition saveWebinars (P : platform) (webinars : list json)
    (connectionId syncLogId : json) : M unit :=
  saveBatches P (S (List.length webinars)) webinars connectionId syncLogId 0.

(** [completeSyncLog(syncLogId, totalItems, status, error)] *)
Definition completeSyncLog (syncLogId : json) (totalItems : Z) (status : string)
    (error : option string) : M unit :=
  completed <- nowISO ;;
  let update : row :=
    [("status", JStr status);
     ("processed_items", JNum totalItems);
     ("completed_at", completed)] in
  let update :=
    match error with
    | Some e =>
        if (e =? "")%string then update
        else (update ++ [("error_message", JStr e);
                         ("error_details", JObj [("error", JStr e)])])%list
    | None => update
    end in
  modifyDb (fun d =>
    setSyncLogs (updateWhere (whereEq "id" syncLogId) update (zoom_sync_logs d)) d).

(** The handler from the creation of the sync log to its inner [catch]
    (lines 236-279); [totalWebinars] is 0 until the listing has returned. *)
Definition syncWebinars (P : platform) (fuel : nat) (connectionId syncType requestId : json)
  : M httpResponse :=
  syncLogId <- createSyncLog P connectionId syncType ;;
  webinars <-
    tryCatch
      ((* Test Zoom API *)
       userData <- testZoomAPI P ;;
       requireObject userData ;;;
       (* Fetch webinars *)
       fetchWebinars P fuel)
      (fun error =>
         completeSyncLog syncLogId 0 "failed" (Some (message error)) ;;;
         throw error) ;;
  let totalWebinars := Z.of_nat (List.length webinars) in
  tryCatch
    ((* Update total in sync log *)
     modifyDb (fun d =>
       setSyncLogs (updateWhere (whereEq "id" syncLogId)
                      [("total_items", JNum totalWebinars)] (zoom_sync_logs d)) d) ;;;
     (* Save webinars *)
     (if totalWebinars >? 0 then saveWebinars P webinars connectionId syncLogId
      else ret tt) ;;;
     (* Complete sync *)
     completeSyncLog syncLogId totalWebinars "completed" None ;;;
     ret (mkHttp 200
            (JObj (serialize
               [("success", JBool true);
                ("syncId", syncLogId);
                ("data",
                   JObj [("syncId", syncLogId);
                         ("status", JStr "completed");
                         ("message",
                            JStr ("Successfully synced " ++ stringOfZ totalWebinars
                                    ++ " webinars"));
                         ("totalItems", JNum totalWebinars);
                         ("processedItems", JNum totalWebinars)]);
                ("requestId", requestId)]))))
    (fun error =>
       (* Update sync log with failure *)
       completeSyncLog syncLogId totalWebinars "failed" (Some (message error)) ;;;
       throw error).

End ZoomWebinarSyncService.

(** ** Sample environments *)

Definition jsonOk (v : json) : fetchResult :=
  Fulfilled 0 (mkResponse true 200 (Some v) "").
Definition httpError (code : Z) (reason : string) : fetchResult :=
  Fulfilled 0 (mkResponse false code None reason).
Definition networkError : fetchResult := Rejected 0 (Error "network error").
Definition tooManyRequests (retryAfterValue : option string) : fetchResult :=
  Rejected 0 (mkError "Too Many Requests" (Some 429) retryAfterValue).

Definition emptyDb : database := mkDb [] [] [] [] [] [] 1.

Definition sampleConnection : row :=
  [("id", JStr "conn-1");
   ("access_token", JStr "sealed");
   ("refresh_token", JStr "refresh");
   ("token_expires_at", JNum 9000000000000);
   ("zoom_email", JStr "host@example.com")].

Definition sampleDb : database := mkDb [sampleConnection] [] [] [] [] [] 1.

Definition startWorld (d : database) : world :=
  mkWorld 1700000000000 [] (newRateLimitManager 0) d.

Definition stub (n : Z) : json := JObj [("id", JNum n)].

Definition platformOf (srv : endpoint -> nat -> fetchResult) : platform :=
  mkPlatform srv (fun _ _ => Some "token") (fun t _ => t) (fun _ => None)
             (fun _ _ => None) true.

(** Three webinars, one past and two upcoming; the detail of webinar 2 is
    refused and every other call is answered. *)
Definition threeWebinars (ep : endpoint) (n : nat) : fetchResult :=
  match ep with
  | ListWebinars past _ _ _ _ => jsonOk (JObj [("webinars", JArr [stub 1])])
  | ListWebinars upcoming _ _ _ _ => jsonOk (JObj [("webinars", JArr [stub 2; stub 3])])
  | WebinarDetail (JNum 2) => httpError 404 "Webinar does not exist"
  | PastWebinarDetail id | WebinarDetail id =>
      jsonOk (JObj [("id", id); ("topic", JStr "Quarterly review");
                    ("status", JStr "waiting")])
  | Registrants _ => jsonOk (JObj [("total_records", JNum 7)])
  | Participants _ =>
      jsonOk (JObj [("participants",
                     JArr [JObj [("duration", JNum 10)]; JObj [("duration", JNum 15)]])])
  | _ => jsonOk (JObj [])
  end.

Definition syncRequest (fields : list (string * json)) : request :=
  mkRequest "POST" (Some (JObj fields)).

(** The first [n] requests of the run are turned away with a 429 that names
    no retry-after; every later one is answered. *)
Definition throttled (n : nat) (ep : endpoint) (k : nat) : fetchResult :=
  if (k <? n)%nat then tooManyRequests None else jsonOk (JObj []).

(** A listing that hands out a continuation token with every page. *)
Definition endless (ep : endpoint) (k : nat) : fetchResult :=
  jsonOk (JObj [("webinars", JArr [stub 1]); ("next_page_token", JStr "more")]).

(** ** The specification's reading of the reconciler and the limiter *)

(** Section 4.4 of the specification, step by step. *)
Definition allowedStatuses : list string :=
  ["waiting"; "started"; "finished"; "scheduled"].

(** The start time a payload carries, if any. *)
Definition startTimeOf (P : platform) (payload : json) : option Z :=
  if truthy (prop "start_time" payload)
  then newDate P (prop "start_time" payload)
  else None.

Definition reportedStatus (payload : json) : option string :=
  match prop "status" payload with
  | JStr s => Some s
  | _ => None
  end.

Definition statusDerivation (P : platform) (now : Z) (payload : json)
    (resourceKind : webinarType) : string :=
  match resourceKind with
  | past => "finished"                                          (* step 1 *)
  | upcoming =>
      match startTimeOf P payload with
      | Some t =>
          if t <? now then "finished"                           (* step 2 *)
          else
            match reportedStatus payload with
            | Some s =>
                if existsb (String.eqb s) allowedStatuses then s  (* step 3 *)
                else "scheduled"                                (* step 4 *)
            | None => "scheduled"
            end
      | None =>
          match reportedStatus payload with
          | Some s =>
              if existsb (String.eqb s) allowedStatuses then s
              else "scheduled"
          | None => "scheduled"
          end
      end
  end.

(** The world after a successful call has been counted. *)
Definition recorded (w : world) : world :=
  let l := limiter w in
  setLimiter (mkLimiter (callsPerMinute l + 1) (callsPerSecond l + 1)
                (windowStart l) (secondWindowStart l) (retryAfter l)) w.

(** The world after a 429 has been absorbed: blocked until [now + retry-after]
    and the caller suspended for that long. *)
Definition backedOff (e : error) (w : world) : world :=
  let l := limiter w in
  match retryAfterSeconds e with
  | Some seconds =>
      setClock (clock w + Z.max 0 (seconds * 1000))
        (setLimiter (mkLimiter (callsPerMinute l) (callsPerSecond l)
                       (windowStart l) (secondWindowStart l)
                       (Some (clock w + seconds * 1000))) w)
  | None =>
      setClock (clock w + 0)
        (setLimiter (mkLimiter (callsPerMinute l) (callsPerSecond l)
                       (windowStart l) (secondWindowStart l) None) w)
  end.

Definition waited (w : world) : world := snd (waitForRateLimit w).

(** * Properties *)

(** ** The monad *)

Lemma bind_Return {A B} (m : M A) (k : A -> M B) w a w' :
  m w = (Return a, w') -> bind m k w = k a w'.
Proof. intros H; unfold bind; rewrite H; reflexivity. Qed.

Lemma bind_Throw {A B} (m : M A) (k : A -> M B) w e w' :
  m w = (Throw e, w') -> bind m k w = (Throw e, w').
Proof. intros H; unfold bind; rewrite H; reflexivity. Qed.

Lemma bind_Diverge {A B} (m : M A) (k : A -> M B) w w' :
  m w = (Diverge, w') -> bind m k w = (Diverge, w').
Proof. intros H; unfold bind; rewrite H; reflexivity. Qed.

(** Computations that always return and touch only the clock, which they
    never turn back, and the limiter. *)
Definition limiterLocal {A} (m : M A) : Prop :=
  forall w, exists a w',
    m w = (Return a, w') /\ requests w' = requests w /\ db w' = db w
    /\ clock w <= clock w'.

Lemma local_ret {A} (a : A) : limiterLocal (ret a).
Proof. intros w; exists a, w; repeat split; lia. Qed.

Lemma local_bind {A B} (m : M A) (k : A -> M B) :
  limiterLocal m -> (forall a, limiterLocal (k a)) -> limiterLocal (bind m k).
Proof.
  intros Hm Hk w.
  destruct (Hm w) as (a & w1 & E1 & R1 & D1 & C1).
  destruct (Hk a w1) as (b & w2 & E2 & R2 & D2 & C2).
  exists b, w2. unfold bind; rewrite E1, E2.
  repeat split; try congruence; lia.
Qed.

Lemma local_when b (m : M unit) : limiterLocal m -> limiterLocal (when b m).
Proof. intros H; destruct b; simpl; [exact H | apply local_ret]. Qed.

Lemma local_getLimiter : limiterLocal getLimiter.
Proof. intros w; exists (limiter w), w; repeat split; lia. Qed.

Lemma local_dateNow : limiterLocal dateNow.
Proof. intros w; exists (clock w), w; repeat split; lia. Qed.

Lemma local_putLimiter l : limiterLocal (putLimiter l).
Proof. intros w; exists tt, (setLimiter l w); repeat split; simpl; lia. Qed.

Lemma local_sleep ms : limiterLocal (sleep ms).
Proof.
  intros w; exists tt, (setClock (clock w + Z.max 0 ms) w); repeat split; simpl; lia.
Qed.

Create HintDb limiter.
#[export] Hint Resolve local_ret local_when local_getLimiter local_dateNow
  local_putLimiter local_sleep : limiter.

Ltac local_step :=
  repeat first
    [ apply local_bind; [ | intro ]
    | apply local_when
    | solve [ auto with limiter ] ].

Lemma local_waitForRateLimit : limiterLocal waitForRateLimit.
Proof.
  unfold waitForRateLimit.
  apply local_bind; [auto with limiter | intros this].
  apply local_bind; [auto with limiter | intros now0].
  destruct (match retryAfter this with Some r => r >? now0 | None => false end).
  - auto with limiter.
  - local_step.
Qed.

Lemma local_recordCall : limiterLocal recordCall.
Proof. unfold recordCall; local_step. Qed.

Lemma local_setRetryAfter r : limiterLocal (setRetryAfter r).
Proof. unfold setRetryAfter; local_step. Qed.

(** The rate limiter's wait always returns, and touches only the clock and
    the limiter. *)
Lemma waitForRateLimit_returns w :
  waitForRateLimit w = (Return tt, waited w).
Proof.
  unfold waited.
  destruct (local_waitForRateLimit w) as ([] & w' & E & _); rewrite E; reflexivity.
Qed.

Lemma waited_frame w :
  requests (waited w) = requests w /\ db (waited w) = db w /\ clock w <= clock (waited w).
Proof.
  unfold waited.
  destruct (local_waitForRateLimit w) as ([] & w' & E & R & D & C); rewrite E; auto.
Qed.

Lemma recordCall_recorded w : recordCall w = (Return tt, recorded w).
Proof. reflexivity. Qed.

(** ** Status derivation *)

Lemma includes_allowed (s : string) :
  includes validStatuses (JStr s) = existsb (String.eqb s) allowedStatuses.
Proof.
  unfold includes, validStatuses, allowedStatuses, strictEqStr; simpl.
  rewrite !(String.eqb_sym s); reflexivity.
Qed.

Lemma allowed_truthy (s : string) :
  existsb (String.eqb s) allowedStatuses = true -> truthy (JStr s) = true.
Proof.
  destruct s; simpl; [discriminate | reflexivity].
Qed.

(** C1.  The status computed by [determineWebinarStatus] is the one the four
    ordered steps of the specification give: a past resource is finished
    whatever the payload says; otherwise a start time strictly before the
    current instant gives finished; otherwise a reported status among
    waiting, started, finished and scheduled is passed through unchanged;
    otherwise the status is scheduled. *)
Theorem determineWebinarStatus_follows_steps :
  forall (P : platform) (now : Z) (payload : json) (resourceKind : webinarType),
    determineWebinarStatus P now payload resourceKind
    = statusDerivation P now payload resourceKind.
Proof.
  intros P now payload [|]; [reflexivity|].
  unfold determineWebinarStatus, statusDerivation, startTimeOf, reportedStatus.
  assert (Hstatus :
    (if (if truthy (prop "status" payload)
         then includes validStatuses (prop "status" payload) else false)
     then jsonString (prop "status" payload) else "scheduled")
    = match match prop "status" payload with JStr s => Some s | _ => None end with
      | Some s => if existsb (String.eqb s) allowedStatuses then s else "scheduled"
      | None => "scheduled"
      end).
  { destruct (prop "status" payload) as [| |b|n|s|l|l];
      try (replace (includes validStatuses _) with false by reflexivity;
           match goal with |- context [truthy ?v] => destruct (truthy v) end;
           reflexivity).
    rewrite includes_allowed. cbn [jsonString].
    destruct (existsb (String.eqb s) allowedStatuses) eqn:E.
    - rewrite (allowed_truthy _ E). reflexivity.
    - destruct (truthy (JStr s)); reflexivity. }
  destruct (truthy (prop "start_time" payload)).
  - destruct (newDate P (prop "start_time" payload)) as [t|].
    + destruct (t <? now); [reflexivity | exact Hstatus].
    + exact Hstatus.
  - exact Hstatus.
Qed.

(** ** Rate limiter *)

Lemma executeWithRateLimit_step {T} (fuel : nat) (fn : M T) (w : world) :
  executeWithRateLimit (S fuel) fn w =
  match fn (waited w) with
  | (Return v, w2) => (Return v, recorded w2)
  | (Throw e, w2) =>
      if is429 e then executeWithRateLimit fuel fn (backedOff e w2)
      else (Throw e, w2)
  | (Diverge, w2) => (Diverge, w2)
  end.
Proof.
  cbn [executeWithRateLimit].
  rewrite (bind_Return _ _ _ _ _ (waitForRateLimit_returns w)).
  unfold tryCatch at 1. unfold bind at 1.
  destruct (fn (waited w)) as [[v|e|] w2]; try reflexivity.
  destruct (is429 e); [|reflexivity].
  unfold backedOff, bind, dateNow, setRetryAfter, getLimiter, putLimiter, sleep, modify.
  destruct (retryAfterSeconds e); reflexivity.
Qed.

Lemma fetch_unfold (P : platform) (ep : endpoint) (w : world) :
  fetch P ep w =
  match server P ep (List.length (requests w)) with
  | Fulfilled took r =>
      (Return r, setClock (clock w + Z.max 0 took) (setRequests (ep :: requests w) w))
  | Rejected took e =>
      (Throw e, setClock (clock w + Z.max 0 took) (setRequests (ep :: requests w) w))
  end.
Proof. reflexivity. Qed.

Lemma backedOff_frame (e : error) (w : world) :
  requests (backedOff e w) = requests w /\ db (backedOff e w) = db w.
Proof. unfold backedOff; destruct (retryAfterSeconds e); split; reflexivity. Qed.

Lemma backedOff_default_clock (msg : string) (code : option Z) (w : world) :
  clock (backedOff (mkError msg code None) w) = clock w + 60000.
Proof. reflexivity. Qed.

Lemma throttled_retries (n : nat) :
  forall (k : nat) (w : world),
    List.length (requests w) = k ->
    exists r w',
      executeWithRateLimit (S n) (fetch (platformOf (throttled (k + n))) UsersMe) w
      = (Return r, w')
      /\ List.length (requests w') = S (k + n)
      /\ clock w + Z.of_nat n * 60000 <= clock w'.
Proof.
  induction n as [|n IH]; intros k w Hk.
  - rewrite executeWithRateLimit_step, fetch_unfold.
    destruct (waited_frame w) as (R & _ & C).
    rewrite R, Hk. cbn [server platformOf]. unfold throttled at 1.
    replace (k <? k + 0)%nat with false by (symmetry; apply Nat.ltb_ge; lia).
    unfold jsonOk. eexists _, _. split; [reflexivity|].
    split; simpl; rewrite ?R, ?Hk; lia.
  - rewrite executeWithRateLimit_step, fetch_unfold.
    destruct (waited_frame w) as (R & _ & C).
    rewrite R, Hk. cbn [server platformOf]. unfold throttled at 1.
    replace (k <? k + S n)%nat with true by (symmetry; apply Nat.ltb_lt; lia).
    unfold tooManyRequests. cbn [is429 status Z.eqb Pos.eqb].
    replace (k + S n)%nat with (S k + n)%nat by lia.
    match goal with
    | |- context [executeWithRateLimit (S n) _ ?w1] =>
        destruct (IH (S k) w1) as (r & w' & E & L & Cl)
    end.
    { rewrite (proj1 (backedOff_frame _ _)). simpl. rewrite Hk. reflexivity. }
    exists r, w'. split; [exact E|]. split; [exact L|].
    rewrite backedOff_default_clock in Cl. cbn [clock setClock] in Cl. lia.
Qed.



(** ** Pagination *)

Lemma fetchWebinarsLoop_ceiling (P : platform) :
  forall (fuel : nat) (acc : list json) (token : json) (pageCount : Z) (w : world),
    0 <= pageCount < ZoomWebinarSyncService.maxPages ->
    ZoomWebinarSyncService.maxPages - pageCount <= Z.of_nat fuel ->
    exists o w',
      ZoomWebinarSyncService.fetchWebinarsLoop P fuel acc token pageCount w = (o, w')
      /\ o <> Diverge
      /\ Z.of_nat (List.length (requests w'))
         <= Z.of_nat (List.length (requests w)) + (ZoomWebinarSyncService.maxPages - pageCount).
Proof.
  unfold ZoomWebinarSyncService.maxPages.
  induction fuel as [|fuel IH]; intros acc token pageCount w Hpc Hfuel.
  - lia.
  - cbn [ZoomWebinarSyncService.fetchWebinarsLoop]. unfold bind at 1. rewrite fetch_unfold.
    destruct (server P _ _) as [took r | took e].
    2:{ eexists _, _. split; [reflexivity|].
        cbn [requests setClock setRequests List.length].
        split; [discriminate | lia]. }
    destruct (ok r); cbn [negb].
    2:{ eexists _, _. split; [reflexivity|].
        cbn [requests setClock setRequests List.length].
        split; [discriminate | lia]. }
    unfold bind at 1, responseJson.
    destruct (body r) as [data|].
    2:{ eexists _, _. split; [reflexivity|].
        cbn [requests setClock setRequests List.length].
        split; [discriminate | lia]. }
    unfold ret at 1. unfold bind at 1, requireObject.
    destruct (nullish data).
    { eexists _, _. split; [reflexivity|].
      cbn [requests setClock setRequests List.length].
      split; [discriminate | lia]. }
    unfold ret at 1.
    destruct (truthy (orj (prop "next_page_token" data) (JStr ""))
              && (pageCount + 1 <? ZoomWebinarSyncService.maxPages)) eqn:Hgo.
    + apply andb_true_iff in Hgo. destruct Hgo as [_ Hlt].
      apply Z.ltb_lt in Hlt. unfold ZoomWebinarSyncService.maxPages in Hlt.
      match goal with
      | |- context [ZoomWebinarSyncService.fetchWebinarsLoop P fuel ?a ?t ?pc ?w1] =>
          destruct (IH a t pc w1) as (o & w' & E & Hd & Hn); [lia | lia |]
      end.
      exists o, w'. split; [exact E|]. split; [exact Hd|].
      etransitivity; [exact Hn|].
      cbn [requests setClock setRequests List.length]. lia.
    + eexists _, _. split; [reflexivity|].
      cbn [requests setClock setRequests List.length].
      split; [discriminate | lia].
Qed.

Lemma fetchWebinarList_endless (type : webinarType) (from to : option Z)
    (token : json) (w : world) :
  fetchWebinarList (platformOf endless) type from to 100 token w
  = (Return (JArr [stub 1], JStr "more"),
     setClock (clock w + 0)
       (setRequests
          (ListWebinars type from to 100 (if truthy token then Some token else None)
             :: requests w) w)).
Proof. reflexivity. Qed.

Lemma listPages_endless (retries : nat) (type : webinarType) (from to : option Z)
    (syncId : json) (pct : Q) (start : nat) :
  forall (fuel : nat) (token : json) (pageCount : Z) (acc : list WebinarQueueItem)
         (w : world),
    exists w',
      listPages (platformOf endless) (S retries) fuel type from to syncId pct start
        token pageCount acc w = (Diverge, w')
      /\ List.length (requests w') = (List.length (requests w) + fuel)%nat.
Proof.
  induction fuel as [|fuel IH]; intros token pageCount acc w.
  - exists w. split; [reflexivity | lia].
  - cbn [listPages]. unfold bind at 1.
    rewrite executeWithRateLimit_step, fetchWebinarList_endless.
    cbn [stubsOf stub nullish]. unfold bind at 1. cbn [bind ret stubsOf].
    unfold bind at 1. unfold broadcastProgress at 1, modifyDb at 1, modify at 1.
    cbn [truthy negb String.eqb Ascii.eqb Bool.eqb].
    match goal with
    | |- context [listPages _ _ fuel _ _ _ _ _ _ ?t ?pc ?a ?w1] =>
        destruct (IH t pc a w1) as (w' & E & Hn)
    end.
    exists w'. split; [exact E|].
    rewrite Hn. cbn [requests setDb setClock setRequests recorded setLimiter List.length].
    rewrite (proj1 (waited_frame w)). lia.
Qed.

(** C8, as amended.  The older implementation's [ZoomWebinarSyncService.fetchWebinars] stops polling
    once 10 pages have been fetched: whatever the endpoint answers it
    terminates after at most 10 list calls, and against an endpoint that
    returns a token with every page it makes exactly 10.  The two listing
    loops of the queue based implementation carry no such ceiling. *)
Theorem fetchWebinars_stops_at_page_ceiling :
  (forall (P : platform) (extra : nat) (w : world),
      exists o w',
        ZoomWebinarSyncService.fetchWebinars P (10 + extra) w = (o, w')
        /\ o <> Diverge
        /\ (List.length (requests w') <= List.length (requests w) + 10)%nat)
  /\ (exists l w',
        ZoomWebinarSyncService.fetchWebinars (platformOf endless) 10 (startWorld emptyDb) = (Return l, w')
        /\ List.length (requests w') = 10%nat
        /\ List.length l = 10%nat)
  /\ (forall (fuel : nat),
        exists w',
          listPages (platformOf endless) (S fuel) fuel past (Some 0) None (JNum 1) 5%Q 0
            JUndef 0 [] (startWorld emptyDb) = (Diverge, w')
          /\ List.length (requests w') = fuel).
Proof.
  split; [|split].
  - intros P extra w. unfold ZoomWebinarSyncService.fetchWebinars.
    destruct (fetchWebinarsLoop_ceiling P (10 + extra) [] (JStr "") 0 w)
      as (o & w' & E & Hd & Hn); [unfold ZoomWebinarSyncService.maxPages; lia | unfold ZoomWebinarSyncService.maxPages; lia |].
    exists o, w'. split; [exact E|]. split; [exact Hd|].
    unfold ZoomWebinarSyncService.maxPages in Hn. lia.
  - eexists _, _. split; [vm_compute; reflexivity|]. split; reflexivity.
  - intros fuel.
    destruct (listPages_endless fuel past (Some 0) None (JNum 1) 5%Q 0%nat fuel JUndef 0 []
                (startWorld emptyDb)) as (w' & E & Hn).
    exists w'. split; [exact E|]. rewrite Hn. reflexivity.
Qed.

(** Against an endpoint that returns a token with every page, the listing of
    the queue based sync is still polling after any number of calls: after
    [n + 1] of them for every [n], and so after 11. *)
Lemma enumerateWebinars_has_no_page_ceiling :
  (forall (n : nat),
      exists w',
        enumerateWebinars (platformOf endless) (S n) (JNum 1) 0 0 (startWorld emptyDb)
        = (Diverge, w')
        /\ List.length (requests w') = S n)
  /\ (exists w',
        enumerateWebinars (platformOf endless) 11 (JNum 1) 0 0 (startWorld emptyDb)
        = (Diverge, w')
        /\ List.length (requests w') = 11%nat).
Proof.
  assert (H : forall n : nat,
      exists w',
        enumerateWebinars (platformOf endless) (S n) (JNum 1) 0 0 (startWorld emptyDb)
        = (Diverge, w')
        /\ List.length (requests w') = S n).
  { intros n. unfold enumerateWebinars.
    unfold bind at 1. unfold broadcastProgress at 1, modifyDb at 1, modify at 1.
    match goal with
    | |- context [listPages _ _ _ _ ?f ?t ?s ?p ?st ?tok ?pc ?a] =>
        match goal with
        | |- context [bind _ _ ?w1] =>
            destruct (listPages_endless n past f t s p st (S n) tok pc a w1)
              as (w' & E & Hn)
        end
    end.
    exists w'. split; [|rewrite Hn; reflexivity].
    unfold bind. rewrite E. reflexivity. }
  split; [exact H | exact (H 10%nat)].
Qed.

(** ** Work queue *)

Lemma queueOrder_same_priority (a b : row) (p : Z) :
  col "priority" a = JNum p -> col "priority" b = JNum p ->
  queueOrder a b = (numOf (col "scheduled_at" a) <=? numOf (col "scheduled_at" b)).
Proof.
  intros Ha Hb. unfold queueOrder. rewrite Ha, Hb. cbn [numOf].
  rewrite Z.gtb_ltb, Z.ltb_irrefl, Z.eqb_refl. reflexivity.
Qed.

Lemma queued_row_fields (syncId : json) (now : Z) (allWebinars : list WebinarQueueItem) :
  forall (firstId : Z),
    Forall (fun r => col "priority" r = JNum 5 /\ col "scheduled_at" r = JNum now
                     /\ col "processing_status" r = JStr "pending"
                     /\ col "retry_count" r = JNum 0)
           (insertQueueRows (queueItems syncId now allWebinars) firstId).
Proof.
  induction allWebinars as [|w rest IH]; intros firstId.
  - constructor.
  - cbn [queueItems map insertQueueRows]. constructor.
    + destruct syncId, (webinar_id w); repeat split; reflexivity.
    + apply IH.
Qed.

(** Section 8, property 4: priorities 3, 5, 5, 1 scheduled at [t0, t2, t1, t3]
    drain as [5@t1, 5@t2, 3@t0, 1@t3]. *)
Example drain_ordering :
  let item i p t : row :=
    [("id", JNum i); ("sync_id", JNum 1); ("processing_status", JStr "pending");
     ("priority", JNum p); ("scheduled_at", JNum t)] in
  map (col "id")
      (selectPending (JNum 1) [item 1 3 100; item 2 5 102; item 3 5 101; item 4 1 103])
  = [JNum 3; JNum 2; JNum 1; JNum 4].
Proof. reflexivity. Qed.

(** C10.  Every work item that the enumeration phase inserts carries priority
    5 and the instant of the insertion as its [scheduled_at]; so, among the
    items of one run, the priority-then-schedule order of the drain is decided
    by [scheduled_at] alone. *)
Theorem queued_items_share_priority :
  forall (P : platform) (syncId connectionId : json)
         (allWebinars : list WebinarQueueItem) (w : world),
    let inserted :=
      insertQueueRows (queueItems syncId (clock w) allWebinars) (next_id (db w)) in
    Forall (fun r => col "priority" r = JNum 5 /\ col "scheduled_at" r = JNum (clock w))
           inserted
    /\ Forall (fun a =>
         Forall (fun b =>
           queueOrder a b
           = (numOf (col "scheduled_at" a) <=? numOf (col "scheduled_at" b))) inserted)
         inserted
    /\ (webinar_sync_queue (db (snd (queueWebinars P syncId connectionId allWebinars w)))
        = (webinar_sync_queue (db w) ++ inserted)%list
        \/ webinar_sync_queue (db (snd (queueWebinars P syncId connectionId allWebinars w)))
           = webinar_sync_queue (db w)).
Proof.
  intros P syncId connectionId allWebinars w inserted.
  assert (HF := queued_row_fields syncId (clock w) allWebinars (next_id (db w))).
  fold inserted in HF.
  split; [|split].
  - eapply Forall_impl; [|exact HF]. intros r (Hp & Hs & _). auto.
  - rewrite Forall_forall in HF. apply Forall_forall. intros a Ha.
    apply Forall_forall. intros b Hb.
    apply (queueOrder_same_priority a b 5).
    + apply (HF a Ha).
    + apply (HF b Hb).
  - unfold queueWebinars, bind, broadcastProgress, modifyDb, modify, dateNow, throw, ret.
    cbn [clock setDb].
    destruct (Z.of_nat (List.length allWebinars) >? 0); [|right; reflexivity].
    match goal with
    | |- context [storeFault P ?t ?rows] => destruct (storeFault P t rows)
    end; [right | left]; reflexivity.
Qed.

(** ** The store *)

Fixpoint json_eqb_refl (v : json) : json_eqb v v = true.
Proof.
  destruct v as [| |b|n|s|items|fields]; cbn [json_eqb].
  - reflexivity.
  - reflexivity.
  - destruct b; reflexivity.
  - apply Z.eqb_refl.
  - apply String.eqb_refl.
  - induction items as [|x rest IH]; [reflexivity|].
    rewrite (json_eqb_refl x). exact IH.
  - induction fields as [|[k x] rest IH]; [reflexivity|].
    rewrite String.eqb_refl, (json_eqb_refl x). exact IH.
Qed.

Lemma sqlEq_refl (v : json) : nullish v = false -> sqlEq v v = true.
Proof. intros H. unfold sqlEq. rewrite H, json_eqb_refl. reflexivity. Qed.

Lemma col_setField_same (k : string) (v : json) (r : row) :
  col k (setField k v r) = v.
Proof.
  unfold col. induction r as [|[k' v'] rest IH]; cbn [setField assoc].
  - rewrite String.eqb_refl. reflexivity.
  - destruct (k =? k')%string eqn:E; cbn [assoc].
    + rewrite String.eqb_refl. reflexivity.
    + rewrite E. exact IH.
Qed.

Lemma col_setField_other (k k' : string) (v : json) (r : row) :
  k <> k' -> col k (setField k' v r) = col k r.
Proof.
  intros Hne. unfold col. induction r as [|[k0 v0] rest IH]; cbn [setField assoc].
  - destruct (String.eqb_spec k k'); [contradiction | reflexivity].
  - destruct (String.eqb_spec k' k0) as [->|Hk0]; cbn [assoc].
    + destruct (String.eqb_spec k k0); [contradiction | reflexivity].
    + destruct (k =? k0)%string; [reflexivity | exact IH].
Qed.

Lemma col_applyPatch_notin (k : string) (patch : row) :
  forall r : row, ~ In k (map fst patch) -> col k (applyPatch patch r) = col k r.
Proof.
  unfold applyPatch. induction patch as [|[k' v'] rest IH]; intros r Hnot; [reflexivity|].
  cbn [fold_left fst snd]. rewrite IH.
  - apply col_setField_other. intros ->. apply Hnot. left. reflexivity.
  - intros Hin. apply Hnot. right. exact Hin.
Qed.

Lemma col_applyPatch_in (k : string) (v : json) (patch : row) :
  forall r : row,
    NoDup (map fst patch) -> In (k, v) patch -> col k (applyPatch patch r) = v.
Proof.
  unfold applyPatch. induction patch as [|[k' v'] rest IH]; intros r Hnd Hin; [destruct Hin|].
  cbn [map fst] in Hnd. inversion Hnd as [|? ? Hnotin Hnd']; subst.
  cbn [fold_left fst snd]. destruct Hin as [Heq|Hin].
  - inversion Heq; subst.
    fold (applyPatch rest (setField k v r)).
    rewrite col_applyPatch_notin by exact Hnotin.
    apply col_setField_same.
  - apply IH; assumption.
Qed.

Lemma col_In (k : string) (v : json) (r : row) :
  NoDup (map fst r) -> In (k, v) r -> col k r = v.
Proof.
  unfold col. induction r as [|[k' v'] rest IH]; intros Hnd Hin; [destruct Hin|].
  cbn [map fst] in Hnd. inversion Hnd as [|? ? Hnotin Hnd']; subst.
  cbn [assoc]. destruct Hin as [Heq|Hin].
  - inversion Heq; subst. rewrite String.eqb_refl. reflexivity.
  - destruct (String.eqb_spec k k') as [->|_].
    + exfalso. apply Hnotin. apply (in_map fst) in Hin. exact Hin.
    + apply IH; assumption.
Qed.

(** A write [r] whose conflict columns are set hits every row it has been
    applied to. *)
Definition keyed (keys : list string) (r : row) : Prop :=
  NoDup (map fst r)
  /\ Forall (fun k => exists v, In (k, v) r /\ nullish v = false) keys.

Lemma conflicts_self (keys : list string) (r : row) :
  keyed keys r -> conflicts keys r r = true.
Proof.
  intros [Hnd Hk]. unfold conflicts. apply forallb_forall. intros k Hin.
  rewrite Forall_forall in Hk. destruct (Hk k Hin) as (v & Hv & Hn).
  rewrite (col_In k v r Hnd Hv). apply sqlEq_refl. exact Hn.
Qed.

Lemma conflicts_patched (keys : list string) (r r' : row) :
  keyed keys r -> conflicts keys r (applyPatch r r') = true.
Proof.
  intros [Hnd Hk]. unfold conflicts. apply forallb_forall. intros k Hin.
  rewrite Forall_forall in Hk. destruct (Hk k Hin) as (v & Hv & Hn).
  rewrite (col_applyPatch_in k v r r' Hnd Hv), (col_In k v r Hnd Hv).
  apply sqlEq_refl. exact Hn.
Qed.

Definition hits (keys : list string) (r : row) (rows : list row) : nat :=
  List.length (filter (conflicts keys r) rows).

Lemma upsertRow_hits (keys : list string) (r : row) :
  keyed keys r ->
  forall rows : list row,
    hits keys r (upsertRow keys r rows) = Nat.max 1 (hits keys r rows)
    /\ List.length (upsertRow keys r rows)
       = (List.length rows + (1 - hits keys r rows))%nat.
Proof.
  intros Hk. unfold hits.
  induction rows as [|r' rest [IHh IHl]]; cbn [upsertRow filter List.length].
  - rewrite (conflicts_self keys r Hk). split; reflexivity.
  - destruct (conflicts keys r r') eqn:E; cbn [filter List.length].
    + rewrite (conflicts_patched keys r r' Hk). cbn [List.length]. split; lia.
    + rewrite E. rewrite IHh, IHl. split; lia.
Qed.

Lemma upsertRow_overwrites (keys : list string) (r : row) :
  keyed keys r ->
  forall rows : list row,
    (hits keys r rows <= 1)%nat ->
    Forall (fun row =>
              conflicts keys r row = true ->
              forall k v, In (k, v) r -> col k row = v)
           (upsertRow keys r rows).
Proof.
  intros Hk. unfold hits.
  induction rows as [|r' rest IH]; intros Hle; cbn [upsertRow].
  - constructor; [|constructor]. intros _ k v Hin. apply col_In; [apply Hk | exact Hin].
  - cbn [filter] in Hle. destruct (conflicts keys r r') eqn:E.
    + cbn [List.length] in Hle. constructor.
      * intros _ k v Hin. apply col_applyPatch_in; [apply Hk | exact Hin].
      * apply Forall_forall. intros row Hin Hhit. exfalso.
        assert (In row (filter (conflicts keys r) rest))
          by (apply filter_In; split; assumption).
        destruct (filter (conflicts keys r) rest); [contradiction | simpl in Hle; lia].
    + constructor.
      * intros Hhit. congruence.
      * apply IH. exact Hle.
Qed.

Lemma conflicts_same_key (keys : list string) (r1 r2 row : row) :
  Forall (fun k => col k r1 = col k r2) keys ->
  conflicts keys r1 row = conflicts keys r2 row.
Proof.
  intros H. unfold conflicts.
  induction H as [|k rest Hk _ IH]; cbn [forallb]; [reflexivity|].
  rewrite Hk, IH. reflexivity.
Qed.

Fixpoint distinct (l : list string) : bool :=
  match l with
  | [] => true
  | k :: rest => negb (existsb (String.eqb k) rest) && distinct rest
  end.

Lemma distinct_NoDup (l : list string) : distinct l = true -> NoDup l.
Proof.
  induction l as [|k rest IH]; intros H; [constructor|].
  cbn [distinct] in H. apply andb_true_iff in H. destruct H as [Hk Hrest].
  constructor; [|apply IH; exact Hrest].
  intros Hin. apply negb_true_iff in Hk.
  assert (existsb (String.eqb k) rest = true).
  { apply existsb_exists. exists k. split; [exact Hin | apply String.eqb_refl]. }
  congruence.
Qed.

Lemma serialize_In (k : string) (v : json) (r : row) :
  In (k, v) r -> v <> JUndef -> In (k, v) (serialize r).
Proof.
  intros Hin Hv. unfold serialize. apply filter_In. split; [exact Hin|].
  destruct v; try reflexivity. contradiction.
Qed.

Lemma In_serialize (k : string) (v : json) (r : row) :
  In (k, v) (serialize r) -> In (k, v) r.
Proof. unfold serialize. intros H. apply filter_In in H. apply H. Qed.

Lemma serialize_NoDup (r : row) : NoDup (map fst r) -> NoDup (map fst (serialize r)).
Proof.
  unfold serialize. induction r as [|[k v] rest IH]; intros H; [constructor|].
  cbn [map fst] in H. inversion H as [|? ? Hnotin Hnd]; subst.
  cbn [filter snd]. destruct v; cbn [map fst]; try (apply IH; exact Hnd);
    (constructor; [|apply IH; exact Hnd]);
    intros Hin; apply Hnotin; apply in_map_iff in Hin;
    destruct Hin as ([k' v'] & Hk & Hin); cbn [fst] in Hk; subst k';
    apply filter_In in Hin; destruct Hin as [Hin _];
    apply (in_map fst) in Hin; exact Hin.
Qed.

Lemma nullish_not_undef (v : json) : nullish v = false -> v <> JUndef.
Proof. intros H ->. discriminate. Qed.

Lemma truthy_not_nullish (v : json) : truthy v = true -> nullish v = false.
Proof. destruct v; simpl; intros H; try reflexivity; discriminate. Qed.

(** The record [processWebinar] writes: its columns are distinct, and its
    conflict columns are the payload's [id || uuid] and the connection. *)
Lemma buildWebinarData_row (P : platform) (now : Z) (connectionId : json)
    (type : webinarType) (payload : json) (aux : row) (status : string)
    (r : row) (w w' : world) :
  buildWebinarData P now connectionId type payload aux status w = (Return r, w') ->
  NoDup (map fst r)
  /\ In ("webinar_id", orj (prop "id" payload) (prop "uuid" payload)) r
  /\ In ("connection_id", connectionId) r.
Proof.
  unfold buildWebinarData, bind, ret, throw. intros H.
  destruct (truthy (prop "created_at" payload));
    [destruct (newDate P (prop "created_at" payload)); [|discriminate]|];
    (destruct (truthy (prop "alternative_hosts_email" payload));
     [destruct (prop "alternative_hosts_email" payload); try discriminate|]);
    inversion H; subst; clear H;
    (split; [apply distinct_NoDup; vm_compute; reflexivity|]);
    (split; [left; reflexivity | right; right; left; reflexivity]).
Qed.

Lemma webinarData_keyed (P : platform) (now : Z) (connectionId : json)
    (type : webinarType) (payload : json) (aux : row) (status : string)
    (r : row) (w w' : world) :
  buildWebinarData P now connectionId type payload aux status w = (Return r, w') ->
  truthy (orj (prop "id" payload) (prop "uuid" payload)) = true ->
  nullish connectionId = false ->
  keyed webinarConflictTarget (serialize r)
  /\ col "webinar_id" (serialize r) = orj (prop "id" payload) (prop "uuid" payload)
  /\ col "connection_id" (serialize r) = connectionId.
Proof.
  intros H Hid Hconn.
  destruct (buildWebinarData_row _ _ _ _ _ _ _ _ _ _ H) as (Hnd & Hin1 & Hin2).
  apply truthy_not_nullish in Hid.
  assert (Hnd' := serialize_NoDup r Hnd).
  assert (Hs1 := serialize_In _ _ _ Hin1 (nullish_not_undef _ Hid)).
  assert (Hs2 := serialize_In _ _ _ Hin2 (nullish_not_undef _ Hconn)).
  split; [|split].
  - split; [exact Hnd'|].
    repeat constructor; eexists; split; eassumption.
  - apply col_In; assumption.
  - apply col_In; assumption.
Qed.

Lemma upsertWebinar_table (P : platform) (r : row) (w : world) :
  storeFault P "zoom_webinars" [serialize r] = None ->
  zoom_webinars (db (snd (upsertWebinar P r w)))
  = upsertRow webinarConflictTarget (serialize r) (zoom_webinars (db w)).
Proof. intros H. unfold upsertWebinar. rewrite H. reflexivity. Qed.

(** C6.  Reconciling one raw payload twice for one connection, and upserting
    both records, leaves exactly one stored record for the pair
    (webinar_id, connection_id): the second write adds no row and every column
    it carries overwrites what the first had stored. *)
Theorem upsert_twice_keeps_one_record :
  forall (P : platform) (now1 now2 : Z) (connectionId : json) (type : webinarType)
         (payload : json) (aux1 aux2 : row) (status1 status2 : string)
         (first second : row) (w1 w1' w2 w2' w : world),
    buildWebinarData P now1 connectionId type payload aux1 status1 w1 = (Return first, w1') ->
    buildWebinarData P now2 connectionId type payload aux2 status2 w2 = (Return second, w2') ->
    truthy (orj (prop "id" payload) (prop "uuid" payload)) = true ->
    nullish connectionId = false ->
    storeFault P "zoom_webinars" [serialize first] = None ->
    storeFault P "zoom_webinars" [serialize second] = None ->
    (hits webinarConflictTarget (serialize first) (zoom_webinars (db w)) <= 1)%nat ->
    let once := snd (upsertWebinar P first w) in
    let twice := snd (upsertWebinar P second once) in
    hits webinarConflictTarget (serialize second) (zoom_webinars (db twice)) = 1%nat
    /\ List.length (zoom_webinars (db twice)) = List.length (zoom_webinars (db once))
    /\ Forall (fun stored =>
                 conflicts webinarConflictTarget (serialize second) stored = true ->
                 forall k v, In (k, v) (serialize second) -> col k stored = v)
              (zoom_webinars (db twice)).
Proof.
  intros P now1 now2 connectionId type payload aux1 aux2 status1 status2 first second
         w1 w1' w2 w2' w H1 H2 Hid Hconn Hf1 Hf2 Huniq once twice.
  destruct (webinarData_keyed _ _ _ _ _ _ _ _ _ _ H1 Hid Hconn) as (K1 & A1 & B1).
  destruct (webinarData_keyed _ _ _ _ _ _ _ _ _ _ H2 Hid Hconn) as (K2 & A2 & B2).
  assert (Hsame : forall rows,
             hits webinarConflictTarget (serialize second) rows
             = hits webinarConflictTarget (serialize first) rows).
  { intros rows. unfold hits. f_equal. apply filter_ext. intros stored.
    apply conflicts_same_key. unfold webinarConflictTarget.
    repeat constructor; congruence. }
  subst twice once.
  rewrite (upsertWebinar_table P second _ Hf2), (upsertWebinar_table P first _ Hf1).
  set (table := zoom_webinars (db w)) in *.
  destruct (upsertRow_hits _ _ K1 table) as [Hh1 Hl1].
  destruct (upsertRow_hits _ _ K2 (upsertRow webinarConflictTarget (serialize first) table))
    as [Hh2 Hl2].
  rewrite (Hsame (upsertRow webinarConflictTarget (serialize first) table)) in Hh2, Hl2.
  rewrite Hh1 in Hh2, Hl2.
  split; [lia|]. split; [lia|].
  apply upsertRow_overwrites; [exact K2|].
  rewrite Hsame, Hh1. lia.
Qed.

Definition samplePayload : json :=
  JObj [("id", JNum 42); ("topic", JStr "Launch"); ("status", JStr "waiting")].

Definition storedWorld : world :=
  startWorld (mkDb [sampleConnection] [] [] []
                [[("webinar_id", JNum 7); ("connection_id", JStr "conn-1")]] [] 1).

Definition recordAt (now : Z) (registrants : Z) : row :=
  match fst (buildWebinarData (platformOf threeWebinars) now (JStr "conn-1") upcoming
               samplePayload [("registrantCount", JNum registrants)] "waiting"
               storedWorld) with
  | Return r => r
  | _ => []
  end.

Lemma upsert_twice_keeps_one_record_witness :
  let P := platformOf threeWebinars in
  let once := snd (upsertWebinar P (recordAt 100 3) storedWorld) in
  let twice := snd (upsertWebinar P (recordAt 200 8) once) in
  hits webinarConflictTarget (serialize (recordAt 200 8)) (zoom_webinars (db twice)) = 1%nat
  /\ List.length (zoom_webinars (db twice)) = List.length (zoom_webinars (db once))
  /\ Forall (fun stored =>
               conflicts webinarConflictTarget (serialize (recordAt 200 8)) stored = true ->
               forall k v, In (k, v) (serialize (recordAt 200 8)) -> col k stored = v)
            (zoom_webinars (db twice)).
Proof.
  apply (upsert_twice_keeps_one_record (platformOf threeWebinars) 100 200 (JStr "conn-1")
           upcoming samplePayload [("registrantCount", JNum 3)] [("registrantCount", JNum 8)]
           "waiting" "waiting" (recordAt 100 3) (recordAt 200 8)
           storedWorld storedWorld storedWorld storedWorld storedWorld);
    try reflexivity.
  vm_compute. repeat constructor.
Defined.

(** ** Settling: computations that end, and not with a 429 *)

(** No request is ever turned away with an error whose [status] is 429. *)
Definition quiet (P : platform) : Prop :=
  forall ep n took e, server P ep n = Rejected took e -> is429 e = false.

Definition settlesAt {A} (m : M A) (w : world) : Prop :=
  match fst (m w) with
  | Return _ => True
  | Throw e => is429 e = false
  | Diverge => False
  end.

Definition settles {A} (m : M A) : Prop := forall w, settlesAt m w.

(** Computations that never throw; they may still be running. *)
Definition neverThrows {A} (m : M A) : Prop :=
  forall w, match fst (m w) with Throw _ => False | _ => True end.

(** Computations that always return. *)
Definition returns {A} (m : M A) : Prop :=
  forall w, exists a w', m w = (Return a, w').

Lemma returns_settles {A} (m : M A) : returns m -> settles m.
Proof. intros H w. destruct (H w) as (a & w' & E). unfold settlesAt. rewrite E. exact I. Qed.

Lemma settlesAt_bind {A B} (m : M A) (k : A -> M B) (w : world) :
  settlesAt m w ->
  (forall a w', m w = (Return a, w') -> settlesAt (k a) w') ->
  settlesAt (bind m k) w.
Proof.
  unfold settlesAt, bind. intros Hm Hk.
  destruct (m w) as [[a|e|] w'] eqn:E; cbn [fst] in *;
    [apply (Hk a w' eq_refl) | exact Hm | exact Hm].
Qed.

Lemma settles_bind {A B} (m : M A) (k : A -> M B) :
  settles m -> (forall a, settles (k a)) -> settles (bind m k).
Proof. intros Hm Hk w. apply settlesAt_bind; [apply Hm | intros; apply Hk]. Qed.

Lemma settlesAt_tryCatch {A} (m : M A) (h : error -> M A) (w : world) :
  settlesAt m w ->
  (forall e w', m w = (Throw e, w') -> is429 e = false -> settlesAt (h e) w') ->
  settlesAt (tryCatch m h) w.
Proof.
  unfold settlesAt, tryCatch. intros Hm Hh.
  destruct (m w) as [[a|e|] w'] eqn:E; cbn [fst] in *;
    [exact I | apply (Hh e w' eq_refl Hm) | exact Hm].
Qed.

Lemma settles_tryCatch {A} (m : M A) (h : error -> M A) :
  settles m -> (forall e, is429 e = false -> settles (h e)) -> settles (tryCatch m h).
Proof.
  intros Hm Hh w. apply settlesAt_tryCatch; [apply Hm | intros e w' _ He; apply Hh, He].
Qed.

Lemma returns_tryCatch {A} (m : M A) (h : error -> M A) :
  settles m -> (forall e, is429 e = false -> returns (h e)) -> returns (tryCatch m h).
Proof.
  intros Hm Hh w. specialize (Hm w). unfold settlesAt in Hm. unfold tryCatch.
  destruct (m w) as [[a|e|] w'] eqn:E; cbn [fst] in Hm.
  - exists a, w'. reflexivity.
  - apply Hh. exact Hm.
  - contradiction.
Qed.

Lemma returns_bind {A B} (m : M A) (k : A -> M B) :
  returns m -> (forall a, returns (k a)) -> returns (bind m k).
Proof.
  intros Hm Hk w. destruct (Hm w) as (a & w' & E). unfold bind. rewrite E. apply Hk.
Qed.

Lemma returns_ret {A} (a : A) : returns (ret a).
Proof. intros w. exists a, w. reflexivity. Qed.

Lemma returns_modify (f : world -> world) : returns (modify f).
Proof. intros w. exists tt, (f w). reflexivity. Qed.

Lemma returns_modifyDb (f : database -> database) : returns (modifyDb f).
Proof. apply returns_modify. Qed.

Lemma returns_getDb : returns getDb.
Proof. intros w. exists (db w), w. reflexivity. Qed.

Lemma returns_dateNow : returns dateNow.
Proof. intros w. exists (clock w), w. reflexivity. Qed.

Lemma returns_nowISO : returns nowISO.
Proof. intros w. exists (JNum (clock w)), w. reflexivity. Qed.

Lemma returns_broadcastProgress s t m d p : returns (broadcastProgress s t m d p).
Proof. apply returns_modifyDb. Qed.

Lemma returns_updateQueueItem id patch : returns (updateQueueItem id patch).
Proof. apply returns_modifyDb. Qed.

Lemma settles_ret {A} (a : A) : settles (ret a).
Proof. intros w. exact I. Qed.

Lemma settles_throw {A} (e : error) : is429 e = false -> settles (@throw A e).
Proof. intros H w. exact H. Qed.

Lemma settles_fetch (P : platform) (ep : endpoint) : quiet P -> settles (fetch P ep).
Proof.
  intros HP w. unfold settlesAt. rewrite fetch_unfold.
  destruct (server P ep _) as [took r|took e] eqn:E; cbn [fst]; [exact I|].
  apply (HP _ _ _ _ E).
Qed.

Lemma settles_responseJson (r : response) : settles (responseJson r).
Proof. intros w. unfold settlesAt, responseJson. destruct (body r); exact I || reflexivity. Qed.

Lemma settles_requireObject (v : json) : settles (requireObject v).
Proof. intros w. unfold settlesAt, requireObject. destruct (nullish v); exact I || reflexivity. Qed.

Lemma settlesAt_execute {T} (fuel : nat) (fn : M T) (w : world) :
  settlesAt fn (waited w) -> settlesAt (executeWithRateLimit (S fuel) fn) w.
Proof.
  unfold settlesAt. rewrite executeWithRateLimit_step.
  destruct (fn (waited w)) as [[v|e|] w2]; cbn [fst]; intros H; [exact I | | exact H].
  rewrite H. exact H.
Qed.

Lemma settles_execute {T} (fuel : nat) (fn : M T) :
  settles fn -> settles (executeWithRateLimit (S fuel) fn).
Proof. intros H w. apply settlesAt_execute, H. Qed.

Lemma neverThrows_tryCatch {A} (m : M A) (h : error -> M A) :
  (forall e, neverThrows (h e)) -> neverThrows (tryCatch m h).
Proof.
  intros Hh w. unfold tryCatch.
  destruct (m w) as [[a|e|] w']; cbn [fst]; [exact I | apply Hh | exact I].
Qed.

Lemma neverThrows_bind {A B} (m : M A) (k : A -> M B) :
  neverThrows m -> (forall a, neverThrows (k a)) -> neverThrows (bind m k).
Proof.
  intros Hm Hk w. specialize (Hm w). unfold bind.
  destruct (m w) as [[a|e|] w']; cbn [fst] in *; [apply Hk | contradiction | exact I].
Qed.

Lemma neverThrows_ret {A} (a : A) : neverThrows (ret a).
Proof. intros w. exact I. Qed.

Create HintDb settle.
#[export] Hint Resolve returns_settles returns_ret returns_modify returns_modifyDb
  returns_getDb returns_dateNow returns_nowISO returns_broadcastProgress
  returns_updateQueueItem settles_ret settles_fetch settles_responseJson
  settles_requireObject neverThrows_ret : settle.

(** One step of a proof that a computation settles: split a sequence or a
    [try], or take a branch apart. *)
Ltac settle_step :=
  match goal with
  | |- settles (bind _ _) => apply settles_bind; [ | intro ]
  | |- settles (tryCatch _ _) => apply settles_tryCatch; [ | intros ? ? ]
  | |- settles (executeWithRateLimit (S _) _) => apply settles_execute
  | |- settles (throw (Error _)) => apply settles_throw; reflexivity
  | |- settles (throw TypeError) => apply settles_throw; reflexivity
  | |- settles (throw RangeError) => apply settles_throw; reflexivity
  | |- settles (throw _) => apply settles_throw; assumption
  | |- settles (if ?b then _ else _) => destruct b
  | |- settles (match ?x with _ => _ end) => destruct x
  | |- settles _ => solve [ auto with settle ]
  end.

Ltac settle := repeat settle_step.

Lemma settles_fetchWebinarList P type from to size token :
  quiet P -> settles (fetchWebinarList P type from to size token).
Proof. intros HP. unfold fetchWebinarList. settle. Qed.

Lemma settles_fetchWebinarDetails P id type :
  quiet P -> settles (fetchWebinarDetails P id type).
Proof. intros HP. unfold fetchWebinarDetails. settle. Qed.

Lemma settles_sumDurations (l : list json) :
  forall total valid, settles (sumDurations l total valid).
Proof.
  induction l as [|p rest IH]; intros total valid; cbn [sumDurations]; settle; apply IH.
Qed.

Lemma returns_fetchRegistrantCount P fuel id :
  quiet P -> returns (fetchRegistrantCount P (S fuel) id).
Proof.
  intros HP. unfold fetchRegistrantCount.
  apply returns_tryCatch; [settle | intros; apply returns_ret].
Qed.

Lemma returns_fetchParticipantData P fuel id :
  quiet P -> returns (fetchParticipantData P (S fuel) id).
Proof.
  intros HP. unfold fetchParticipantData.
  apply returns_tryCatch; [| intros; apply returns_ret].
  settle. apply settles_sumDurations.
Qed.

Lemma settles_fetchListField P fuel ep key :
  quiet P -> settles (fetchListField P (S fuel) ep key).
Proof. intros HP. unfold fetchListField. settle. Qed.

Lemma returns_addListField P fuel ep key field ad :
  quiet P -> returns (addListField P (S fuel) ep key field ad).
Proof.
  intros HP. unfold addListField.
  apply returns_tryCatch; [| intros; apply returns_ret].
  settle. apply settles_fetchListField, HP.
Qed.

Lemma returns_fetchAdditionalWebinarData P fuel id type :
  quiet P -> returns (fetchAdditionalWebinarData P (S fuel) id type).
Proof.
  intros HP. unfold fetchAdditionalWebinarData.
  apply returns_bind; [apply returns_fetchRegistrantCount, HP | intros rc].
  destruct type.
  - apply returns_bind;
      [apply returns_bind; [apply returns_fetchParticipantData, HP | intros; apply returns_ret]|].
    intros ad. apply returns_bind; [apply returns_ret | intros ad2].
    apply returns_bind; [apply returns_addListField, HP | intros ad3].
    apply returns_addListField, HP.
  - apply returns_bind; [apply returns_ret | intros ad].
    apply returns_bind; [apply returns_addListField, HP | intros ad2].
    apply returns_ret.
Qed.

(** ** Auxiliary fetches *)

(** A response that is not ok, and a [fetch] that rejects. *)
Definition refused (res : fetchResult) : bool :=
  match res with
  | Fulfilled _ r => negb (ok r)
  | Rejected _ _ => false
  end.

Definition rejected (res : fetchResult) : bool :=
  match res with
  | Fulfilled _ _ => false
  | Rejected _ _ => true
  end.

(** The enrichment endpoints are unreachable; the rest answers as in
    [threeWebinars]. *)
Definition enrichmentDown (ep : endpoint) (n : nat) : fetchResult :=
  match ep with
  | TrackingSources _ | Polls _ | QA _ => networkError
  | _ => threeWebinars ep n
  end.

Lemma execute_fetch_quiet (P : platform) (fuel : nat) (ep : endpoint) (w : world) :
  quiet P ->
  executeWithRateLimit (S fuel) (fetch P ep) w =
  match server P ep (List.length (requests w)) with
  | Fulfilled took r =>
      (Return r,
       recorded (setClock (clock (waited w) + Z.max 0 took)
                   (setRequests (ep :: requests w) (waited w))))
  | Rejected took e =>
      (Throw e,
       setClock (clock (waited w) + Z.max 0 took)
         (setRequests (ep :: requests w) (waited w)))
  end.
Proof.
  intros HP. rewrite executeWithRateLimit_step, fetch_unfold.
  rewrite (proj1 (waited_frame w)).
  destruct (server P ep _) as [took r|took e] eqn:E; [reflexivity|].
  rewrite (HP _ _ _ _ E). reflexivity.
Qed.

Lemma fetchRegistrantCount_default (P : platform) (fuel : nat) (id : json) (w : world) :
  quiet P ->
  refused (server P (Registrants id) (List.length (requests w)))
  || rejected (server P (Registrants id) (List.length (requests w))) = true ->
  fst (fetchRegistrantCount P (S fuel) id w) = Return (JNum 0).
Proof.
  intros HP Hfail. unfold fetchRegistrantCount, tryCatch, bind.
  rewrite (execute_fetch_quiet P fuel _ w HP).
  destruct (server P (Registrants id) _) as [took r|took e]; cbn [refused rejected] in Hfail.
  - rewrite orb_false_r in Hfail. apply negb_true_iff in Hfail. rewrite Hfail. reflexivity.
  - reflexivity.
Qed.

Lemma fetchParticipantData_default (P : platform) (fuel : nat) (id : json) (w : world) :
  quiet P ->
  refused (server P (Participants id) (List.length (requests w)))
  || rejected (server P (Participants id) (List.length (requests w))) = true ->
  fst (fetchParticipantData P (S fuel) id w) = Return (JNum 0, JNum 0).
Proof.
  intros HP Hfail. unfold fetchParticipantData, tryCatch, bind.
  rewrite (execute_fetch_quiet P fuel _ w HP).
  destruct (server P (Participants id) _) as [took r|took e]; cbn [refused rejected] in Hfail.
  - rewrite orb_false_r in Hfail. apply negb_true_iff in Hfail. rewrite Hfail. reflexivity.
  - reflexivity.
Qed.

Lemma addListField_refused (P : platform) (fuel : nat) (ep : endpoint)
    (key field : string) (ad : row) (w : world) :
  refused (server P ep (List.length (requests w))) = true ->
  fst (addListField P (S fuel) ep key field ad w) = Return (setField field (JArr []) ad).
Proof.
  intros Hfail. unfold addListField, fetchListField, tryCatch. unfold bind at 1.
  rewrite executeWithRateLimit_step. unfold bind at 1. rewrite fetch_unfold.
  rewrite (proj1 (waited_frame w)).
  destruct (server P ep _) as [took r|took e]; cbn [refused] in Hfail; [|discriminate].
  apply negb_true_iff in Hfail. rewrite Hfail. reflexivity.
Qed.

Lemma addListField_rejected (P : platform) (fuel : nat) (ep : endpoint)
    (key field : string) (ad : row) (w : world) :
  quiet P ->
  rejected (server P ep (List.length (requests w))) = true ->
  fst (addListField P (S fuel) ep key field ad w) = Return ad.
Proof.
  intros HP Hfail. unfold addListField, fetchListField, tryCatch. unfold bind at 1.
  rewrite executeWithRateLimit_step. unfold bind at 1. rewrite fetch_unfold.
  rewrite (proj1 (waited_frame w)).
  destruct (server P ep _) as [took r|took e] eqn:E; cbn [rejected] in Hfail; [discriminate|].
  rewrite (HP _ _ _ _ E). reflexivity.
Qed.

Lemma neverThrows_fetchAdditionalWebinarData P fuel id type :
  neverThrows (fetchAdditionalWebinarData P fuel id type).
Proof.
  unfold fetchAdditionalWebinarData, fetchRegistrantCount, fetchParticipantData, addListField.
  apply neverThrows_bind;
    [apply neverThrows_tryCatch; intros; apply neverThrows_ret | intros rc].
  destruct type;
    repeat match goal with
           | |- neverThrows (ret _) => apply neverThrows_ret
           | |- neverThrows (tryCatch _ _) => apply neverThrows_tryCatch; intros
           | |- neverThrows (bind _ _) => apply neverThrows_bind; [ | intros ? ]
           end.
Qed.

(** C5, as amended.  No failure of an auxiliary fetch fails the item:
    [fetchAdditionalWebinarData] never throws, and it returns whenever no call
    is turned away with a 429.  A registrant-count fetch that fails yields 0
    and a participant fetch that fails yields [{count: 0, avgDuration: 0}].
    A tracking-sources, polls or Q&A fetch yields the empty list when the
    response is not ok, and leaves its field of [additionalData] unset when
    the fetch itself rejects. *)
Theorem auxiliary_fetch_failures_are_absorbed :
  forall (P : platform) (fuel : nat) (id : json) (w : world),
    quiet P ->
    let n := List.length (requests w) in
    (forall type fuel', neverThrows (fetchAdditionalWebinarData P fuel' id type))
    /\ (forall type, exists ad w',
           fetchAdditionalWebinarData P (S fuel) id type w = (Return ad, w'))
    /\ (refused (server P (Registrants id) n) || rejected (server P (Registrants id) n) = true ->
        fst (fetchRegistrantCount P (S fuel) id w) = Return (JNum 0))
    /\ (refused (server P (Participants id) n) || rejected (server P (Participants id) n) = true ->
        fst (fetchParticipantData P (S fuel) id w) = Return (JNum 0, JNum 0))
    /\ (forall ep key field ad,
           (refused (server P ep n) = true ->
            fst (addListField P (S fuel) ep key field ad w)
            = Return (setField field (JArr []) ad))
           /\ (rejected (server P ep n) = true ->
               fst (addListField P (S fuel) ep key field ad w) = Return ad)).
Proof.
  intros P fuel id w HP n.
  split; [intros; apply neverThrows_fetchAdditionalWebinarData|].
  split; [intros type; apply (returns_fetchAdditionalWebinarData P fuel id type HP)|].
  split; [apply fetchRegistrantCount_default, HP|].
  split; [apply fetchParticipantData_default, HP|].
  intros ep key field ad. split.
  - apply addListField_refused.
  - apply addListField_rejected, HP.
Qed.

Lemma threeWebinars_quiet : quiet (platformOf threeWebinars).
Proof.
  intros ep n took e. cbn [server platformOf]. unfold threeWebinars, jsonOk, httpError.
  destruct ep as [[|] ? ? ? ?|id|id| | | | | | | |]; try discriminate;
    destruct id as [| | |z| | |]; try discriminate;
    destruct z as [|p|p]; try discriminate;
    destruct p as [p|p|]; try discriminate;
    destruct p; discriminate.
Qed.

Lemma enrichmentDown_quiet : quiet (platformOf enrichmentDown).
Proof.
  intros ep n took e. cbn [server platformOf]. unfold enrichmentDown.
  destruct ep; try apply (threeWebinars_quiet _ n took e);
    unfold networkError; intros H; inversion H; reflexivity.
Qed.

Lemma auxiliary_fetch_failures_are_absorbed_witness :
  let P := platformOf enrichmentDown in
  let w := startWorld sampleDb in
  let id := JNum 3 in
  quiet P
  /\ (forall type fuel', neverThrows (fetchAdditionalWebinarData P fuel' id type))
  /\ (forall type, exists ad w',
         fetchAdditionalWebinarData P 1 id type w = (Return ad, w'))
  /\ (refused (server P (Registrants id) 0) || rejected (server P (Registrants id) 0) = true ->
      fst (fetchRegistrantCount P 1 id w) = Return (JNum 0))
  /\ (refused (server P (Participants id) 0) || rejected (server P (Participants id) 0) = true ->
      fst (fetchParticipantData P 1 id w) = Return (JNum 0, JNum 0))
  /\ (forall ep key field ad,
         (refused (server P ep 0) = true ->
          fst (addListField P 1 ep key field ad w) = Return (setField field (JArr []) ad))
         /\ (rejected (server P ep 0) = true ->
             fst (addListField P 1 ep key field ad w) = Return ad)).
Proof.
  split; [exact enrichmentDown_quiet|].
  exact (auxiliary_fetch_failures_are_absorbed (platformOf enrichmentDown) 0%nat (JNum 3)
           (startWorld sampleDb) enrichmentDown_quiet).
Defined.

(** When the tracking-sources, polls and Q&A fetches reject, the item is
    enriched without a [trackingSources], [polls] or [qa] field: an unset
    field, not an empty list. *)
Lemma rejected_enrichment_leaves_field_unset :
  fst (fetchAdditionalWebinarData (platformOf enrichmentDown) 1 (JNum 3) upcoming
         (startWorld sampleDb))
  = Return [("registrantCount", JNum 7)]
  /\ assoc "trackingSources" [("registrantCount", JNum 7)] = JUndef
  /\ assoc "trackingSources" [("registrantCount", JNum 7)] <> JArr []
  /\ fst (fetchAdditionalWebinarData (platformOf enrichmentDown) 1 (JNum 1) past
            (startWorld sampleDb))
     = Return [("registrantCount", JNum 7); ("participantCount", JNum 2);
               ("avgAttendanceDuration", JNum 13)].
Proof.
  split; [vm_compute; reflexivity|].
  split; [reflexivity|].
  split; [discriminate|].
  vm_compute; reflexivity.
Qed.

(** ** Draining the queue *)

Lemma settles_upsertWebinar P r : settles (upsertWebinar P r).
Proof. unfold upsertWebinar. destruct (storeFault P _ _); settle. Qed.

Lemma settles_buildWebinarData P now conn type payload ad status :
  settles (buildWebinarData P now conn type payload ad status).
Proof. unfold buildWebinarData. settle. Qed.

Lemma settles_processWebinar P fuel item syncId conn :
  quiet P -> settles (processWebinar P (S fuel) item syncId conn).
Proof.
  intros HP. unfold processWebinar.
  apply settles_tryCatch.
  - settle.
    + apply settles_fetchWebinarDetails, HP.
    + apply returns_settles, returns_fetchAdditionalWebinarData, HP.
    + apply settles_buildWebinarData.
    + apply settles_upsertWebinar.
  - intros e He. settle.
Qed.

(** What the [catch] of [processWebinar] leaves behind. *)
Lemma processWebinar_throw (P : platform) (fuel : nat) (item : row)
    (syncId conn : json) (w : world) (e : error) (w' : world) :
  processWebinar P fuel item syncId conn w = (Throw e, w') ->
  exists w0 : world,
    webinar_sync_queue (db w')
    = updateWhere (whereEq "id" (col "id" item))
        (serialize [("processing_status", JStr "failed");
                    ("error_message", JStr (message e));
                    ("retry_count", nextRetryCount item)])
        (webinar_sync_queue (db w0))
    /\ sync_progress_updates (db w')
       = (sync_progress_updates (db w0)
          ++ [mkProgress syncId "error"
                ("Failed to process webinar " ++ toString (col "webinar_id" item) ++ ": "
                   ++ message e)
                (JObj [("webinar_id", col "webinar_id" item); ("error", JStr (message e))])
                None])%list.
Proof.
  unfold processWebinar. unfold tryCatch at 1.
  match goal with |- context [match ?m w with _ => _ end] => destruct (m w) as [[a|e0|] w0] end;
    intros H; try discriminate.
  revert H.
  unfold bind, updateQueueItem, broadcastProgress, modifyDb, modify, throw.
  intros H. inversion H; subst. exists w0. split; reflexivity.
Qed.

Lemma updateWhere_sets (p : row -> bool) (patch : row) (k : string) (v : json)
    (rows : list row) :
  NoDup (map fst patch) -> In (k, v) patch ->
  Forall (fun r => p r = true -> col k r = v) (updateWhere p patch rows).
Proof.
  intros Hnd Hin. unfold updateWhere. apply Forall_forall. intros r' Hr'.
  apply in_map_iff in Hr'. destruct Hr' as (r & Hr & _).
  destruct (p r) eqn:E; subst r'.
  - intros _. apply col_applyPatch_in; assumption.
  - intros H. congruence.
Qed.

Lemma failed_patch_applied (id : json) (msg : string) (count : json) (rows : list row) :
  count <> JUndef ->
  Forall (fun r =>
            whereEq "id" id r = true ->
            col "processing_status" r = JStr "failed"
            /\ col "error_message" r = JStr msg
            /\ col "retry_count" r = count)
         (updateWhere (whereEq "id" id)
            (serialize [("processing_status", JStr "failed");
                        ("error_message", JStr msg);
                        ("retry_count", count)]) rows).
Proof.
  intros Hc.
  assert (Hs : serialize [("processing_status", JStr "failed");
                          ("error_message", JStr msg); ("retry_count", count)]
               = [("processing_status", JStr "failed");
                  ("error_message", JStr msg); ("retry_count", count)]).
  { destruct count; try reflexivity. contradiction. }
  rewrite Hs.
  assert (Hnd : NoDup (map fst [("processing_status", JStr "failed");
                                ("error_message", JStr msg); ("retry_count", count)]))
    by (apply distinct_NoDup; reflexivity).
  pose proof (updateWhere_sets (whereEq "id" id) _ "processing_status" _ rows Hnd
                (or_introl eq_refl)) as H1.
  pose proof (updateWhere_sets (whereEq "id" id) _ "error_message" _ rows Hnd
                (or_intror (or_introl eq_refl))) as H2.
  pose proof (updateWhere_sets (whereEq "id" id) _ "retry_count" _ rows Hnd
                (or_intror (or_intror (or_introl eq_refl)))) as H3.
  rewrite Forall_forall in *. intros r Hr Hp.
  repeat split; [apply (H1 r Hr Hp) | apply (H2 r Hr Hp) | apply (H3 r Hr Hp)].
Qed.

Lemma nextRetryCount_defined (item : row) : nextRetryCount item <> JUndef.
Proof. unfold nextRetryCount. destruct (col "retry_count" item); discriminate. Qed.

Lemma drainQueue_returns (P : platform) (fuel : nat) (syncId conn : json) (total : nat) :
  quiet P ->
  forall (items : list row) (processed failed : Z) (w : world),
    exists processed' failed' w',
      drainQueue P (S fuel) syncId conn total items processed failed w
      = (Return (processed', failed'), w')
      /\ processed' + failed' = processed + failed + Z.of_nat (List.length items).
Proof.
  intros HP. induction items as [|item rest IH]; intros processed failed w.
  - exists processed, failed, w. split; [reflexivity | cbn; lia].
  - cbn [drainQueue].
    match goal with
    | |- context [bind (tryCatch ?m ?h) ?k] =>
        assert (Hstep : exists c w1, tryCatch m h w = (Return c, w1)
                                     /\ fst c + snd c = processed + failed + 1)
    end.
    { unfold tryCatch.
      match goal with |- context [match ?m w with _ => _ end] =>
        assert (Hs : settlesAt m w); [|destruct (m w) as [[c|e|] w1] eqn:E] end.
      - apply settlesAt_bind; [apply settles_processWebinar, HP|].
        intros [] w1 _. apply returns_settles.
        apply returns_bind; [apply returns_broadcastProgress | intros].
        apply returns_bind; [apply returns_nowISO | intros].
        apply returns_bind; [apply returns_modifyDb | intros]. apply returns_ret.
      - exists c, w1. split; [reflexivity|].
        revert E. unfold bind.
        destruct (processWebinar P (S fuel) item syncId conn w) as [[[]|e|] w2];
          try discriminate.
        unfold broadcastProgress, nowISO, modifyDb, modify, dateNow, ret, bind.
        intros E. inversion E; subst. cbn [fst snd]. lia.
      - eexists _, _. split; [reflexivity|]. cbn [fst snd]. lia.
      - unfold settlesAt in Hs. rewrite E in Hs. contradiction. }
    destruct Hstep as (c & w1 & E1 & Hc).
    unfold bind at 1. rewrite E1.
    destruct (IH (fst c) (snd c) w1) as (p' & f' & w' & E2 & Hsum).
    exists p', f', w'. split; [exact E2|].
    cbn [List.length]. lia.
Qed.

Lemma completeSync_completes (syncId syncMode dateRange : json)
    (allWebinars : list WebinarQueueItem) (w : world) :
  exists resp w',
    completeSync syncId syncMode dateRange allWebinars w = (Return resp, w')
    /\ statusCode resp = 200
    /\ Forall (fun r => whereEq "id" syncId r = true -> col "status" r = JStr "completed")
              (zoom_sync_logs (db w')).
Proof.
  eexists _, _. split; [reflexivity|]. split; [reflexivity|].
  cbn [db setDb zoom_sync_logs setSyncLogs setProgress snd].
  apply updateWhere_sets.
  - apply distinct_NoDup. reflexivity.
  - left. reflexivity.
Qed.


(** A pending work item for webinar 2, whose detail [threeWebinars] refuses. *)
Definition refusedItem : row :=
  [("id", JNum 3); ("sync_id", JNum 1); ("webinar_id", JNum 2);
   ("webinar_type", JStr "upcoming"); ("priority", JNum 5);
   ("scheduled_at", JNum 1000); ("processing_status", JStr "pending");
   ("retry_count", JNum 0)].

Definition refusedWorld : world :=
  startWorld (mkDb [sampleConnection] [] [] [refusedItem] [] [] 4).


(** The run of section 8, property 5: three items, the detail fetch of the
    second fails. *)
Example three_items_one_failure :
  let run := serve (platformOf threeWebinars) 1
               (syncRequest [("connectionId", JStr "conn-1")]) (startWorld sampleDb) in
  fst run
  = Return (mkHttp 200
              (JObj [("success", JBool true); ("syncId", JNum 1);
                     ("webinarsSynced", JNum 3);
                     ("message", JStr "Sync completed successfully")]))
  /\ map (fun r => (col "webinar_id" r, col "processing_status" r, col "retry_count" r))
         (webinar_sync_queue (db (snd run)))
     = [(JNum 1, JStr "completed", JNum 0);
        (JNum 2, JStr "failed", JNum 1);
        (JNum 3, JStr "completed", JNum 0)]
  /\ map (col "status") (zoom_sync_logs (db (snd run))) = [JStr "completed"]
  /\ filter (fun u => (update_type u =? "error")%string)
            (sync_progress_updates (db (snd run)))
     = [mkProgress (JNum 1) "error"
          "Failed to process webinar 2: Failed to fetch webinar details: Webinar does not exist"
          (JObj [("webinar_id", JNum 2);
                 ("error", JStr "Failed to fetch webinar details: Webinar does not exist")])
          None].
Proof. vm_compute. repeat split. Qed.

(** ** The response *)

Lemma bind_inv_Return {A B} (m : M A) (k : A -> M B) (w : world) (b : B) (w' : world) :
  bind m k w = (Return b, w') ->
  exists a w1, m w = (Return a, w1) /\ k a w1 = (Return b, w').
Proof.
  unfold bind. destruct (m w) as [[a|e|] w1]; intros H; try discriminate.
  exists a, w1. split; [reflexivity | exact H].
Qed.

Lemma serialize_defined (k : string) (v : json) (r : row) :
  In (k, v) (serialize r) -> v <> JUndef.
Proof.
  unfold serialize. intros H. apply filter_In in H. destruct H as [_ H].
  cbn [snd] in H. intros ->. discriminate.
Qed.

Lemma assoc_app_absent (k : string) (r l : row) :
  (forall v, In (k, v) r -> v <> JUndef) ->
  assoc k r = JUndef -> assoc k (r ++ l)%list = assoc k l.
Proof.
  induction r as [|[k' v'] rest IH]; intros Hdef Habs; [reflexivity|].
  cbn [assoc app] in *. destruct (String.eqb_spec k k') as [->|Hne].
  - exfalso. apply (Hdef v'); [left; reflexivity | exact Habs].
  - apply IH; [|exact Habs]. intros v Hin. apply Hdef. right. exact Hin.
Qed.

Lemma col_withDefault_defined (k : string) (v : json) (r : row) :
  v <> JUndef ->
  (forall v', In (k, v') r -> v' <> JUndef) ->
  col k (withDefault k v r) <> JUndef.
Proof.
  intros Hv Hr. unfold col, withDefault.
  destruct (assoc k r) eqn:E;
    try (rewrite E; discriminate).
  rewrite (assoc_app_absent k r _ Hr E). cbn [assoc]. rewrite String.eqb_refl. exact Hv.
Qed.

Lemma generated_id_defined (n : Z) (r : row) :
  col "id" (withDefault "id" (JNum n) (serialize r)) <> JUndef.
Proof.
  apply col_withDefault_defined; [discriminate|].
  intros v' Hin. apply (serialize_defined _ _ _ Hin).
Qed.

Lemma createSyncLog_id (P : platform) (conn mode range : json) (w : world)
    (syncId : json) (w' : world) :
  createSyncLog P conn mode range w = (Return syncId, w') -> syncId <> JUndef.
Proof.
  unfold createSyncLog. unfold bind at 1, nowISO, bind at 1, dateNow, ret.
  unfold bind at 1, getDb.
  destruct (storeFault P "zoom_sync_logs" _); [discriminate|].
  unfold bind, modifyDb, modify, broadcastProgress, modifyDb, modify, ret.
  intros H.
  assert (E : syncId
              = col "id" (withDefault "id" (JNum (next_id (db w)))
                            (serialize
                               [("connection_id", conn);
                                ("status", JStr "running");
                                ("started_at", JNum (clock w));
                                ("sync_type", mode);
                                ("metadata", JObj [("dateRange", range)])])))
    by congruence.
  rewrite E. apply generated_id_defined.
Qed.

(** The body of a successful response, and of a failed one. *)
Definition successBody (b : json) : Prop :=
  prop "success" b = JBool true
  /\ prop "syncId" b <> JUndef
  /\ (exists n, prop "webinarsSynced" b = JNum n)
  /\ (exists m, prop "message" b = JStr m).

Definition errorOnlyBody (b : json) : Prop :=
  exists m, b = JObj [("error", JStr m)] /\ m <> "".

Lemma completeSync_response (syncId mode range : json) (all : list WebinarQueueItem)
    (w : world) (resp : httpResponse) (w' : world) :
  syncId <> JUndef ->
  completeSync syncId mode range all w = (Return resp, w') ->
  statusCode resp = 200 /\ successBody (responseBody resp).
Proof.
  intros Hid H. unfold completeSync, bind, nowISO, dateNow, ret, modifyDb, modify,
    broadcastProgress, modifyDb, modify in H.
  inversion H; subst. clear H. split; [reflexivity|].
  unfold successBody. cbn [responseBody].
  destruct syncId; try contradiction;
    (split; [reflexivity|]; split; [discriminate|]; split; eexists; reflexivity).
Qed.

Lemma truthy_defined (v : json) : truthy v = true -> v <> JUndef.
Proof. intros H ->. discriminate. Qed.

Lemma syncRun_response (P : platform) (fuel : nat) (req : request) (w : world)
    (resp : httpResponse) (w' : world) :
  syncRun P fuel req w = (Return resp, w') ->
  statusCode resp = 200 /\ successBody (responseBody resp).
Proof.
  unfold syncRun.
  destruct (envConfigured P); cbn [negb]; [|discriminate].
  destruct (jsonBody req) as [payload|]; [|discriminate].
  intros H.
  apply bind_inv_Return in H. destruct H as ([] & w1 & _ & H).
  destruct (truthy (prop "connectionId" payload)); cbn [negb] in H; [|discriminate].
  apply bind_inv_Return in H. destruct H as ([] & w2 & _ & H).
  apply bind_inv_Return in H. destruct H as ([] & w3 & _ & H).
  apply bind_inv_Return in H. destruct H as (syncId & w4 & Hid & H).
  assert (Hdef : syncId <> JUndef).
  { destruct (truthy (prop "resumeSyncId" payload)) eqn:Hres; cbn [negb] in Hid.
    - inversion Hid; subst. apply truthy_defined, Hres.
    - apply (createSyncLog_id _ _ _ _ _ _ _ Hid). }
  apply bind_inv_Return in H. destruct H as (token & w5 & _ & H).
  apply bind_inv_Return in H. destruct H as (created & w6 & _ & H).
  apply bind_inv_Return in H. destruct H as ([] & w7 & _ & H).
  apply bind_inv_Return in H. destruct H as (now & w8 & _ & H).
  apply bind_inv_Return in H. destruct H as (pastDays & w9 & _ & H).
  apply bind_inv_Return in H. destruct H as (futureDays & w10 & _ & H).
  apply bind_inv_Return in H. destruct H as (allWebinars & w11 & _ & H).
  apply bind_inv_Return in H. destruct H as ([] & w12 & _ & H).
  apply bind_inv_Return in H. destruct H as (counts & w13 & _ & H).
  apply (completeSync_response _ _ _ _ _ _ _ Hdef H).
Qed.

Lemma serve_response_cases :
  forall (P : platform) (fuel : nat) (req : request) (w : world),
    method req <> "OPTIONS" ->
    match fst (serve P fuel req w) with
    | Return resp =>
        (statusCode resp = 200 /\ successBody (responseBody resp))
        \/ (statusCode resp = 500 /\ errorOnlyBody (responseBody resp)
            /\ prop "success" (responseBody resp) = JUndef)
    | Throw _ => False
    | Diverge => exists w', syncRun P fuel req w = (Diverge, w')
    end.
Proof.
  intros P fuel req w Hm. unfold serve.
  destruct (String.eqb_spec (method req) "OPTIONS") as [E|_]; [contradiction|].
  unfold tryCatch.
  destruct (syncRun P fuel req w) as [[resp|e|] w'] eqn:E; cbn [fst].
  - left. apply (syncRun_response _ _ _ _ _ _ E).
  - right. cbn [statusCode responseBody]. split; [reflexivity|]. split; [|reflexivity].
    eexists. split; [reflexivity|].
    destruct (String.eqb_spec (message e) ""); [discriminate | assumption].
  - exists w'. reflexivity.
Qed.

(** ** Termination of a run *)

(** From the [N]-th request of the run on, no response carries a
    continuation token. *)
Definition pagesEnd (P : platform) (N : nat) : Prop :=
  forall ep n took r data,
    (N <= n)%nat -> server P ep n = Fulfilled took r -> body r = Some data ->
    truthy (prop "next_page_token" data) = false.

Lemma settles_stubsOf (type : webinarType) (l : list json) : settles (stubsOf type l).
Proof. induction l as [|x rest IH]; cbn [stubsOf]; settle. Qed.

Lemma stubsOf_world (type : webinarType) (l : list json) :
  forall (w : world) (s : list WebinarQueueItem) (w' : world),
    stubsOf type l w = (Return s, w') -> w' = w.
Proof.
  induction l as [|x rest IH]; intros w s w' H; cbn [stubsOf] in H.
  - inversion H; reflexivity.
  - destruct (nullish x); [discriminate|].
    apply bind_inv_Return in H. destruct H as (items & w1 & E & H).
    inversion H; subst. apply (IH _ _ _ E).
Qed.

Lemma execute_fetchWebinarList_inv (P : platform) (retries : nat) (type : webinarType)
    (from to : option Z) (size : Z) (tok : json) (w : world)
    (webinars token : json) (w1 : world) :
  quiet P ->
  executeWithRateLimit (S retries) (fetchWebinarList P type from to size tok) w
  = (Return (webinars, token), w1) ->
  List.length (requests w1) = S (List.length (requests w))
  /\ ((List.length (requests w) < List.length (requests w))%nat \/
      exists ep took r data,
        server P ep (List.length (requests w)) = Fulfilled took r
        /\ body r = Some data /\ token = prop "next_page_token" data).
Proof.
  intros HP. rewrite executeWithRateLimit_step.
  unfold fetchWebinarList. unfold bind at 1. rewrite fetch_unfold.
  rewrite (proj1 (waited_frame w)).
  destruct (server P _ _) as [took r|took e] eqn:E.
  2:{ rewrite (HP _ _ _ _ E). discriminate. }
  destruct (ok r); cbn [negb]; [|discriminate].
  unfold responseJson, bind, requireObject, ret, throw.
  destruct (body r) as [data|] eqn:Eb; [|discriminate].
  destruct (nullish data); [discriminate|].
  intros H. inversion H; subst. split; [reflexivity|].
  right. eexists _, took, r, data. split; [exact E|]. split; [exact Eb | reflexivity].
Qed.

Lemma listPages_settles (P : platform) (N : nat) (retries : nat) (type : webinarType)
    (from to : option Z) (syncId : json) (pct : Q) (start : nat) :
  quiet P -> pagesEnd P N ->
  forall (fuel : nat) (tok : json) (pageCount : Z) (acc : list WebinarQueueItem)
         (w : world),
    (1 <= fuel)%nat ->
    (N < List.length (requests w) + fuel)%nat ->
    settlesAt (listPages P (S retries) fuel type from to syncId pct start tok pageCount acc) w.
Proof.
  intros HP HN. induction fuel as [|fuel IH]; intros tok pageCount acc w H1 Hlen; [lia|].
  cbn [listPages].
  apply settlesAt_bind.
  { apply settles_execute, settles_fetchWebinarList, HP. }
  intros [webinars token] w1 Hexec.
  destruct (execute_fetchWebinarList_inv _ _ _ _ _ _ _ _ _ _ _ HP Hexec) as [Hreq Htok].
  apply settlesAt_bind.
  { destruct webinars; try (apply settles_throw; reflexivity). apply settles_stubsOf. }
  intros stubs w2 Hstubs.
  assert (w2 = w1).
  { destruct webinars; try discriminate. apply (stubsOf_world _ _ _ _ _ Hstubs). }
  subst w2.
  apply settlesAt_bind; [apply returns_settles, returns_broadcastProgress|].
  intros [] w3 Hb.
  assert (Hreq3 : requests w3 = requests w1).
  { unfold broadcastProgress, modifyDb, modify in Hb. inversion Hb; reflexivity. }
  destruct (truthy token) eqn:Ht; [|apply settles_ret].
  destruct Htok as [Habs | (ep & took & r & data & Es & Eb & Etok)]; [lia|].
  assert (List.length (requests w) < N)%nat.
  { destruct (Nat.lt_ge_cases (List.length (requests w)) N) as [Hlt|Hge]; [exact Hlt|].
    rewrite Etok, (HN _ _ _ _ _ Hge Es Eb) in Ht. discriminate. }
  apply IH; rewrite ?Hreq3, ?Hreq; lia.
Qed.

Lemma settles_getZoomAccessToken (P : platform) (conn : json) :
  quiet P -> settles (getZoomAccessToken P conn).
Proof.
  intros HP. unfold getZoomAccessToken.
  apply settles_bind; [auto with settle | intros d].
  destruct (single _); [|settle].
  destruct (decryptToken P _ _); [|settle].
  settle.
Qed.

Lemma settles_createSyncLog (P : platform) (conn mode range : json) :
  settles (createSyncLog P conn mode range).
Proof.
  unfold createSyncLog. settle.
Qed.

Lemma settles_queueWebinars (P : platform) (syncId conn : json)
    (all : list WebinarQueueItem) :
  settles (queueWebinars P syncId conn all).
Proof.
  unfold queueWebinars. settle.
Qed.

Lemma settles_dayCount (v : json) (d : Z) : settles (dayCount v d).
Proof. unfold dayCount. destruct (orj v (JNum d)); settle. Qed.

Lemma settles_listPages (P : platform) (N : nat) (fuel : nat) (type : webinarType)
    (from to : option Z) (syncId : json) (pct : Q) (start : nat) (tok : json)
    (pageCount : Z) (acc : list WebinarQueueItem) :
  quiet P -> pagesEnd P N -> (N < S fuel)%nat ->
  settles (listPages P (S fuel) (S fuel) type from to syncId pct start tok pageCount acc).
Proof.
  intros HP HN Hlt w. apply (listPages_settles P N); try assumption; lia.
Qed.

Lemma settles_enumerateWebinars (P : platform) (N : nat) (fuel : nat) (syncId : json)
    (from to : Z) :
  quiet P -> pagesEnd P N -> (N < S fuel)%nat ->
  settles (enumerateWebinars P (S fuel) syncId from to).
Proof.
  intros HP HN Hlt. unfold enumerateWebinars.
  apply settles_bind; [auto with settle | intros []].
  apply settles_bind; [apply (settles_listPages P N); assumption | intros pastWebinars].
  apply (settles_listPages P N); assumption.
Qed.

Lemma returns_processQueue (P : platform) (fuel : nat) (syncId conn : json) :
  quiet P -> returns (processQueue P (S fuel) syncId conn).
Proof.
  intros HP w. unfold processQueue, bind, getDb.
  match goal with
  | |- context [drainQueue P (S fuel) syncId conn ?t ?i 0 0 w] =>
      destruct (drainQueue_returns P fuel syncId conn t HP i 0 0 w)
        as (p' & f' & w1 & E & _)
  end.
  exists (p', f'), w1. exact E.
Qed.

Lemma returns_completeSync (syncId mode range : json) (all : list WebinarQueueItem) :
  returns (completeSync syncId mode range all).
Proof.
  intros w. destruct (completeSync_completes syncId mode range all w) as (r & w' & E & _).
  exists r, w'. exact E.
Qed.

Lemma settles_syncRun (P : platform) (N : nat) (fuel : nat) (req : request) :
  quiet P -> pagesEnd P N -> (N < S fuel)%nat ->
  settles (syncRun P (S fuel) req).
Proof.
  intros HP HN Hlt. unfold syncRun.
  pose proof (settles_getZoomAccessToken P) as Htoken.
  pose proof (settles_createSyncLog P) as Hlog.
  pose proof (settles_queueWebinars P) as Hqueue.
  pose proof settles_dayCount as Hdays.
  pose proof (fun s f t => settles_enumerateWebinars P N fuel s f t HP HN Hlt) as Henum.
  pose proof (fun s c => returns_settles _ (returns_processQueue P fuel s c HP)) as Hdrain.
  pose proof (fun s m r a => returns_settles _ (returns_completeSync s m r a)) as Hdone.
  pose proof (fun l => returns_settles _ (returns_modify (setLimiter l))) as Hput.
  unfold putLimiter.
  settle; auto.
Qed.

Lemma returns_serve (P : platform) (N : nat) (fuel : nat) (req : request) :
  quiet P -> pagesEnd P N -> (N < S fuel)%nat ->
  returns (serve P (S fuel) req).
Proof.
  intros HP HN Hlt. unfold serve.
  destruct (method req =? "OPTIONS")%string; [apply returns_ret|].
  apply returns_tryCatch; [apply (settles_syncRun P N); assumption|].
  intros e _. apply returns_ret.
Qed.

(** C9, as amended.  A sync request is answered either with status 200 and a
    body that carries [success: true], the sync id, the number of webinars
    synced and a message, or with status 500 and a body whose only field is a
    non-empty [error]; no exception escapes the handler.  The answer comes
    whenever no call is turned away with a 429 and the listings stop handing
    out continuation tokens. *)
Theorem serve_response_shape :
  forall (P : platform) (fuel : nat) (req : request) (w : world),
    method req <> "OPTIONS" ->
    match fst (serve P fuel req w) with
    | Return resp =>
        (statusCode resp = 200 /\ successBody (responseBody resp))
        \/ (statusCode resp = 500 /\ errorOnlyBody (responseBody resp)
            /\ prop "success" (responseBody resp) = JUndef)
    | Throw _ => False
    | Diverge => exists w', syncRun P fuel req w = (Diverge, w')
    end
    /\ (forall N : nat,
          quiet P -> pagesEnd P N -> (N < fuel)%nat ->
          exists resp w', serve P fuel req w = (Return resp, w')).
Proof.
  intros P fuel req w Hm. split.
  - apply serve_response_cases, Hm.
  - intros N HP HN Hlt. destruct fuel as [|fuel]; [lia|].
    apply (returns_serve P N fuel req HP HN Hlt).
Qed.

Lemma threeWebinars_pagesEnd : pagesEnd (platformOf threeWebinars) 0.
Proof.
  intros ep n took r data _. cbn [server platformOf]. unfold threeWebinars, jsonOk, httpError.
  destruct ep as [[|] ? ? ? ?|id|id| | | | | | | |];
    try (intros H1 H2; inversion H1; subst; inversion H2; subst; reflexivity);
    destruct id as [| | |z| | |];
    try (intros H1 H2; inversion H1; subst; inversion H2; subst; reflexivity);
    destruct z as [|p|p];
    try (intros H1 H2; inversion H1; subst; inversion H2; subst; reflexivity);
    destruct p as [p|p|];
    try (intros H1 H2; inversion H1; subst; inversion H2; subst; reflexivity);
    destruct p;
    intros H1 H2; inversion H1; subst; inversion H2; subst; reflexivity.
Qed.

Lemma serve_response_shape_witness :
  let P := platformOf threeWebinars in
  let req := syncRequest [("connectionId", JStr "conn-1")] in
  let w := startWorld sampleDb in
  match fst (serve P 1 req w) with
  | Return resp =>
      (statusCode resp = 200 /\ successBody (responseBody resp))
      \/ (statusCode resp = 500 /\ errorOnlyBody (responseBody resp)
          /\ prop "success" (responseBody resp) = JUndef)
  | Throw _ => False
  | Diverge => exists w', syncRun P 1 req w = (Diverge, w')
  end
  /\ (forall N : nat,
        quiet P -> pagesEnd P N -> (N < 1)%nat ->
        exists resp w', serve P 1 req w = (Return resp, w')).
Proof.
  apply (serve_response_shape (platformOf threeWebinars) 1
           (syncRequest [("connectionId", JStr "conn-1")]) (startWorld sampleDb)).
  discriminate.
Defined.

(** A request that names no connection is answered with status 500 and the
    body [{ error }]: the body has no [success] field. *)
Lemma failure_body_has_no_success_field :
  let run := serve (platformOf threeWebinars) 1 (syncRequest []) (startWorld sampleDb) in
  fst run = Return (mkHttp 500 (JObj [("error", JStr "Connection ID is required")]))
  /\ prop "success" (JObj [("error", JStr "Connection ID is required")]) = JUndef
  /\ prop "success" (JObj [("error", JStr "Connection ID is required")]) <> JBool false.
Proof.
  split; [vm_compute; reflexivity|]. split; [reflexivity | discriminate].
Qed.

(** The run of [threeWebinars] is answered with fuel 1. *)
Example three_webinars_run_ends :
  exists resp w',
    serve (platformOf threeWebinars) 1 (syncRequest [("connectionId", JStr "conn-1")])
      (startWorld sampleDb) = (Return resp, w').
Proof.
  apply (returns_serve (platformOf threeWebinars) 0 0
           (syncRequest [("connectionId", JStr "conn-1")])
           threeWebinars_quiet threeWebinars_pagesEnd).
  lia.
Qed.

(** ** Run-fatal errors *)

(** Every listing is answered with a server error. *)
Definition listingDown (ep : endpoint) (n : nat) : fetchResult :=
  match ep with
  | ListWebinars _ _ _ _ _ | ListAllWebinars _ => httpError 500 "Internal Server Error"
  | _ => threeWebinars ep n
  end.

(** The store refuses the insert into the work queue. *)
Definition queueRefused : platform :=
  mkPlatform threeWebinars (fun _ _ => Some "token") (fun t _ => t) (fun _ => None)
    (fun table _ => if (table =? "webinar_sync_queue")%string
                    then Some "insert refused" else None)
    true.

Definition isListing (ep : endpoint) : bool :=
  match ep with
  | ListWebinars _ _ _ _ _ => true
  | _ => false
  end.

Definition isDetail (ep : endpoint) : bool :=
  match ep with
  | PastWebinarDetail _ | WebinarDetail _ => true
  | _ => false
  end.

(** What a run leaves to look at: the response, the status, end and error of
    each sync log, and the number of detail requests made. *)
Definition aftermath (run : outcome httpResponse * world)
  : outcome httpResponse * list (json * json * json) * nat :=
  (fst run,
   map (fun r => (col "status" r, col "ended_at" r, col "error_message" r))
       (zoom_sync_logs (db (snd run))),
   List.length (filter isDetail (requests (snd run)))).

(** C4.  Three runs that fail before enumeration is complete: the connection
    cannot be resolved, the listing fails, the queue insert is refused.  Each
    is answered with status 500 and the message, and processes no item; the
    sync log each has created is left [running], with no end and no error
    recorded. *)
Theorem run_fatal_error_leaves_log_running :
  aftermath (serve (platformOf threeWebinars) 1
               (syncRequest [("connectionId", JStr "nobody")]) (startWorld sampleDb))
  = (Return (mkHttp 500 (JObj [("error", JStr "Connection not found")])),
     [(JStr "running", JUndef, JUndef)], 0%nat)
  /\ aftermath (serve (platformOf listingDown) 1
                  (syncRequest [("connectionId", JStr "conn-1")]) (startWorld sampleDb))
     = (Return (mkHttp 500
                  (JObj [("error",
                          JStr "Failed to fetch webinar list: Internal Server Error")])),
        [(JStr "running", JUndef, JUndef)], 0%nat)
  /\ aftermath (serve queueRefused 1
                  (syncRequest [("connectionId", JStr "conn-1")]) (startWorld sampleDb))
     = (Return (mkHttp 500
                  (JObj [("error", JStr "Failed to queue webinars: insert refused")])),
        [(JStr "running", JUndef, JUndef)], 0%nat).
Proof. repeat split; vm_compute; reflexivity. Qed.

(** The older implementation, on the same listing failure, marks its sync log
    failed with the message before rethrowing. *)
Example legacy_sync_marks_log_failed :
  let run := ZoomWebinarSyncService.syncWebinars (platformOf listingDown) 10
               (JStr "conn-1") (JStr "incremental") (JStr "req-1") (startWorld sampleDb) in
  fst run
  = Throw (ZoomWebinarSyncService.EdgeFunctionError "Failed to fetch webinars: 500" 500)
  /\ map (fun r => (col "status" r, col "error_message" r))
         (zoom_sync_logs (db (snd run)))
     = [(JStr "failed", JStr "Failed to fetch webinars: 500")].
Proof. split; vm_compute; reflexivity. Qed.

(** ** Resuming a run *)

Definition queuedRow (syncId : json) (status : string) (i : Z) : row :=
  [("id", JNum i); ("sync_id", syncId); ("webinar_id", JNum i);
   ("webinar_type", JStr "upcoming"); ("priority", JNum 5);
   ("scheduled_at", JNum 1000); ("processing_status", JStr status);
   ("retry_count", JNum 0)].

Definition oneToTen : list Z := [1; 2; 3; 4; 5; 6; 7; 8; 9; 10].

(** Run [run-1] was interrupted after enumeration: ten items queued, the
    first two completed, eight pending. *)
Definition interruptedDb : database :=
  mkDb [sampleConnection]
       [[("id", JStr "run-1"); ("connection_id", JStr "conn-1");
         ("status", JStr "running")]]
       []
       (map (fun i => queuedRow (JStr "run-1") (if i <=? 2 then "completed" else "pending") i)
            oneToTen)
       []
       [[("sync_id", JStr "run-1"); ("connection_id", JStr "conn-1");
         ("state_type", JStr "webinar_details"); ("total_items", JNum 10);
         ("processed_items", JNum 2)]]
       11.

(** The remote account still lists the same ten upcoming webinars. *)
Definition tenUpcoming (ep : endpoint) (n : nat) : fetchResult :=
  match ep with
  | ListWebinars past _ _ _ _ => jsonOk (JObj [("webinars", JArr [])])
  | ListWebinars upcoming _ _ _ _ => jsonOk (JObj [("webinars", JArr (map stub oneToTen))])
  | WebinarDetail id => jsonOk (JObj [("id", id); ("topic", JStr "Weekly demo")])
  | _ => jsonOk (JObj [])
  end.

Definition detailOf (i : Z) (ep : endpoint) : bool :=
  match ep with
  | WebinarDetail (JNum j) => j =? i
  | _ => false
  end.

Definition resumedRun : outcome httpResponse * world :=
  serve (platformOf tenUpcoming) 1
    (syncRequest [("connectionId", JStr "conn-1"); ("resumeSyncId", JStr "run-1")])
    (startWorld interruptedDb).

(** C2.  Resuming the interrupted run [run-1]: the handler lists the webinars
    again, inserts ten more rows into the queue, and drains eighteen items,
    fetching again the detail of the two that were already completed. *)
Theorem resume_enumerates_again :
  fst resumedRun
  = Return (mkHttp 200
              (JObj [("success", JBool true); ("syncId", JStr "run-1");
                     ("webinarsSynced", JNum 10);
                     ("message", JStr "Sync completed successfully")]))
  /\ List.length (filter isListing (requests (snd resumedRun))) = 2%nat
  /\ List.length (webinar_sync_queue (db (snd resumedRun))) = 20%nat
  /\ List.length (filter isDetail (requests (snd resumedRun))) = 18%nat
  /\ List.length (filter (fun r => json_eqb (col "webinar_id" r) (JNum 1))
                    (webinar_sync_queue (db (snd resumedRun)))) = 2%nat
  /\ List.length (filter (detailOf 1) (requests (snd resumedRun))) = 1%nat
  /\ List.length (filter (detailOf 2) (requests (snd resumedRun))) = 1%nat.
Proof. repeat split; vm_compute; reflexivity. Qed.


(** * Further properties of the code *)

(** ** The rate limiter's wait (v2, lines 54-92) *)

(** Whether the limiter is inside a retry-after period. *)
Definition blocked (w : world) : bool :=
  match retryAfter (limiter w) with
  | Some r => r >? clock w
  | None => false
  end.

Ltac wait_cases :=
  unfold waited, waitForRateLimit, bind, when, getLimiter, dateNow, putLimiter, sleep,
    modify, ret, setLimiter, setClock, MAX_CALLS_PER_SECOND, MAX_CALLS_PER_MINUTE;
  cbv beta;
  cbn [clock requests limiter db callsPerMinute callsPerSecond windowStart
       secondWindowStart retryAfter fst snd];
  repeat (match goal with
          | |- context [if ?c then _ else _] => destruct c eqn:?
          end;
          cbv beta;
          cbn [clock requests limiter db callsPerMinute callsPerSecond windowStart
               secondWindowStart retryAfter fst snd]).


(** X2.  Outside a retry-after period, and off the exact end of a window,
    [waitForRateLimit] returns with room under both quotas: fewer than 2
    calls counted in the current second and fewer than 30 in the current
    minute. *)
Theorem waitForRateLimit_leaves_room :
  forall (w : world),
    blocked w = false ->
    (clock w - secondWindowStart (limiter w) <> 1000 ->
     callsPerSecond (limiter (waited w)) < MAX_CALLS_PER_SECOND)
    /\ (clock w - windowStart (limiter w) <> 60000 ->
        callsPerMinute (limiter (waited w)) < MAX_CALLS_PER_MINUTE).
Proof.
  intros [clk reqs [cpm cps ws sws ra] d]. unfold blocked.
  cbn [limiter retryAfter clock secondWindowStart windowStart]. intros Hb.
  split; intros Hne; wait_cases; try lia;
    destruct ra; try discriminate; congruence.
Qed.

Lemma waitForRateLimit_leaves_room_witness :
  blocked (startWorld emptyDb) = false
  /\ (clock (startWorld emptyDb) - secondWindowStart (limiter (startWorld emptyDb)) <> 1000 ->
      callsPerSecond (limiter (waited (startWorld emptyDb))) < MAX_CALLS_PER_SECOND)
  /\ (clock (startWorld emptyDb) - windowStart (limiter (startWorld emptyDb)) <> 60000 ->
      callsPerMinute (limiter (waited (startWorld emptyDb))) < MAX_CALLS_PER_MINUTE).
Proof.
  split; [reflexivity|].
  apply (waitForRateLimit_leaves_room (startWorld emptyDb)). reflexivity.
Defined.

(** X3.  Exactly 1000 ms after the second-window opened, a limiter at its
    per-second cap neither resets the window (the reset needs more than 1000
    ms) nor waits (the computed wait is 0): the call goes ahead with the
    counter still at the cap. *)
Theorem waitForRateLimit_passes_at_window_end :
  forall (w : world),
    blocked w = false ->
    clock w - secondWindowStart (limiter w) = 1000 ->
    MAX_CALLS_PER_SECOND <= callsPerSecond (limiter w) ->
    callsPerMinute (limiter w) < MAX_CALLS_PER_MINUTE ->
    clock w - windowStart (limiter w) <= 60000 ->
    waited w = w.
Proof.
  intros [clk reqs [cpm cps ws sws ra] d]. unfold blocked, MAX_CALLS_PER_SECOND,
    MAX_CALLS_PER_MINUTE.
  cbn [limiter retryAfter clock secondWindowStart windowStart callsPerSecond callsPerMinute].
  intros Hb Hs Hc Hm Hw.
  wait_cases; try lia; try reflexivity;
    destruct ra; try discriminate; congruence.
Qed.

Definition atWindowEnd : world :=
  mkWorld 1000 [] (mkLimiter 2 2 0 0 (Some 0)) emptyDb.

Lemma waitForRateLimit_passes_at_window_end_witness :
  waited atWindowEnd = atWindowEnd
  /\ callsPerSecond (limiter (waited atWindowEnd)) = MAX_CALLS_PER_SECOND.
Proof.
  assert (E : waited atWindowEnd = atWindowEnd).
  { apply (waitForRateLimit_passes_at_window_end atWindowEnd);
      try reflexivity; vm_compute; discriminate. }
  split; [exact E | rewrite E; reflexivity].
Defined.

(** ** Throughput of the limiter (v2, lines 33-98) *)

(** [n] operations issued back to back through one limiter; each succeeds at
    once. *)
Fixpoint backToBack (n : nat) : M unit :=
  match n with
  | O => ret tt
  | S k => backToBack k ;;; executeWithRateLimit 1 (ret tt)
  end.

(** The limiter after [k >= 1] such calls, started at [t0]: [q] full seconds
    have been waited. *)
Definition paced (t0 : Z) (k : Z) (w : world) : Prop :=
  exists q : Z,
    0 <= q
    /\ ((k = 2 * q + 1 /\ callsPerSecond (limiter w) = 1)
        \/ (k = 2 * q + 2 /\ callsPerSecond (limiter w) = 2))
    /\ clock w = t0 + 1000 * q
    /\ secondWindowStart (limiter w) = clock w
    /\ windowStart (limiter w) = t0
    /\ callsPerMinute (limiter w) = k
    /\ retryAfter (limiter w) = Some 0.

Lemma paced_first (w : world) :
  0 <= clock w -> limiter w = newRateLimitManager (clock w) ->
  paced (clock w) 1 (recorded (waited w)).
Proof.
  destruct w as [clk reqs l d]. cbn [clock limiter]. intros Hc ->.
  exists 0. unfold recorded, newRateLimitManager. wait_cases; try lia;
    cbn [limiter clock callsPerSecond callsPerMinute secondWindowStart windowStart
         retryAfter setLimiter];
    repeat split; try lia; try reflexivity; left; split; lia.
Qed.

Lemma paced_next (t0 k : Z) (w : world) :
  0 <= t0 -> 1 <= k < 30 -> paced t0 k w -> paced t0 (k + 1) (recorded (waited w)).
Proof.
  intros Ht Hk (q & Hq & Hpar & Hclk & Hsws & Hws & Hcpm & Hra).
  destruct w as [clk reqs [cpm cps ws sws ra] d].
  cbn [clock limiter callsPerSecond callsPerMinute secondWindowStart windowStart retryAfter]
    in *.
  subst ra sws ws cpm clk.
  destruct Hpar as [[Hk1 Hc]|[Hk2 Hc]]; subst cps.
  - exists q. unfold recorded. wait_cases; try lia;
      cbn [limiter clock callsPerSecond callsPerMinute secondWindowStart windowStart
           retryAfter setLimiter];
      repeat split; try lia; try reflexivity; right; split; lia.
  - exists (q + 1). unfold recorded. wait_cases; try lia;
      cbn [limiter clock callsPerSecond callsPerMinute secondWindowStart windowStart
           retryAfter setLimiter];
      repeat split; try lia; try reflexivity; left; split; lia.
Qed.

Lemma execute_instant (w : world) :
  executeWithRateLimit 1 (ret tt) w = (Return tt, recorded (waited w)).
Proof. rewrite executeWithRateLimit_step. reflexivity. Qed.

Lemma backToBack_paced (w0 : world) :
  0 <= clock w0 -> limiter w0 = newRateLimitManager (clock w0) ->
  forall n : nat,
    (n < 30)%nat ->
    exists w, backToBack (S n) w0 = (Return tt, w)
              /\ paced (clock w0) (Z.of_nat (S n)) w.
Proof.
  intros Hc Hl. induction n as [|n IH]; intros Hn.
  - cbn [backToBack]. unfold bind, ret at 1. rewrite execute_instant.
    eexists. split; [reflexivity|]. apply (paced_first w0 Hc Hl).
  - destruct IH as (w & E & Hp); [lia|].
    change (backToBack (S (S n))) with (backToBack (S n) ;;; executeWithRateLimit 1 (ret tt)).
    unfold bind. rewrite E, execute_instant.
    eexists. split; [reflexivity|].
    replace (Z.of_nat (S (S n))) with (Z.of_nat (S n) + 1) by lia.
    apply paced_next; [exact Hc | lia | exact Hp].
Qed.

(** X4.  Issued back to back through a fresh limiter, [n] instantaneous
    operations (1 <= n <= 30) all succeed, and the last returns exactly
    [1000 * ((n - 1) / 2)] ms after the first started: two calls go out per
    second.  Five operations take 2000 ms. *)
Theorem backToBack_takes_a_second_per_two_calls :
  forall (w0 : world) (n : nat),
    0 <= clock w0 ->
    limiter w0 = newRateLimitManager (clock w0) ->
    (1 <= n <= 30)%nat ->
    exists w,
      backToBack n w0 = (Return tt, w)
      /\ clock w = clock w0 + 1000 * ((Z.of_nat n - 1) / 2)
      /\ callsPerMinute (limiter w) = Z.of_nat n.
Proof.
  intros w0 n Hc Hl Hn. destruct n as [|n]; [lia|].
  destruct (backToBack_paced w0 Hc Hl n) as (w & E & q & Hq & Hpar & Hclk & _ & _ & Hcpm & _);
    [lia|].
  exists w. split; [exact E|]. split; [|exact Hcpm].
  rewrite Hclk. f_equal. f_equal.
  destruct Hpar as [[Hk _]|[Hk _]]; rewrite Hk.
  - replace (2 * q + 1 - 1) with (q * 2) by lia. rewrite Z.div_mul; lia.
  - replace (2 * q + 2 - 1) with (1 + q * 2) by lia.
    rewrite Z.div_add by lia. reflexivity.
Qed.

Definition freshWorld : world :=
  mkWorld 1700000000000 [] (newRateLimitManager 1700000000000) emptyDb.

Lemma backToBack_five_calls_witness :
  exists w,
    backToBack 5 freshWorld = (Return tt, w)
    /\ clock w = clock freshWorld + 1000 * ((Z.of_nat 5 - 1) / 2)
    /\ callsPerMinute (limiter w) = Z.of_nat 5.
Proof.
  apply (backToBack_takes_a_second_per_two_calls freshWorld 5);
    [vm_compute; discriminate | reflexivity | lia].
Defined.

(** ** Credentials (v2, lines 123-191) *)

(** The connection [id] is on file once, and its stored token decrypts. *)
Definition onFile (P : platform) (id : json) (w : world) (connection : row)
    (token : string) : Prop :=
  single (filter (whereEq "id" id) (zoom_connections (db w))) = Some connection
  /\ decryptToken P (col "access_token" connection) (col "zoom_email" connection)
     = Some token.

(** The stored expiry lies within five minutes of [now]. *)
Definition expiring (P : platform) (connection : row) (now : Z) : bool :=
  match newDate P (col "token_expires_at" connection) with
  | Some expiresAt => expiresAt <=? now + 5 * 60 * 1000
  | None => false
  end.

Lemma getZoomAccessToken_onFile (P : platform) (id : json) (w : world)
    (connection : row) (token : string) :
  onFile P id w connection token ->
  getZoomAccessToken P id w =
  (if expiring P connection (clock w) then
     refreshResponse <- fetch P (OAuthToken (col "refresh_token" connection)) ;;
     if negb (ok refreshResponse) then throw (Error "Failed to refresh token")
     else
       tokens <- responseJson refreshResponse ;;
       requireObject tokens ;;;
       t <- dateNow ;;
       match prop "expires_in" tokens with
       | JNum expires_in =>
           modifyDb (fun d =>
             setConnections
               (updateWhere (whereEq "id" id)
                  [("access_token",
                    encryptToken P (prop "access_token" tokens) (col "zoom_email" connection));
                   ("refresh_token", prop "refresh_token" tokens);
                   ("token_expires_at", JNum (t + expires_in * 1000))]
                  (zoom_connections d)) d) ;;;
           ret (prop "access_token" tokens)
       | _ => throw RangeError
       end
   else ret (JStr token)) w.
Proof.
  intros [Hs Hd]. unfold getZoomAccessToken, expiring.
  unfold bind at 1, getDb. rewrite Hs, Hd. unfold bind at 1, dateNow.
  reflexivity.
Qed.

(** X5.  For a connection on file, [getZoomAccessToken] calls the token
    endpoint exactly when the stored expiry is at most five minutes away (the
    bound included); otherwise, and whenever the expiry does not parse, it
    returns the decrypted stored token and changes nothing. *)
Theorem getZoomAccessToken_refreshes_within_horizon :
  forall (P : platform) (id : json) (w : world) (connection : row) (token : string),
    onFile P id w connection token ->
    (expiring P connection (clock w) = true ->
     requests (snd (getZoomAccessToken P id w))
     = OAuthToken (col "refresh_token" connection) :: requests w)
    /\ (expiring P connection (clock w) = false ->
        getZoomAccessToken P id w = (Return (JStr token), w))
    /\ (newDate P (col "token_expires_at" connection) = Some (clock w + 300000) ->
        expiring P connection (clock w) = true)
    /\ (newDate P (col "token_expires_at" connection) = None ->
        expiring P connection (clock w) = false).
Proof.
  intros P id w connection token H.
  rewrite (getZoomAccessToken_onFile P id w connection token H).
  split; [|split; [|split]].
  - intros He. rewrite He.
    unfold bind at 1. rewrite fetch_unfold.
    destruct (server P _ _) as [took r|took e]; [|reflexivity].
    destruct (ok r); cbn [negb]; [|reflexivity].
    unfold bind at 1, responseJson. destruct (body r) as [tokens|]; [|reflexivity].
    unfold ret at 1. unfold bind at 1, requireObject.
    destruct (nullish tokens); [reflexivity|].
    unfold ret at 1. unfold bind at 1, dateNow.
    destruct (prop "expires_in" tokens); reflexivity.
  - intros He. rewrite He. reflexivity.
  - intros Hd. unfold expiring. rewrite Hd. apply Z.leb_le. lia.
  - intros Hd. unfold expiring. rewrite Hd. reflexivity.
Qed.

Lemma getZoomAccessToken_refreshes_within_horizon_witness :
  let P := platformOf threeWebinars in
  let w := startWorld sampleDb in
  (expiring P sampleConnection (clock w) = true ->
   requests (snd (getZoomAccessToken P (JStr "conn-1") w))
   = OAuthToken (col "refresh_token" sampleConnection) :: requests w)
  /\ (expiring P sampleConnection (clock w) = false ->
      getZoomAccessToken P (JStr "conn-1") w = (Return (JStr "token"), w))
  /\ (newDate P (col "token_expires_at" sampleConnection) = Some (clock w + 300000) ->
      expiring P sampleConnection (clock w) = true)
  /\ (newDate P (col "token_expires_at" sampleConnection) = None ->
      expiring P sampleConnection (clock w) = false).
Proof.
  apply (getZoomAccessToken_refreshes_within_horizon (platformOf threeWebinars)
           (JStr "conn-1") (startWorld sampleDb) sampleConnection "token").
  split; reflexivity.
Defined.

Lemma filter_updateWhere (p : row -> bool) (patch : row) (rows : list row) :
  (forall r, p (applyPatch patch r) = p r) ->
  filter p (updateWhere p patch rows) = map (applyPatch patch) (filter p rows).
Proof.
  intros Hp. unfold updateWhere. induction rows as [|r rest IH]; [reflexivity|].
  cbn [map filter]. destruct (p r) eqn:E.
  - rewrite Hp, E. cbn [map]. rewrite IH. reflexivity.
  - rewrite E. exact IH.
Qed.

Lemma whereEq_applyPatch (k : string) (v : json) (patch r : row) :
  ~ In k (map fst patch) -> whereEq k v (applyPatch patch r) = whereEq k v r.
Proof. intros H. unfold whereEq. rewrite col_applyPatch_notin by exact H. reflexivity. Qed.

Lemma length_updateWhere (p : row -> bool) (patch : row) (rows : list row) :
  List.length (updateWhere p patch rows) = List.length rows.
Proof. unfold updateWhere. apply length_map. Qed.

(** The reply of the token endpoint to the refresh made from [w]. *)
Definition refreshReply (P : platform) (connection : row) (w : world)
    (took : Z) (tokens : json) (expires_in : Z) : Prop :=
  exists r,
    server P (OAuthToken (col "refresh_token" connection)) (List.length (requests w))
    = Fulfilled took r
    /\ ok r = true /\ body r = Some tokens /\ nullish tokens = false
    /\ prop "expires_in" tokens = JNum expires_in
    /\ prop "refresh_token" tokens <> JUndef.

Definition refreshed (P : platform) (id : json) (connection : row) (w : world)
    (took : Z) (tokens : json) (expires_in : Z) : world :=
  let t := clock w + Z.max 0 took in
  setDb
    (setConnections
       (updateWhere (whereEq "id" id)
          [("access_token",
            encryptToken P (prop "access_token" tokens) (col "zoom_email" connection));
           ("refresh_token", prop "refresh_token" tokens);
           ("token_expires_at", JNum (t + expires_in * 1000))]
          (zoom_connections (db w))) (db w))
    (setClock t (setRequests (OAuthToken (col "refresh_token" connection) :: requests w) w)).

Lemma getZoomAccessToken_refresh (P : platform) (id : json) (w : world)
    (connection : row) (token : string) (took : Z) (tokens : json) (expires_in : Z) :
  onFile P id w connection token ->
  expiring P connection (clock w) = true ->
  refreshReply P connection w took tokens expires_in ->
  getZoomAccessToken P id w
  = (Return (prop "access_token" tokens),
     refreshed P id connection w took tokens expires_in).
Proof.
  intros H He (r & Hs & Hok & Hb & Hn & Hx & _).
  rewrite (getZoomAccessToken_onFile P id w connection token H), He.
  unfold bind at 1. rewrite fetch_unfold, Hs, Hok. cbn [negb].
  unfold bind at 1, responseJson. rewrite Hb. unfold ret at 1.
  unfold bind at 1, requireObject. rewrite Hn. unfold ret at 1.
  unfold bind at 1, dateNow. rewrite Hx. reflexivity.
Qed.

(** X6.  A refresh that the token endpoint answers stores the new token for
    that connection only: the rows of [zoom_connections] with the
    connection's id get the encrypted new access token, the new refresh token
    and an expiry of [expires_in] seconds after the answer; no row is added or
    removed, and the new access token is returned. *)
Theorem getZoomAccessToken_stores_refreshed_token :
  forall (P : platform) (id : json) (w : world) (connection : row) (token : string)
         (took : Z) (tokens : json) (expires_in : Z),
    onFile P id w connection token ->
    expiring P connection (clock w) = true ->
    refreshReply P connection w took tokens expires_in ->
    exists w',
      getZoomAccessToken P id w = (Return (prop "access_token" tokens), w')
      /\ List.length (zoom_connections (db w')) = List.length (zoom_connections (db w))
      /\ Forall (fun r =>
                   whereEq "id" id r = true ->
                   col "access_token" r
                   = encryptToken P (prop "access_token" tokens) (col "zoom_email" connection)
                   /\ col "refresh_token" r = prop "refresh_token" tokens
                   /\ col "token_expires_at" r
                      = JNum (clock w + Z.max 0 took + expires_in * 1000))
                (zoom_connections (db w'))
      /\ Forall2 (fun before after =>
                    whereEq "id" id before = false -> after = before)
                 (zoom_connections (db w)) (zoom_connections (db w')).
Proof.
  intros P id w connection token took tokens expires_in H He Hr.
  eexists. split; [apply (getZoomAccessToken_refresh _ _ _ _ _ _ _ _ H He Hr)|].
  unfold refreshed. cbn [db setDb zoom_connections setConnections clock setClock].
  split; [apply length_updateWhere|].
  assert (Hnd : NoDup (map fst
            [("access_token",
              encryptToken P (prop "access_token" tokens) (col "zoom_email" connection));
             ("refresh_token", prop "refresh_token" tokens);
             ("token_expires_at", JNum (clock w + Z.max 0 took + expires_in * 1000))]))
    by (apply distinct_NoDup; reflexivity).
  split.
  - pose proof (updateWhere_sets (whereEq "id" id) _ "access_token" _
                  (zoom_connections (db w)) Hnd (or_introl eq_refl)) as H1.
    pose proof (updateWhere_sets (whereEq "id" id) _ "refresh_token" _
                  (zoom_connections (db w)) Hnd (or_intror (or_introl eq_refl))) as H2.
    pose proof (updateWhere_sets (whereEq "id" id) _ "token_expires_at" _
                  (zoom_connections (db w)) Hnd
                  (or_intror (or_intror (or_introl eq_refl)))) as H3.
    rewrite Forall_forall in *. intros r Hin Hp.
    repeat split; [apply (H1 r Hin Hp) | apply (H2 r Hin Hp) | apply (H3 r Hin Hp)].
  - unfold updateWhere. induction (zoom_connections (db w)) as [|r rest IH];
      cbn [map]; constructor; [|exact IH].
    intros Hf. rewrite Hf. reflexivity.
Qed.

(** X7.  A token refreshed for more than five minutes is not refreshed again:
    the next call made at once finds the connection still on file once,
    makes no request and returns the stored token. *)
Theorem getZoomAccessToken_reuses_refreshed_token :
  forall (P : platform) (id : json) (w : world) (connection : row) (token token' : string)
         (took : Z) (tokens : json) (expires_in : Z),
    onFile P id w connection token ->
    expiring P connection (clock w) = true ->
    refreshReply P connection w took tokens expires_in ->
    5 * 60 * 1000 < expires_in * 1000 ->
    decryptToken P
      (encryptToken P (prop "access_token" tokens) (col "zoom_email" connection))
      (col "zoom_email" connection) = Some token' ->
    let w' := snd (getZoomAccessToken P id w) in
    getZoomAccessToken P id w' = (Return (JStr token'), w').
Proof.
  intros P id w connection token token' took tokens expires_in H He Hr Hlong Hdec w'.
  subst w'. rewrite (getZoomAccessToken_refresh _ _ _ _ _ _ _ _ H He Hr). cbn [snd].
  set (patch := [("access_token",
                  encryptToken P (prop "access_token" tokens) (col "zoom_email" connection));
                 ("refresh_token", prop "refresh_token" tokens);
                 ("token_expires_at",
                  JNum (clock w + Z.max 0 took + expires_in * 1000))]).
  assert (Hnd : NoDup (map fst patch)) by (apply distinct_NoDup; reflexivity).
  assert (Hon : onFile P id (refreshed P id connection w took tokens expires_in)
                  (applyPatch patch connection) token').
  { destruct H as [Hs Hd]. unfold onFile, refreshed.
    cbn [db setDb zoom_connections setConnections clock setClock]. fold patch.
    rewrite filter_updateWhere.
    2:{ intros r. apply whereEq_applyPatch. cbn. intuition discriminate. }
    split.
    - destruct (filter (whereEq "id" id) (zoom_connections (db w))) as [|c [|c' rest]];
        try discriminate. inversion Hs; subst. reflexivity.
    - rewrite (col_applyPatch_in "access_token" _ patch connection Hnd (or_introl eq_refl)).
      rewrite col_applyPatch_notin by (cbn; intuition discriminate).
      exact Hdec. }
  rewrite (getZoomAccessToken_onFile _ _ _ _ _ Hon).
  assert (Hex : expiring P (applyPatch patch connection)
                  (clock (refreshed P id connection w took tokens expires_in)) = false).
  { unfold expiring.
    rewrite (col_applyPatch_in "token_expires_at" _ patch connection Hnd
               (or_intror (or_intror (or_introl eq_refl)))).
    cbn [newDate]. unfold refreshed. cbn [clock setDb setClock].
    apply Z.leb_gt. lia. }
  rewrite Hex. reflexivity.
Qed.

(** A connection whose token expires now, and a token endpoint that renews
    it for an hour. *)
Definition expiringConnection : row :=
  [("id", JStr "conn-1");
   ("access_token", JStr "sealed");
   ("refresh_token", JStr "refresh");
   ("token_expires_at", JNum 1700000000000);
   ("zoom_email", JStr "host@example.com")].

Definition expiringWorld : world :=
  startWorld (mkDb [expiringConnection] [] [] [] [] [] 1).

Definition renewedTokens : json :=
  JObj [("access_token", JStr "fresh"); ("refresh_token", JStr "next");
        ("expires_in", JNum 3600)].

Definition tokenServer (ep : endpoint) (n : nat) : fetchResult :=
  match ep with
  | OAuthToken _ => jsonOk renewedTokens
  | _ => threeWebinars ep n
  end.

Lemma expiringWorld_reply :
  refreshReply (platformOf tokenServer) expiringConnection expiringWorld 0 renewedTokens 3600.
Proof.
  exists (mkResponse true 200 (Some renewedTokens) "").
  repeat split; try reflexivity. discriminate.
Qed.

Lemma expiringWorld_onFile :
  onFile (platformOf tokenServer) (JStr "conn-1") expiringWorld expiringConnection "token".
Proof. split; reflexivity. Qed.

Lemma getZoomAccessToken_stores_refreshed_token_witness :
  exists w',
    getZoomAccessToken (platformOf tokenServer) (JStr "conn-1") expiringWorld
    = (Return (prop "access_token" renewedTokens), w')
    /\ List.length (zoom_connections (db w'))
       = List.length (zoom_connections (db expiringWorld))
    /\ Forall (fun r =>
                 whereEq "id" (JStr "conn-1") r = true ->
                 col "access_token" r
                 = encryptToken (platformOf tokenServer) (prop "access_token" renewedTokens)
                     (col "zoom_email" expiringConnection)
                 /\ col "refresh_token" r = prop "refresh_token" renewedTokens
                 /\ col "token_expires_at" r
                    = JNum (clock expiringWorld + Z.max 0 0 + 3600 * 1000))
              (zoom_connections (db w'))
    /\ Forall2 (fun before after =>
                  whereEq "id" (JStr "conn-1") before = false -> after = before)
               (zoom_connections (db expiringWorld)) (zoom_connections (db w')).
Proof.
  exact (getZoomAccessToken_stores_refreshed_token (platformOf tokenServer) (JStr "conn-1")
           expiringWorld expiringConnection "token" 0 renewedTokens 3600
           expiringWorld_onFile eq_refl expiringWorld_reply).
Defined.

Lemma getZoomAccessToken_reuses_refreshed_token_witness :
  let w' := snd (getZoomAccessToken (platformOf tokenServer) (JStr "conn-1") expiringWorld) in
  getZoomAccessToken (platformOf tokenServer) (JStr "conn-1") w' = (Return (JStr "token"), w').
Proof.
  apply (getZoomAccessToken_reuses_refreshed_token (platformOf tokenServer) (JStr "conn-1")
           expiringWorld expiringConnection "token" "token" 0 renewedTokens 3600
           expiringWorld_onFile eq_refl expiringWorld_reply);
    [reflexivity | reflexivity].
Defined.

(** ** Status derivation, both implementations *)

Lemma includes_In (v : json) :
  includes validStatuses v = true -> In (jsonString v) validStatuses.
Proof.
  unfold includes, validStatuses. intros H. apply existsb_exists in H.
  destruct H as (s & Hin & Heq). destruct v; cbn [strictEqStr] in Heq; try discriminate.
  apply String.eqb_eq in Heq. subst. exact Hin.
Qed.

(** X8.  Whatever the payload reports, the status [determineWebinarStatus]
    stores is one of waiting, started, finished and scheduled. *)
Theorem determineWebinarStatus_in_valid_set :
  forall (P : platform) (now : Z) (webinarDetails : json) (type : webinarType),
    In (determineWebinarStatus P now webinarDetails type) validStatuses.
Proof.
  intros P now d [|]; unfold determineWebinarStatus.
  - cbn. auto.
  - match goal with |- context [if ?c then "finished" else _] => destruct c end;
      [cbn; auto|].
    destruct (truthy (prop "status" d)); [|cbn; auto].
    destruct (includes validStatuses (prop "status" d)) eqn:E; [|cbn; auto].
    apply includes_In, E.
Qed.

(** X9.  A status other than finished and scheduled is stored only for an
    upcoming webinar whose payload reports exactly that status and whose
    start time, if it has one, is not in the past. *)
Theorem determineWebinarStatus_live_status_comes_from_payload :
  forall (P : platform) (now : Z) (webinarDetails : json) (type : webinarType),
    let result := determineWebinarStatus P now webinarDetails type in
    result = "finished"
    \/ result = "scheduled"
    \/ (type = upcoming
        /\ prop "status" webinarDetails = JStr result
        /\ (result = "waiting" \/ result = "started")
        /\ match startTimeOf P webinarDetails with
           | Some startTime => now <= startTime
           | None => True
           end).
Proof.
  intros P now d [|]; unfold determineWebinarStatus, startTimeOf; [left; reflexivity|].
  destruct (truthy (prop "start_time" d)).
  - destruct (newDate P (prop "start_time" d)) as [s|].
    + destruct (s <? now) eqn:Hs; [left; reflexivity|].
      apply Z.ltb_ge in Hs.
      destruct (truthy (prop "status" d)); [|right; left; reflexivity].
      destruct (includes validStatuses (prop "status" d)) eqn:E; [|right; left; reflexivity].
      pose proof (includes_In _ E) as Hin.
      destruct (prop "status" d) as [| | | |st| |]; try discriminate E.
      cbn [jsonString] in *. cbn in Hin.
      destruct Hin as [<-|[<-|[<-|[<-|[]]]]]; auto 10.
    + destruct (truthy (prop "status" d)); [|right; left; reflexivity].
      destruct (includes validStatuses (prop "status" d)) eqn:E; [|right; left; reflexivity].
      pose proof (includes_In _ E) as Hin.
      destruct (prop "status" d) as [| | | |st| |]; try discriminate E.
      cbn [jsonString] in *. cbn in Hin.
      destruct Hin as [<-|[<-|[<-|[<-|[]]]]]; auto 10.
  - destruct (truthy (prop "status" d)); [|right; left; reflexivity].
    destruct (includes validStatuses (prop "status" d)) eqn:E; [|right; left; reflexivity].
    pose proof (includes_In _ E) as Hin.
    destruct (prop "status" d) as [| | | |st| |]; try discriminate E.
    cbn [jsonString] in *. cbn in Hin.
    destruct Hin as [<-|[<-|[<-|[<-|[]]]]]; auto 10.
Qed.

(** X10.  A webinar that has started and is still within its duration is
    stored as started by the older sync and as finished by the queue based
    one, even when it was enumerated as upcoming. *)
Theorem running_webinar_started_then_finished :
  forall (P : platform) (now startTime minutes : Z) (webinar : json),
    truthy (prop "start_time" webinar) = true ->
    newDate P (prop "start_time" webinar) = Some startTime ->
    prop "duration" webinar = JNum minutes ->
    startTime < now <= startTime + minutes * 60 * 1000 ->
    ZoomWebinarSyncService.mapWebinarStatus P now webinar = "started"
    /\ determineWebinarStatus P now webinar upcoming = "finished".
Proof.
  intros P now s m d Ht Hd Hm [H1 H2]. split.
  - unfold ZoomWebinarSyncService.mapWebinarStatus. rewrite Hd, Hm.
    cbn [ZoomWebinarSyncService.durationMs].
    replace (now <? s) with false by (symmetry; apply Z.ltb_ge; lia).
    replace (now >=? s) with true by (symmetry; apply Z.geb_le; lia).
    replace (now <=? s + m * 60 * 1000) with true by (symmetry; apply Z.leb_le; lia).
    reflexivity.
  - unfold determineWebinarStatus. rewrite Ht, Hd.
    replace (s <? now) with true by (symmetry; apply Z.ltb_lt; lia).
    reflexivity.
Qed.

Lemma running_webinar_started_then_finished_witness :
  let webinar := JObj [("start_time", JNum 1000); ("duration", JNum 60);
                       ("status", JStr "started")] in
  ZoomWebinarSyncService.mapWebinarStatus (platformOf threeWebinars) 5000 webinar = "started"
  /\ determineWebinarStatus (platformOf threeWebinars) 5000 webinar upcoming = "finished".
Proof.
  apply (running_webinar_started_then_finished (platformOf threeWebinars) 5000 1000 60);
    try reflexivity.
  split; [reflexivity | discriminate].
Defined.

(** ** Participant statistics (v2, lines 343-388) *)

(** The durations that count towards the average: the positive ones. *)
Definition positiveDurations (participants : list json) : list Z :=
  flat_map (fun p => match prop "duration" p with
                     | JNum d => if d >? 0 then [d] else []
                     | _ => []
                     end) participants.

Definition total (l : list Z) : Z := fold_right Z.add 0 l.

Ltac same_pair :=
  match goal with
  | |- (Return (?a, ?b), ?w) = (Return (?c, ?d), ?w) =>
      apply (f_equal (fun x : Z * Z => (Return x, w)));
      apply f_equal2; lia
  end.

Lemma sumDurations_sums (participants : list json) :
  Forall (fun p => nullish p = false) participants ->
  forall (totalDuration validParticipants : Z) (w : world),
    sumDurations participants totalDuration validParticipants w
    = (Return (totalDuration + total (positiveDurations participants),
               validParticipants + Z.of_nat (List.length (positiveDurations participants))),
       w).
Proof.
  induction 1 as [|p rest Hp _ IH]; intros t v w.
  - cbn [sumDurations positiveDurations flat_map total fold_right List.length].
    unfold ret. same_pair.
  - cbn [sumDurations]. rewrite Hp. cbn [positiveDurations flat_map].
    fold (positiveDurations rest).
    destruct (prop "duration" p) as [| | |d| | |]; cbn [app]; try apply IH.
    destruct (d >? 0) eqn:Hd.
    + replace (negb (d =? 0)) with true
        by (symmetry; apply negb_true_iff, Z.eqb_neq; apply Z.gtb_lt in Hd; lia).
      cbn [andb]. rewrite IH. cbn [app total fold_right List.length].
      fold (total (positiveDurations rest)).
      same_pair.
    + rewrite andb_false_r. cbn [app]. apply IH.
Qed.

Lemma total_bounds (lo hi : Z) (l : list Z) :
  Forall (fun d => lo <= d <= hi) l ->
  Z.of_nat (List.length l) * lo <= total l <= Z.of_nat (List.length l) * hi.
Proof.
  induction 1 as [|d rest Hd _ IH]; [cbn; lia|].
  cbn [total fold_right List.length]. fold (total rest). lia.
Qed.

Lemma roundDiv_bounds (a n lo hi : Z) :
  0 < n -> n * lo <= a <= n * hi -> lo <= roundDiv a n <= hi.
Proof.
  intros Hn [Hlo Hhi]. unfold roundDiv. split.
  - apply Z.div_le_lower_bound; lia.
  - apply Z.lt_succ_r. apply Z.div_lt_upper_bound; lia.
Qed.



(** ** Pagination collects the pages (v2, lines 800-864; v1, lines 60-88) *)

(** A listing served in pages: the request numbered [first + i] of the run
    receives page [i], with a continuation token unless it is the last. *)
Definition pageBody (pages : list (list json)) (i : nat) : json :=
  JObj (("webinars", JArr (nth i pages []))
          :: (if (S i <? List.length pages)%nat
              then [("next_page_token", JStr "next")] else [])).

Definition paged (first : nat) (pages : list (list json)) (ep : endpoint) (n : nat)
  : fetchResult :=
  jsonOk (pageBody pages (n - first)).

Definition stubOf (type : webinarType) (w : json) : WebinarQueueItem :=
  mkItem (orj (prop "id" w) (prop "uuid" w)) type.

Lemma stubsOf_map (type : webinarType) (l : list json) (w : world) :
  Forall (fun x => nullish x = false) l ->
  stubsOf type l w = (Return (map (stubOf type) l), w).
Proof.
  induction 1 as [|x rest Hx _ IH]; [reflexivity|].
  cbn [stubsOf map]. rewrite Hx. unfold bind. rewrite IH. reflexivity.
Qed.

Lemma nth_Forall {A} (Q : A -> Prop) (l : list A) (d : A) (i : nat) :
  Forall Q l -> Q d -> Q (nth i l d).
Proof.
  intros H Hd. revert i. induction H as [|x rest Hx _ IH]; intros [|i]; cbn; auto.
Qed.

Lemma skipn_nth_cons {A} (l : list A) (d : A) (i : nat) :
  (i < List.length l)%nat -> skipn i l = nth i l d :: skipn (S i) l.
Proof.
  revert i. induction l as [|x rest IH]; intros i Hi; [cbn in Hi; lia|].
  destruct i as [|i]; [reflexivity|]. cbn [skipn nth]. apply IH. cbn in Hi. lia.
Qed.

Definition pageToken (pages : list (list json)) (i : nat) : json :=
  if (S i <? List.length pages)%nat then JStr "next" else JUndef.

Lemma fetchWebinarList_paged (first : nat) (pages : list (list json))
    (type : webinarType) (from to : option Z) (tok : json) (i : nat) (w : world) :
  List.length (requests w) = (first + i)%nat ->
  fetchWebinarList (platformOf (paged first pages)) type from to 100 tok w
  = (Return (JArr (nth i pages []), pageToken pages i),
     setClock (clock w + 0)
       (setRequests
          (ListWebinars type from to 100 (if truthy tok then Some tok else None)
             :: requests w) w)).
Proof.
  intros Hreq. unfold fetchWebinarList. unfold bind at 1. rewrite fetch_unfold, Hreq.
  cbn [server platformOf]. unfold paged.
  replace (first + i - first)%nat with i by lia.
  unfold pageToken, pageBody.
  destruct (S i <? List.length pages)%nat; reflexivity.
Qed.

Lemma listPages_paged (first retries : nat) (pages : list (list json))
    (type : webinarType) (from to : option Z) (syncId : json) (pct : Q) (start : nat) :
  Forall (Forall (fun x => nullish x = false)) pages ->
  forall (fuel i : nat) (tok : json) (pageCount : Z) (acc : list WebinarQueueItem)
         (w : world),
    (i < List.length pages)%nat ->
    (List.length pages - i <= fuel)%nat ->
    List.length (requests w) = (first + i)%nat ->
    exists w',
      listPages (platformOf (paged first pages)) (S retries) fuel type from to syncId pct
        start tok pageCount acc w
      = (Return (acc ++ flat_map (map (stubOf type)) (skipn i pages))%list, w')
      /\ List.length (requests w') = (first + List.length pages)%nat.
Proof.
  intros Hpages. induction fuel as [|fuel IH]; intros i tok pageCount acc w Hi Hfuel Hreq;
    [lia|].
  cbn [listPages]. unfold bind at 1. rewrite executeWithRateLimit_step.
  rewrite (fetchWebinarList_paged first pages type from to tok i (waited w))
    by (rewrite (proj1 (waited_frame w)); exact Hreq).
  unfold bind at 1.
  rewrite stubsOf_map by (apply nth_Forall; [exact Hpages | constructor]).
  unfold bind at 1. unfold broadcastProgress at 1, modifyDb at 1, modify at 1.
  rewrite (skipn_nth_cons pages [] i Hi). cbn [flat_map].
  unfold pageToken. destruct (S i <? List.length pages)%nat eqn:Hmore.
  - apply Nat.ltb_lt in Hmore. cbn [truthy negb String.eqb Ascii.eqb Bool.eqb].
    match goal with
    | |- context [listPages _ _ fuel _ _ _ _ _ _ ?t ?pc ?a ?w1] =>
        destruct (IH (S i) t pc a w1) as (w' & E & Hn)
    end; [lia | lia | cbn; rewrite (proj1 (waited_frame w)), Hreq; lia |].
    exists w'. split; [|exact Hn].
    rewrite E. rewrite <- app_assoc. reflexivity.
  - apply Nat.ltb_ge in Hmore. cbn [truthy].
    eexists. split.
    + unfold ret. rewrite (skipn_all2 pages) by lia. cbn [flat_map].
      rewrite app_nil_r. reflexivity.
    + cbn. rewrite (proj1 (waited_frame w)), Hreq. lia.
Qed.

Lemma flat_map_map_concat {A B} (f : A -> B) (l : list (list A)) :
  flat_map (map f) l = map f (List.concat l).
Proof.
  induction l as [|q qs IH]; [reflexivity|].
  cbn [flat_map List.concat]. rewrite map_app, IH. reflexivity.
Qed.

(** X12.  Against a listing served in [pages] (one or more), a listing loop
    of the queue based sync requests each page once and returns, in order,
    one work item per listed webinar: the items already collected followed by
    the stubs of every page. *)
Theorem listPages_collects_every_page :
  forall (pages : list (list json)) (type : webinarType) (from to : option Z)
         (syncId : json) (pct : Q) (start : nat) (acc : list WebinarQueueItem)
         (w : world),
    pages <> [] ->
    Forall (Forall (fun x => nullish x = false)) pages ->
    exists w',
      listPages (platformOf (paged (List.length (requests w)) pages))
        (List.length pages) (List.length pages) type from to syncId pct start JUndef 0 acc w
      = (Return (acc ++ map (stubOf type) (List.concat pages))%list, w')
      /\ List.length (requests w') = (List.length (requests w) + List.length pages)%nat.
Proof.
  intros pages type from to syncId pct start acc w Hne Hpages.
  destruct pages as [|p rest]; [contradiction|].
  destruct (listPages_paged (List.length (requests w)) (List.length rest) (p :: rest) type
              from to syncId pct start Hpages (List.length (p :: rest)) 0 JUndef 0 acc w)
    as (w' & Ew & Hn); [cbn; lia | lia | lia |].
  exists w'. split; [|exact Hn].
  etransitivity; [exact Ew|]. cbn [skipn].
  rewrite flat_map_map_concat. reflexivity.
Qed.

Lemma listPages_collects_every_page_witness :
  let pages := [[stub 1; stub 2]; [stub 3]] in
  exists w',
    listPages (platformOf (paged (List.length (requests (startWorld emptyDb))) pages))
      (List.length pages) (List.length pages) upcoming None (Some 0) (JNum 1) 10%Q 0
      JUndef 0 [] (startWorld emptyDb)
    = (Return ([] ++ map (stubOf upcoming) (List.concat pages))%list, w')
    /\ List.length (requests w')
       = (List.length (requests (startWorld emptyDb)) + List.length pages)%nat.
Proof.
  apply (listPages_collects_every_page [[stub 1; stub 2]; [stub 3]] upcoming None (Some 0)
           (JNum 1) 10%Q 0 [] (startWorld emptyDb)).
  - discriminate.
  - repeat constructor.
Defined.

Lemma fetchWebinarsLoop_paged (first : nat) (pages : list (list json)) :
  forall (fuel i : nat) (tok : json) (acc : list json) (w : world),
    (i < List.length pages)%nat -> (i < 10)%nat ->
    (Nat.min 10 (List.length pages) - i <= fuel)%nat ->
    List.length (requests w) = (first + i)%nat ->
    exists w',
      ZoomWebinarSyncService.fetchWebinarsLoop (platformOf (paged first pages)) fuel acc tok
        (Z.of_nat i) w
      = (Return (acc ++ List.concat (firstn (10 - i) (skipn i pages)))%list, w')
      /\ List.length (requests w') = (first + Nat.min 10 (List.length pages))%nat.
Proof.
  induction fuel as [|fuel IH]; intros i tok acc w Hi Hten Hfuel Hreq; [lia|].
  cbn [ZoomWebinarSyncService.fetchWebinarsLoop]. unfold bind at 1.
  rewrite fetch_unfold, Hreq. cbn [server platformOf]. unfold paged at 1.
  replace (first + i - first)%nat with i by lia.
  unfold jsonOk. cbn [ok negb]. unfold bind at 1, responseJson. cbn [body].
  unfold ret at 1. unfold bind at 1, requireObject.
  replace (nullish (pageBody pages i)) with false by reflexivity.
  unfold ret at 1.
  replace (prop "webinars" (pageBody pages i)) with (JArr (nth i pages [])) by reflexivity.
  replace (prop "next_page_token" (pageBody pages i)) with (pageToken pages i)
    by (unfold pageToken, pageBody; destruct (S i <? List.length pages)%nat; reflexivity).
  cbn [ZoomWebinarSyncService.pageItems].
  rewrite (skipn_nth_cons pages [] i Hi).
  replace (10 - i)%nat with (S (10 - S i)) by lia. cbn [firstn List.concat].
  unfold pageToken, ZoomWebinarSyncService.maxPages.
  destruct (S i <? List.length pages)%nat eqn:Hmore.
  - apply Nat.ltb_lt in Hmore. cbn [orj truthy negb String.eqb Ascii.eqb Bool.eqb andb].
    destruct (Z.of_nat i + 1 <? 10) eqn:Hlt.
    + apply Z.ltb_lt in Hlt.
      replace (Z.of_nat i + 1) with (Z.of_nat (S i)) by lia.
      match goal with
      | |- context [ZoomWebinarSyncService.fetchWebinarsLoop _ fuel ?a ?t _ ?w1] =>
          destruct (IH (S i) t a w1) as (w' & E & Hn)
      end; [lia | lia | lia | cbn; rewrite Hreq; lia |].
      exists w'. split; [|exact Hn]. rewrite E, <- app_assoc. reflexivity.
    + apply Z.ltb_ge in Hlt. eexists. split.
      * unfold ret. replace (10 - S i)%nat with 0%nat by lia.
        cbn [firstn List.concat]. rewrite app_nil_r. reflexivity.
      * cbn -[Nat.min]. rewrite Hreq. lia.
  - apply Nat.ltb_ge in Hmore. cbn [orj truthy negb String.eqb andb].
    eexists. split.
    + unfold ret. rewrite (skipn_all2 pages) by lia. rewrite firstn_nil.
      cbn [List.concat]. rewrite app_nil_r. reflexivity.
    + cbn -[Nat.min]. rewrite Hreq. lia.
Qed.

(** X13.  Against a listing served in [pages] (one or more), the older
    sync's [fetchWebinars] returns the webinars of the first ten pages, in
    order, after one request per page fetched: the webinars listed on an
    eleventh or later page are left out without an error. *)
Theorem fetchWebinars_keeps_first_ten_pages :
  forall (pages : list (list json)) (w : world),
    pages <> [] ->
    exists w',
      ZoomWebinarSyncService.fetchWebinars
        (platformOf (paged (List.length (requests w)) pages)) 10 w
      = (Return (List.concat (firstn 10 pages)), w')
      /\ List.length (requests w')
         = (List.length (requests w) + Nat.min 10 (List.length pages))%nat.
Proof.
  intros pages w Hne. unfold ZoomWebinarSyncService.fetchWebinars.
  destruct (fetchWebinarsLoop_paged (List.length (requests w)) pages 10 0 (JStr "") [] w)
    as (w' & E & Hn); [destruct pages; [contradiction | cbn; lia] | lia | lia | lia |].
  exists w'. split; [exact E | exact Hn].
Qed.

Lemma fetchWebinars_keeps_first_ten_pages_witness :
  let pages := map (fun i => [stub i]) [1; 2; 3; 4; 5; 6; 7; 8; 9; 10; 11; 12] in
  exists w',
    ZoomWebinarSyncService.fetchWebinars
      (platformOf (paged (List.length (requests (startWorld emptyDb))) pages)) 10
      (startWorld emptyDb)
    = (Return (List.concat (firstn 10 pages)), w')
    /\ List.length (requests w')
       = (List.length (requests (startWorld emptyDb)) + Nat.min 10 (List.length pages))%nat.
Proof.
  apply (fetchWebinars_keeps_first_ten_pages
           (map (fun i => [stub i]) [1; 2; 3; 4; 5; 6; 7; 8; 9; 10; 11; 12])
           (startWorld emptyDb)).
  discriminate.
Defined.

(** ** What a computation leaves alone *)

(** [along R m]: however [m] ends, and also when it is still running, the
    world it has reached is related by [R] to the one it started in. *)
Definition along (R : world -> world -> Prop) {A} (m : M A) : Prop :=
  forall w, R w (snd (m w)).

(** The store is as it was. *)
Definition sameStore (w w' : world) : Prop := db w' = db w.

Section Frame.

Variable R : world -> world -> Prop.
Hypothesis R_refl : forall w, R w w.
Hypothesis R_trans : forall a b c, R a b -> R b c -> R a c.

Lemma along_ret {A} (a : A) : along R (ret a).
Proof. intros w. apply R_refl. Qed.

Lemma along_throw {A} (e : error) : along R (@throw A e).
Proof. intros w. apply R_refl. Qed.

Lemma along_diverge {A} : along R (@diverge A).
Proof. intros w. apply R_refl. Qed.

Lemma along_bind {A B} (m : M A) (k : A -> M B) :
  along R m -> (forall a, along R (k a)) -> along R (bind m k).
Proof.
  intros Hm Hk w. specialize (Hm w). unfold bind.
  destruct (m w) as [[a|e|] w1]; cbn [snd] in *; [|exact Hm|exact Hm].
  apply (R_trans _ _ _ Hm), Hk.
Qed.

Lemma along_tryCatch {A} (m : M A) (h : error -> M A) :
  along R m -> (forall e, along R (h e)) -> along R (tryCatch m h).
Proof.
  intros Hm Hh w. specialize (Hm w). unfold tryCatch.
  destruct (m w) as [[a|e|] w1]; cbn [snd] in *; [exact Hm| |exact Hm].
  apply (R_trans _ _ _ Hm), Hh.
Qed.

Lemma along_getDb : along R getDb.
Proof. intros w. apply R_refl. Qed.

Lemma along_dateNow : along R dateNow.
Proof. intros w. apply R_refl. Qed.

Lemma along_nowISO : along R nowISO.
Proof. intros w. apply R_refl. Qed.

Lemma along_getLimiter : along R getLimiter.
Proof. intros w. apply R_refl. Qed.

Lemma along_responseJson (r : response) : along R (responseJson r).
Proof. unfold responseJson. destruct (body r); [apply along_ret | apply along_throw]. Qed.

Lemma along_requireObject (v : json) : along R (requireObject v).
Proof. unfold requireObject. destruct (nullish v); [apply along_throw | apply along_ret]. Qed.

Lemma along_when (b : bool) (m : M unit) : along R m -> along R (when b m).
Proof. intros H. destruct b; [exact H | apply along_ret]. Qed.

(** What [R] has to allow for the calls to the remote service to go along
    with it: any change that leaves the store alone. *)
Hypothesis R_store : forall w w', db w' = db w -> R w w'.

Lemma along_sameStore {A} (m : M A) : along sameStore m -> along R m.
Proof. intros H w. apply R_store, H. Qed.

End Frame.

Lemma sameStore_refl (w : world) : sameStore w w.
Proof. reflexivity. Qed.

Lemma sameStore_trans (a b c : world) : sameStore a b -> sameStore b c -> sameStore a c.
Proof. unfold sameStore. congruence. Qed.

Lemma sameStore_fetch (P : platform) (ep : endpoint) : along sameStore (fetch P ep).
Proof. intros w. rewrite fetch_unfold. destruct (server P ep _); reflexivity. Qed.

Lemma sameStore_sleep (ms : Z) : along sameStore (sleep ms).
Proof. intros w. reflexivity. Qed.

Lemma sameStore_putLimiter (l : RateLimitManager) : along sameStore (putLimiter l).
Proof. intros w. reflexivity. Qed.

Lemma sameStore_execute {T} (fn : M T) :
  along sameStore fn -> forall fuel, along sameStore (executeWithRateLimit fuel fn).
Proof.
  intros Hfn. induction fuel as [|fuel IH]; intros w; [reflexivity|].
  rewrite executeWithRateLimit_step. specialize (Hfn (waited w)).
  pose proof (proj1 (proj2 (waited_frame w))) as Hw. unfold sameStore in *.
  destruct (fn (waited w)) as [[v|e|] w2]; cbn [snd] in *.
  - unfold recorded. cbn [db setLimiter]. congruence.
  - destruct (is429 e); cbn [snd]; [|congruence].
    rewrite IH, (proj2 (backedOff_frame e w2)). congruence.
  - congruence.
Qed.

Create HintDb frame.
#[export] Hint Resolve along_ret along_throw along_diverge along_getDb along_dateNow
  along_nowISO along_getLimiter along_responseJson along_requireObject
  sameStore_refl sameStore_trans sameStore_fetch sameStore_sleep sameStore_putLimiter
  : frame.

(** One step of a proof that a computation goes along with a relation. *)
Ltac frame_step :=
  match goal with
  | |- along _ (bind _ _) => apply along_bind; [solve [eauto with frame] .. | | intro ]
  | |- along _ (tryCatch _ _) =>
      apply along_tryCatch; [solve [eauto with frame] .. | | intro ]
  | |- along sameStore (executeWithRateLimit _ _) => apply sameStore_execute
  | |- along _ (if ?b then _ else _) => destruct b
  | |- along _ (match ?x with _ => _ end) => destruct x
  | |- along _ (let '(_, _) := ?x in _) => destruct x
  | |- along _ _ => solve [ eauto with frame ]
  end.

Ltac frame := repeat frame_step.

Lemma sameStore_fetchWebinarList P type from to size token :
  along sameStore (fetchWebinarList P type from to size token).
Proof. unfold fetchWebinarList. frame. Qed.

Lemma sameStore_fetchWebinarDetails P id type :
  along sameStore (fetchWebinarDetails P id type).
Proof. unfold fetchWebinarDetails. frame. Qed.

Lemma sameStore_sumDurations (l : list json) :
  forall total valid, along sameStore (sumDurations l total valid).
Proof.
  induction l as [|p rest IH]; intros total valid; cbn [sumDurations]; frame; apply IH.
Qed.

Lemma sameStore_fetchRegistrantCount P fuel id :
  along sameStore (fetchRegistrantCount P fuel id).
Proof. unfold fetchRegistrantCount. frame. Qed.

Lemma sameStore_fetchParticipantData P fuel id :
  along sameStore (fetchParticipantData P fuel id).
Proof. unfold fetchParticipantData. frame. apply sameStore_sumDurations. Qed.

Lemma sameStore_addListField P fuel ep key field ad :
  along sameStore (addListField P fuel ep key field ad).
Proof. unfold addListField, fetchListField. frame. Qed.

Lemma sameStore_fetchAdditionalWebinarData P fuel id type :
  along sameStore (fetchAdditionalWebinarData P fuel id type).
Proof.
  pose proof sameStore_fetchRegistrantCount. pose proof sameStore_fetchParticipantData.
  pose proof sameStore_addListField.
  unfold fetchAdditionalWebinarData. destruct type; frame.
Qed.

Lemma sameStore_buildWebinarData P now conn type payload ad status :
  along sameStore (buildWebinarData P now conn type payload ad status).
Proof. unfold buildWebinarData. frame. Qed.

(** ** One work item *)

Lemma bind_inv_Throw {A B} (m : M A) (k : A -> M B) (w : world) (e : error) (w' : world) :
  bind m k w = (Throw e, w') ->
  m w = (Throw e, w')
  \/ exists a w1, m w = (Return a, w1) /\ k a w1 = (Throw e, w').
Proof.
  unfold bind. destruct (m w) as [[a|e0|] w1]; intros H; try discriminate.
  - right. exists a, w1. split; [reflexivity | exact H].
  - left. inversion H. reflexivity.
Qed.

Lemma along_at {A} (R : world -> world -> Prop) (m : M A) (w : world) o (w' : world) :
  along R m -> m w = (o, w') -> R w w'.
Proof. intros H E. specialize (H w). rewrite E in H. exact H. Qed.

(** Of the store, only the work items numbered [id] may have changed. *)
Definition onlyItem (id : json) (w w' : world) : Prop :=
  zoom_connections (db w') = zoom_connections (db w)
  /\ zoom_sync_logs (db w') = zoom_sync_logs (db w)
  /\ zoom_webinars (db w') = zoom_webinars (db w)
  /\ sync_state (db w') = sync_state (db w)
  /\ Forall2 (fun r r' => whereEq "id" id r = false -> r' = r)
       (webinar_sync_queue (db w)) (webinar_sync_queue (db w')).

Lemma Forall2_same {A} (Q : A -> A -> Prop) (l : list A) :
  (forall x, Q x x) -> Forall2 Q l l.
Proof. intros H. induction l; constructor; auto. Qed.

Lemma Forall2_chain {A} (Q : A -> A -> Prop) :
  (forall x y z, Q x y -> Q y z -> Q x z) ->
  forall l1 l2 l3, Forall2 Q l1 l2 -> Forall2 Q l2 l3 -> Forall2 Q l1 l3.
Proof.
  intros HQ l1 l2 l3 H12. revert l3.
  induction H12 as [|x y l1 l2 Hxy _ IH]; intros l3 H23; inversion H23; subst;
    constructor; eauto.
Qed.

Lemma onlyItem_refl (id : json) (w : world) : onlyItem id w w.
Proof. repeat split. apply Forall2_same. reflexivity. Qed.

Lemma onlyItem_trans (id : json) (a b c : world) :
  onlyItem id a b -> onlyItem id b c -> onlyItem id a c.
Proof.
  intros (A1 & A2 & A3 & A4 & A5) (B1 & B2 & B3 & B4 & B5).
  repeat split; try congruence.
  revert A5 B5. apply Forall2_chain.
  intros x y z Hxy Hyz Hx. rewrite <- (Hxy Hx). apply Hyz. rewrite (Hxy Hx). exact Hx.
Qed.

Lemma onlyItem_store (id : json) (w w' : world) : db w' = db w -> onlyItem id w w'.
Proof. intros H. unfold onlyItem. rewrite H. apply onlyItem_refl. Qed.

Lemma onlyItem_updateQueueItem (id : json) (patch : row) :
  along (onlyItem id) (updateQueueItem id patch).
Proof.
  intros w. repeat split. cbn.
  unfold updateWhere. induction (webinar_sync_queue (db w)) as [|r rest IH];
    cbn [map]; constructor; [|exact IH].
  intros H. rewrite H. reflexivity.
Qed.

Lemma onlyItem_broadcastProgress (id syncId : json) type msg details pct :
  along (onlyItem id) (broadcastProgress syncId type msg details pct).
Proof. intros w. repeat split. apply Forall2_same. reflexivity. Qed.

Lemma upsertWebinar_throw (P : platform) (r : row) (w : world) (e : error) (w' : world) :
  upsertWebinar P r w = (Throw e, w') -> w' = w.
Proof.
  unfold upsertWebinar. destruct (storeFault P _ _); intros H; [|discriminate].
  inversion H. reflexivity.
Qed.

(** X14.  A [processWebinar] that throws has stored nothing: the tables of
    webinars, sync logs, connections and sync states are as they were, and so
    is every work item but the ones with the identifier of the item being
    processed. *)
Theorem processWebinar_failure_stores_nothing :
  forall (P : platform) (fuel : nat) (item : row) (syncId connectionId : json)
         (w : world) (e : error) (w' : world),
    processWebinar P fuel item syncId connectionId w = (Throw e, w') ->
    zoom_webinars (db w') = zoom_webinars (db w)
    /\ zoom_sync_logs (db w') = zoom_sync_logs (db w)
    /\ zoom_connections (db w') = zoom_connections (db w)
    /\ sync_state (db w') = sync_state (db w)
    /\ Forall2 (fun r r' => whereEq "id" (col "id" item) r = false -> r' = r)
         (webinar_sync_queue (db w)) (webinar_sync_queue (db w')).
Proof.
  intros P fuel item syncId conn w e w' H.
  set (id := col "id" item).
  assert (Hlift : forall A (m : M A), along sameStore m -> along (onlyItem id) m)
    by (intros A m; apply along_sameStore, onlyItem_store).
  assert (HR : onlyItem id w w'); [|destruct HR as (H1 & H2 & H3 & H4 & H5); tauto].
  revert H. unfold processWebinar, tryCatch.
  match goal with
  | |- context [match ?m w with _ => _ end] => destruct (m w) as [[a|e0|] w0] eqn:Hbody
  end; intros H; try discriminate.
  apply (onlyItem_trans id w w0 w').
  - (* the [try] block, up to the point where it threw *)
    apply bind_inv_Throw in Hbody. destruct Hbody as [Hbody|(started & w1 & E1 & Hbody)];
      [discriminate|].
    inversion E1; subst w1; clear E1.
    apply bind_inv_Throw in Hbody. destruct Hbody as [Hbody|([] & w2 & E2 & Hbody)];
      [discriminate|].
    apply (along_at _ _ _ _ _ (onlyItem_updateQueueItem id _)) in E2.
    apply (onlyItem_trans id w w2 w0 E2).
    apply bind_inv_Throw in Hbody. destruct Hbody as [Hbody|(details & w3 & E3 & Hbody)].
    { exact (along_at _ _ _ _ _
               (Hlift _ _ (sameStore_execute _ (sameStore_fetchWebinarDetails _ _ _) _))
               Hbody). }
    apply (along_at _ _ _ _ _
             (Hlift _ _ (sameStore_execute _ (sameStore_fetchWebinarDetails _ _ _) _)))
      in E3.
    apply (onlyItem_trans id w2 w3 w0 E3).
    apply bind_inv_Throw in Hbody. destruct Hbody as [Hbody|(ad & w4 & E4 & Hbody)].
    { exact (along_at _ _ _ _ _
               (Hlift _ _ (sameStore_fetchAdditionalWebinarData _ _ _ _)) Hbody). }
    apply (along_at _ _ _ _ _ (Hlift _ _ (sameStore_fetchAdditionalWebinarData _ _ _ _)))
      in E4.
    apply (onlyItem_trans id w3 w4 w0 E4).
    apply bind_inv_Throw in Hbody. destruct Hbody as [Hbody|(now & w5 & E5 & Hbody)];
      [discriminate|].
    inversion E5; subst w5; clear E5.
    apply bind_inv_Throw in Hbody. destruct Hbody as [Hbody|(data & w6 & E6 & Hbody)].
    { exact (along_at _ _ _ _ _
               (Hlift _ _ (sameStore_buildWebinarData _ _ _ _ _ _ _)) Hbody). }
    apply (along_at _ _ _ _ _ (Hlift _ _ (sameStore_buildWebinarData _ _ _ _ _ _ _)))
      in E6.
    apply (onlyItem_trans id w4 w6 w0 E6).
    apply bind_inv_Throw in Hbody. destruct Hbody as [Hbody|([] & w7 & E7 & Hbody)].
    + apply upsertWebinar_throw in Hbody. subst w0. apply onlyItem_refl.
    + (* after the upsert nothing throws *)
      discriminate.
  - (* the [catch] block *)
    apply bind_inv_Throw in H. destruct H as [H|([] & w1 & E1 & H)]; [discriminate|].
    apply (along_at _ _ _ _ _ (onlyItem_updateQueueItem id _)) in E1.
    apply (onlyItem_trans id w0 w1 w' E1).
    apply bind_inv_Throw in H. destruct H as [H|([] & w2 & E2 & H)]; [discriminate|].
    apply (along_at _ _ _ _ _ (onlyItem_broadcastProgress id _ _ _ _ _)) in E2.
    inversion H; subst. exact E2.
Qed.

Lemma processWebinar_failure_stores_nothing_witness :
  exists e w',
    processWebinar (platformOf threeWebinars) 1 refusedItem (JNum 1) (JStr "conn-1")
      refusedWorld = (Throw e, w')
    /\ zoom_webinars (db w') = zoom_webinars (db refusedWorld)
    /\ zoom_sync_logs (db w') = zoom_sync_logs (db refusedWorld)
    /\ zoom_connections (db w') = zoom_connections (db refusedWorld)
    /\ sync_state (db w') = sync_state (db refusedWorld)
    /\ Forall2 (fun r r' => whereEq "id" (col "id" refusedItem) r = false -> r' = r)
         (webinar_sync_queue (db refusedWorld)) (webinar_sync_queue (db w')).
Proof.
  exists (Error "Failed to fetch webinar details: Webinar does not exist").
  exists (snd (processWebinar (platformOf threeWebinars) 1 refusedItem (JNum 1)
                 (JStr "conn-1") refusedWorld)).
  assert (E : processWebinar (platformOf threeWebinars) 1 refusedItem (JNum 1)
                (JStr "conn-1") refusedWorld
              = (Throw (Error "Failed to fetch webinar details: Webinar does not exist"),
                 snd (processWebinar (platformOf threeWebinars) 1 refusedItem (JNum 1)
                        (JStr "conn-1") refusedWorld)))
    by (vm_compute; reflexivity).
  split; [exact E|].
  exact (processWebinar_failure_stores_nothing _ _ _ _ _ _ _ _ E).
Defined.

Lemma upsertWebinar_return (P : platform) (r : row) (w w' : world) :
  upsertWebinar P r w = (Return tt, w') ->
  zoom_webinars (db w')
  = upsertRow webinarConflictTarget (serialize r) (zoom_webinars (db w)).
Proof.
  unfold upsertWebinar. destruct (storeFault P _ _); intros H; [discriminate|].
  inversion H. reflexivity.
Qed.

(** X15.  A [processWebinar] that returns has written one record into the
    table of webinars, by an upsert on (webinar_id, connection_id) of a record
    of the connection being synchronised, has marked the work items with the
    item's identifier completed, and has published a progress event of type
    [webinar] last. *)
Theorem processWebinar_success_stores_one_record :
  forall (P : platform) (fuel : nat) (item : row) (syncId connectionId : json)
         (w w' : world),
    processWebinar P fuel item syncId connectionId w = (Return tt, w') ->
    (exists webinarData : row,
        zoom_webinars (db w')
        = upsertRow webinarConflictTarget (serialize webinarData) (zoom_webinars (db w))
        /\ In ("connection_id", connectionId) webinarData)
    /\ Forall (fun r =>
                 whereEq "id" (col "id" item) r = true ->
                 col "processing_status" r = JStr "completed")
              (webinar_sync_queue (db w'))
    /\ exists earlier u,
         sync_progress_updates (db w') = (earlier ++ [u])%list
         /\ update_type u = "webinar" /\ sync_id u = syncId.
Proof.
  intros P fuel item syncId conn w w' H.
  set (id := col "id" item).
  assert (Hlift : forall A (m : M A), along sameStore m -> along (onlyItem id) m)
    by (intros A m; apply along_sameStore, onlyItem_store).
  revert H. unfold processWebinar, tryCatch.
  match goal with
  | |- context [match ?m w with _ => _ end] => destruct (m w) as [[[]|e0|] w0] eqn:Hbody
  end; intros H; try discriminate.
  inversion H; subst w0; clear H.
  apply bind_inv_Return in Hbody. destruct Hbody as (started & w1 & E1 & Hbody).
  inversion E1; subst w1; clear E1.
  apply bind_inv_Return in Hbody. destruct Hbody as ([] & w2 & E2 & Hbody).
  apply (along_at _ _ _ _ _ (onlyItem_updateQueueItem id _)) in E2.
  apply bind_inv_Return in Hbody. destruct Hbody as (details & w3 & E3 & Hbody).
  apply (along_at _ _ _ _ _
           (Hlift _ _ (sameStore_execute _ (sameStore_fetchWebinarDetails _ _ _) _)))
    in E3.
  apply bind_inv_Return in Hbody. destruct Hbody as (ad & w4 & E4 & Hbody).
  apply (along_at _ _ _ _ _ (Hlift _ _ (sameStore_fetchAdditionalWebinarData _ _ _ _)))
    in E4.
  apply bind_inv_Return in Hbody. destruct Hbody as (now & w5 & E5 & Hbody).
  inversion E5; subst w5; clear E5.
  apply bind_inv_Return in Hbody. destruct Hbody as (data & w6 & E6 & Hbody).
  pose proof (buildWebinarData_row _ _ _ _ _ _ _ _ _ _ E6) as (_ & _ & Hconn).
  apply (along_at _ _ _ _ _ (Hlift _ _ (sameStore_buildWebinarData _ _ _ _ _ _ _)))
    in E6.
  apply bind_inv_Return in Hbody. destruct Hbody as ([] & w7 & E7 & Hbody).
  apply upsertWebinar_return in E7.
  assert (Hsame : zoom_webinars (db w6) = zoom_webinars (db w)).
  { destruct E2 as (_ & _ & A2 & _), E3 as (_ & _ & A3 & _), E4 as (_ & _ & A4 & _),
      E6 as (_ & _ & A6 & _). congruence. }
  rewrite Hsame in E7.
  revert Hbody. unfold bind, nowISO, dateNow, ret, updateQueueItem, broadcastProgress,
    modifyDb, modify. intros Hbody. inversion Hbody; subst w'; clear Hbody.
  cbn [db setDb zoom_webinars webinar_sync_queue sync_progress_updates setQueue setProgress].
  split; [exists data; split; [exact E7 | exact Hconn]|].
  split.
  - apply updateWhere_sets; [apply distinct_NoDup; reflexivity | left; reflexivity].
  - eexists _, _. split; [reflexivity|]. split; reflexivity.
Qed.

Lemma processWebinar_success_stores_one_record_witness :
  exists w',
    processWebinar (platformOf threeWebinars) 1
      [("id", JNum 7); ("sync_id", JNum 1); ("webinar_id", JNum 1);
       ("webinar_type", JStr "past")]
      (JNum 1) (JStr "conn-1") refusedWorld = (Return tt, w')
    /\ (exists webinarData : row,
           zoom_webinars (db w')
           = upsertRow webinarConflictTarget (serialize webinarData)
               (zoom_webinars (db refusedWorld))
           /\ In ("connection_id", JStr "conn-1") webinarData)
    /\ Forall (fun r =>
                 whereEq "id" (JNum 7) r = true ->
                 col "processing_status" r = JStr "completed")
              (webinar_sync_queue (db w'))
    /\ exists earlier u,
         sync_progress_updates (db w') = (earlier ++ [u])%list
         /\ update_type u = "webinar" /\ sync_id u = JNum 1.
Proof.
  eexists. split; [vm_compute; reflexivity|].
  match goal with
  | |- context [zoom_webinars (db ?w1)] =>
      apply (processWebinar_success_stores_one_record (platformOf threeWebinars) 1
               [("id", JNum 7); ("sync_id", JNum 1); ("webinar_id", JNum 1);
                ("webinar_type", JStr "past")]
               (JNum 1) (JStr "conn-1") refusedWorld w1)
  end.
  vm_compute. reflexivity.
Defined.

(** ** The store only grows *)

(** No row has been deleted and no progress event taken back: the progress
    events of [d] are still there, in their order, before the ones published
    since; the table of connections has as many rows and no other table has
    fewer. *)
Definition growsDb (d d' : database) : Prop :=
  (exists more, sync_progress_updates d' = (sync_progress_updates d ++ more)%list)
  /\ List.length (zoom_connections d') = List.length (zoom_connections d)
  /\ (List.length (zoom_sync_logs d) <= List.length (zoom_sync_logs d'))%nat
  /\ (List.length (webinar_sync_queue d) <= List.length (webinar_sync_queue d'))%nat
  /\ (List.length (zoom_webinars d) <= List.length (zoom_webinars d'))%nat
  /\ (List.length (sync_state d) <= List.length (sync_state d'))%nat.

Definition grows (w w' : world) : Prop := growsDb (db w) (db w').

Lemma grows_refl (w : world) : grows w w.
Proof. repeat split; try lia. exists []. symmetry. apply app_nil_r. Qed.

Lemma grows_trans (a b c : world) : grows a b -> grows b c -> grows a c.
Proof.
  intros ((m1 & A1) & A2 & A3 & A4 & A5 & A6) ((m2 & B1) & B2 & B3 & B4 & B5 & B6).
  repeat split; try lia.
  exists (m1 ++ m2)%list. rewrite B1, A1, app_assoc. reflexivity.
Qed.

Lemma grows_store (w w' : world) : db w' = db w -> grows w w'.
Proof. intros H. unfold grows. rewrite H. apply (grows_refl w). Qed.

Lemma grows_modifyDb (f : database -> database) :
  (forall d, growsDb d (f d)) -> along grows (modifyDb f).
Proof. intros H w. apply H. Qed.

Lemma length_upsertRow (keys : list string) (r : row) (rows : list row) :
  (List.length rows <= List.length (upsertRow keys r rows))%nat.
Proof.
  induction rows as [|r' rest IH]; cbn [upsertRow List.length]; [lia|].
  destruct (conflicts keys r r'); cbn [List.length]; lia.
Qed.

(** A change of the store that [growsDb] allows. *)
Ltac grow :=
  apply grows_modifyDb; intros d; unfold growsDb;
  cbn [sync_progress_updates zoom_connections zoom_sync_logs webinar_sync_queue
       zoom_webinars sync_state setProgress setConnections setSyncLogs setQueue
       setWebinars setSyncState setNextId];
  rewrite ?length_app, ?length_updateWhere;
  repeat split; try lia; try apply length_upsertRow;
  try (eexists; reflexivity); try (exists []; symmetry; apply app_nil_r).

Lemma grows_broadcastProgress syncId type msg details pct :
  along grows (broadcastProgress syncId type msg details pct).
Proof. unfold broadcastProgress. grow. Qed.

Lemma grows_updateQueueItem id patch : along grows (updateQueueItem id patch).
Proof. unfold updateQueueItem. grow. Qed.

Lemma grows_upsertWebinar P r : along grows (upsertWebinar P r).
Proof.
  unfold upsertWebinar. destruct (storeFault P _ _); [apply along_throw, grows_refl|]. grow.
Qed.

#[export] Hint Resolve grows_refl grows_trans grows_broadcastProgress
  grows_updateQueueItem grows_upsertWebinar : frame.

Lemma grows_lift {A} (m : M A) : along sameStore m -> along grows m.
Proof. apply along_sameStore, grows_store. Qed.

Lemma grows_getZoomAccessToken P connectionId :
  along grows (getZoomAccessToken P connectionId).
Proof.
  unfold getZoomAccessToken.
  repeat first
    [ frame_step
    | apply grows_lift, sameStore_fetch
    | apply along_ret, grows_refl
    | grow ].
Qed.

Lemma grows_createSyncLog P connectionId syncMode dateRange :
  along grows (createSyncLog P connectionId syncMode dateRange).
Proof.
  unfold createSyncLog.
  repeat first [ frame_step | grow; cbn [List.length]; lia ].
Qed.

Lemma sameStore_stubsOf type (l : list json) : along sameStore (stubsOf type l).
Proof. induction l as [|x rest IH]; cbn [stubsOf]; frame. Qed.

Lemma grows_listPages P retries type from to syncId pct start :
  forall fuel token pageCount acc,
    along grows (listPages P retries fuel type from to syncId pct start token pageCount acc).
Proof.
  induction fuel as [|fuel IH]; intros token pageCount acc; cbn [listPages];
    [apply along_diverge, grows_refl|].
  apply along_bind; [exact grows_trans | |intros [webinars next]].
  { apply grows_lift, sameStore_execute, sameStore_fetchWebinarList. }
  apply along_bind; [exact grows_trans | |intros stubs].
  { apply grows_lift. destruct webinars; try apply along_throw, sameStore_refl.
    apply sameStore_stubsOf. }
  apply along_bind; [exact grows_trans | apply grows_broadcastProgress | intros _].
  destruct (truthy next); [apply IH | apply along_ret, grows_refl].
Qed.

Lemma grows_enumerateWebinars P fuel syncId from to :
  along grows (enumerateWebinars P fuel syncId from to).
Proof.
  pose proof grows_listPages. unfold enumerateWebinars. frame.
Qed.

Lemma length_insertQueueRows (rows : list row) :
  forall n, List.length (insertQueueRows rows n) = List.length rows.
Proof. induction rows as [|r rest IH]; intros n; cbn; [|rewrite IH]; reflexivity. Qed.

Lemma grows_queueWebinars P syncId connectionId allWebinars :
  along grows (queueWebinars P syncId connectionId allWebinars).
Proof.
  unfold queueWebinars.
  repeat first [ frame_step | grow ].
Qed.

Lemma grows_processWebinar P fuel item syncId connectionId :
  along grows (processWebinar P fuel item syncId connectionId).
Proof.
  pose proof (fun id t => grows_lift _ (sameStore_execute _ (sameStore_fetchWebinarDetails P id t) fuel)).
  pose proof (fun id t => grows_lift _ (sameStore_fetchAdditionalWebinarData P fuel id t)).
  pose proof (fun now c t d a s => grows_lift _ (sameStore_buildWebinarData P now c t d a s)).
  unfold processWebinar. frame.
Qed.

Lemma grows_drainQueue P fuel syncId connectionId total :
  forall items processed failed,
    along grows (drainQueue P fuel syncId connectionId total items processed failed).
Proof.
  pose proof grows_processWebinar.
  induction items as [|item rest IH]; intros processed failed; cbn [drainQueue];
    [apply along_ret, grows_refl|].
  apply along_bind; [exact grows_trans | | intros counts; apply IH].
  repeat first [ frame_step | grow ].
Qed.

Lemma grows_completeSync syncId syncMode dateRange allWebinars :
  along grows (completeSync syncId syncMode dateRange allWebinars).
Proof. unfold completeSync. repeat first [ frame_step | grow ]. Qed.

Lemma grows_syncRun P fuel req : along grows (syncRun P fuel req).
Proof.
  pose proof grows_createSyncLog. pose proof grows_getZoomAccessToken.
  pose proof grows_enumerateWebinars. pose proof grows_queueWebinars.
  pose proof grows_drainQueue. pose proof grows_completeSync.
  unfold syncRun, processQueue, dayCount.
  repeat first [ frame_step | apply grows_lift, sameStore_putLimiter ].
Qed.

(** X16.  Whatever the request and however the run ends, also when it fails
    or is still paginating or retrying, [serve] has deleted nothing: the
    progress events present at the start are still there, in their order,
    before the ones the run has published, the table of connections has as
    many rows as it had, and no other table has fewer rows than before. *)
Theorem serve_deletes_nothing :
  forall (P : platform) (fuel : nat) (req : request) (w : world),
    grows w (snd (serve P fuel req w)).
Proof.
  intros P fuel req.
  assert (H : along grows (serve P fuel req)); [|exact H].
  pose proof grows_syncRun. unfold serve. frame.
Qed.

(** ** Requests that are turned down *)

(** X17.  A request that is not a preflight and fails one of the checks made
    before the run starts (the environment is not configured, the body is not
    JSON, or it names no connection) is answered with status 500 and a body
    holding only an error message; the store, the clock, the limiter and the
    trace of requests are as they were: no sync log is created and the remote
    service is not called. *)
Theorem serve_refusal_changes_nothing :
  forall (P : platform) (fuel : nat) (req : request) (w : world),
    (method req =? "OPTIONS")%string = false ->
    envConfigured P = false
    \/ jsonBody req = None
    \/ (exists payload,
           jsonBody req = Some payload /\ truthy (prop "connectionId" payload) = false) ->
    exists msg : string,
      msg <> ""
      /\ serve P fuel req w = (Return (mkHttp 500 (JObj [("error", JStr msg)])), w).
Proof.
  intros P fuel req w Hm H. unfold serve. rewrite Hm. unfold tryCatch, syncRun.
  destruct (envConfigured P) eqn:Henv; cbn [negb].
  - destruct H as [H|[H|(payload & H & Hc)]]; [discriminate| |]; rewrite H.
    + eexists. split; [|reflexivity]. discriminate.
    + unfold bind at 1, requireObject.
      destruct (nullish payload).
      * eexists. split; [|reflexivity]. discriminate.
      * unfold ret at 1. rewrite Hc. cbn [negb].
        eexists. split; [|reflexivity]. discriminate.
  - eexists. split; [|reflexivity]. discriminate.
Qed.

Lemma serve_refusal_changes_nothing_witness :
  exists msg : string,
    msg <> ""
    /\ serve (platformOf threeWebinars) 1 (syncRequest [("syncMode", JStr "full")])
         (startWorld sampleDb)
       = (Return (mkHttp 500 (JObj [("error", JStr msg)])), startWorld sampleDb).
Proof.
  apply (serve_refusal_changes_nothing (platformOf threeWebinars) 1
           (syncRequest [("syncMode", JStr "full")]) (startWorld sampleDb)).
  - reflexivity.
  - right. right. exists (JObj [("syncMode", JStr "full")]). split; reflexivity.
Defined.

(** ** The older batch sync: the sync log *)

Lemma tryCatch_inv_Throw {A} (m : M A) (h : error -> M A) (w : world) (e : error)
    (w' : world) :
  tryCatch m h w = (Throw e, w') ->
  exists e0 w0, m w = (Throw e0, w0) /\ h e0 w0 = (Throw e, w').
Proof.
  unfold tryCatch. destruct (m w) as [[a|e0|] w0]; intros H; try discriminate.
  exists e0, w0. split; [reflexivity | exact H].
Qed.

(** The sync logs are the same rows under the same identifiers, in the same
    order; their other columns may have changed. *)
Definition sameLogIds (w w' : world) : Prop :=
  map (col "id") (zoom_sync_logs (db w')) = map (col "id") (zoom_sync_logs (db w)).

Lemma sameLogIds_refl (w : world) : sameLogIds w w.
Proof. reflexivity. Qed.

Lemma sameLogIds_trans (a b c : world) : sameLogIds a b -> sameLogIds b c -> sameLogIds a c.
Proof. unfold sameLogIds. congruence. Qed.

Lemma sameLogIds_store (w w' : world) : db w' = db w -> sameLogIds w w'.
Proof. intros H. unfold sameLogIds. rewrite H. reflexivity. Qed.

Lemma ids_updateWhere (p : row -> bool) (patch : row) (rows : list row) :
  ~ In "id" (map fst patch) ->
  map (col "id") (updateWhere p patch rows) = map (col "id") rows.
Proof.
  intros Hnot. unfold updateWhere. rewrite map_map. apply map_ext. intros r.
  destruct (p r); [apply col_applyPatch_notin, Hnot | reflexivity].
Qed.

Lemma sameLogIds_update (p : row -> bool) (patch : row) :
  ~ In "id" (map fst patch) ->
  along sameLogIds
    (modifyDb (fun d => setSyncLogs (updateWhere p patch (zoom_sync_logs d)) d)).
Proof. intros Hnot w. apply ids_updateWhere, Hnot. Qed.

#[export] Hint Resolve sameLogIds_refl sameLogIds_trans : frame.

Lemma sameLogIds_lift {A} (m : M A) : along sameStore m -> along sameLogIds m.
Proof. apply along_sameStore, sameLogIds_store. Qed.

Lemma sameStore_testZoomAPI P : along sameStore (ZoomWebinarSyncService.testZoomAPI P).
Proof. unfold ZoomWebinarSyncService.testZoomAPI. frame. Qed.

Lemma sameStore_fetchWebinarsLoop P :
  forall fuel acc token pageCount,
    along sameStore (ZoomWebinarSyncService.fetchWebinarsLoop P fuel acc token pageCount).
Proof.
  induction fuel as [|fuel IH]; intros acc token pageCount;
    cbn [ZoomWebinarSyncService.fetchWebinarsLoop]; frame.
Qed.

Lemma sameStore_webinarRows P now conn (batch : list json) :
  along sameStore (ZoomWebinarSyncService.webinarRows P now conn batch).
Proof.
  induction batch as [|x rest IH]; cbn [ZoomWebinarSyncService.webinarRows];
    unfold ZoomWebinarSyncService.webinarRow; frame.
Qed.

Lemma sameLogIds_updateSyncProgress id n :
  along sameLogIds (ZoomWebinarSyncService.updateSyncProgress id n).
Proof.
  unfold ZoomWebinarSyncService.updateSyncProgress. apply sameLogIds_update.
  cbn. intros [H|[]]. discriminate.
Qed.

Lemma sameLogIds_completeSyncLog id n status err :
  along sameLogIds (ZoomWebinarSyncService.completeSyncLog id n status err).
Proof.
  unfold ZoomWebinarSyncService.completeSyncLog.
  apply along_bind; [exact sameLogIds_trans | apply along_nowISO, sameLogIds_refl |].
  intros completed. apply sameLogIds_update.
  destruct err as [e|]; [destruct (e =? "")%string|]; cbn;
    intros H; repeat (destruct H as [H|H]; [discriminate|]); exact H.
Qed.

Lemma sameLogIds_saveBatches P conn id :
  forall fuel webinars count,
    along sameLogIds (ZoomWebinarSyncService.saveBatches P fuel webinars conn id count).
Proof.
  induction fuel as [|fuel IH]; intros webinars count;
    cbn [ZoomWebinarSyncService.saveBatches]; [apply along_diverge, sameLogIds_refl|].
  destruct webinars as [|x rest]; [apply along_ret, sameLogIds_refl|].
  apply along_bind; [exact sameLogIds_trans | apply along_dateNow, sameLogIds_refl |].
  intros now.
  apply along_bind;
    [exact sameLogIds_trans | apply sameLogIds_lift, sameStore_webinarRows |].
  intros rows. destruct (storeFault P _ _); [apply along_throw, sameLogIds_refl|].
  apply along_bind; [exact sameLogIds_trans | intros w; reflexivity |].
  intros _.
  apply along_bind; [exact sameLogIds_trans | apply sameLogIds_updateSyncProgress |].
  intros _. apply IH.
Qed.

(** What [completeSyncLog] does to the log it names. *)
Lemma completeSyncLog_failed (id : json) (total : Z) (msg : string) (w : world) :
  exists w',
    ZoomWebinarSyncService.completeSyncLog id total "failed" (Some msg) w = (Return tt, w')
    /\ sameLogIds w w'
    /\ Forall (fun r =>
                 whereEq "id" id r = true ->
                 col "status" r = JStr "failed"
                 /\ col "processed_items" r = JNum total
                 /\ col "completed_at" r = JNum (clock w)
                 /\ (msg <> "" -> col "error_message" r = JStr msg))
              (zoom_sync_logs (db w')).
Proof.
  exists (snd (ZoomWebinarSyncService.completeSyncLog id total "failed" (Some msg) w)).
  split; [reflexivity|]. split.
  - exact (sameLogIds_completeSyncLog id total "failed" (Some msg) w).
  - unfold ZoomWebinarSyncService.completeSyncLog, bind, nowISO, bind, dateNow, ret,
      modifyDb, modify.
    cbn [db setDb zoom_sync_logs setSyncLogs snd].
    apply Forall_forall. intros r Hr Hid.
    assert (Hall : forall k v patch,
               NoDup (map fst patch) -> In (k, v) patch ->
               In r (updateWhere (whereEq "id" id) patch (zoom_sync_logs (db w))) ->
               col k r = v).
    { intros k v patch Hnd Hin Hr'.
      pose proof (updateWhere_sets (whereEq "id" id) patch k v (zoom_sync_logs (db w)) Hnd Hin)
        as HF.
      rewrite Forall_forall in HF. exact (HF r Hr' Hid). }
    destruct (msg =? "")%string eqn:Em.
    + apply String.eqb_eq in Em.
      repeat split;
        try (eapply Hall; [ | | exact Hr]; [apply distinct_NoDup; reflexivity | cbn; tauto]).
      intros Hne. contradiction.
    + repeat split;
        try (eapply Hall; [ | | exact Hr]; [apply distinct_NoDup; reflexivity | cbn; tauto]).
      intros _. eapply Hall; [ | | exact Hr]; [apply distinct_NoDup; reflexivity | cbn; tauto].
Qed.

Lemma legacy_createSyncLog (P : platform) (conn type : json) (w : world) :
  (forall rows, storeFault P "zoom_sync_logs" rows = None) ->
  exists log w1,
    ZoomWebinarSyncService.createSyncLog P conn type w = (Return (JNum (next_id (db w))), w1)
    /\ zoom_sync_logs (db w1) = (zoom_sync_logs (db w) ++ [log])%list
    /\ col "id" log = JNum (next_id (db w)).
Proof.
  intros Hok. unfold ZoomWebinarSyncService.createSyncLog.
  unfold bind at 1, nowISO, bind at 1, dateNow, ret. unfold bind at 1, getDb.
  rewrite Hok. unfold bind, modifyDb, modify, ret.
  assert (E : col "id" (withDefault "id" (JNum (next_id (db w)))
                 (serialize
                    [("connection_id", conn); ("sync_type", type);
                     ("status", JStr "in_progress"); ("started_at", JNum (clock w));
                     ("total_items", JNum 0); ("processed_items", JNum 0)]))
              = JNum (next_id (db w))).
  { unfold col, withDefault.
    assert (Habs : assoc "id" (serialize
                    [("connection_id", conn); ("sync_type", type);
                     ("status", JStr "in_progress"); ("started_at", JNum (clock w));
                     ("total_items", JNum 0); ("processed_items", JNum 0)]) = JUndef)
      by (destruct conn, type; reflexivity).
    rewrite Habs. rewrite assoc_app_absent; [reflexivity | | exact Habs].
    intros v Hin. apply (serialize_defined _ _ _ Hin). }
  eexists _, _. split; [rewrite E; reflexivity|]. split; [reflexivity | exact E].
Qed.

Lemma last_row_by_id (ids : list json) (id : json) (rows : list row) :
  map (col "id") rows = (ids ++ [id])%list ->
  exists earlier log,
    rows = (earlier ++ [log])%list /\ List.length earlier = List.length ids
    /\ col "id" log = id.
Proof.
  intros H. destruct (exists_last (l := rows)) as (earlier & log & ->).
  { intros ->. destruct ids; discriminate. }
  rewrite map_app in H. cbn [map] in H. apply app_inj_tail in H. destruct H as [H1 H2].
  exists earlier, log. split; [reflexivity|]. split; [|exact H2].
  rewrite <- (length_map (col "id") earlier), H1. reflexivity.
Qed.

(** X18.  When the store accepts new sync logs, a run of the older sync that
    throws has left its own log as the last row of the table, marked [failed]
    with the time of completion and, when the error has a message, that
    message: no failure after the creation of the log leaves it
    [in_progress]. *)
Theorem syncWebinars_failure_marks_log_failed :
  forall (P : platform) (fuel : nat) (connectionId syncType requestId : json)
         (w : world) (e : error) (w' : world),
    (forall rows, storeFault P "zoom_sync_logs" rows = None) ->
    ZoomWebinarSyncService.syncWebinars P fuel connectionId syncType requestId w
    = (Throw e, w') ->
    exists earlier log,
      zoom_sync_logs (db w') = (earlier ++ [log])%list
      /\ List.length earlier = List.length (zoom_sync_logs (db w))
      /\ col "id" log = JNum (next_id (db w))
      /\ col "status" log = JStr "failed"
      /\ col "completed_at" log <> JUndef
      /\ (message e <> "" -> col "error_message" log = JStr (message e)).
Proof.
  intros P fuel conn type rid w e w' Hok H.
  destruct (legacy_createSyncLog P conn type w Hok) as (log0 & w1 & E1 & Hlogs & Hid).
  unfold ZoomWebinarSyncService.syncWebinars in H.
  unfold bind at 1 in H. rewrite E1 in H.
  set (id := JNum (next_id (db w))) in *.
  (* every failure goes through [completeSyncLog] in a world whose logs have
     the identifiers they had after the creation *)
  assert (Hend : exists total w0,
             sameLogIds w1 w0
             /\ w' = snd (ZoomWebinarSyncService.completeSyncLog id total "failed"
                            (Some (message e)) w0)).
  { apply bind_inv_Throw in H. destruct H as [H|(webinars & w2 & E2 & H)].
    - apply tryCatch_inv_Throw in H. destruct H as (e0 & w0 & Hbody & Hh).
      assert (Hh' : e0 = e
                    /\ w' = snd (ZoomWebinarSyncService.completeSyncLog id 0 "failed"
                                   (Some (message e0)) w0)).
      { revert Hh. unfold bind, ZoomWebinarSyncService.completeSyncLog, nowISO, bind,
          dateNow, ret, modifyDb, modify, throw. intros Hh. inversion Hh.
          split; reflexivity. }
      destruct Hh' as [-> Hw']. exists 0, w0. split; [|exact Hw'].
      refine (along_at sameLogIds _ _ _ _ _ Hbody).
      apply sameLogIds_lift.
      pose proof sameStore_testZoomAPI. pose proof sameStore_fetchWebinarsLoop.
      unfold ZoomWebinarSyncService.fetchWebinars. frame.
    - assert (H12 : sameLogIds w1 w2).
      { refine (along_at sameLogIds _ _ _ _ _ E2).
        apply along_tryCatch; [exact sameLogIds_trans | |].
        - apply sameLogIds_lift.
          pose proof sameStore_testZoomAPI. pose proof sameStore_fetchWebinarsLoop.
          unfold ZoomWebinarSyncService.fetchWebinars. frame.
        - intros e0. pose proof sameLogIds_completeSyncLog. frame. }
      apply tryCatch_inv_Throw in H. destruct H as (e0 & w0 & Hbody & Hh).
      assert (Hh' : e0 = e
                    /\ w' = snd (ZoomWebinarSyncService.completeSyncLog id
                                   (Z.of_nat (List.length webinars)) "failed"
                                   (Some (message e0)) w0)).
      { revert Hh. unfold bind, ZoomWebinarSyncService.completeSyncLog, nowISO, bind,
          dateNow, ret, modifyDb, modify, throw. intros Hh. inversion Hh.
          split; reflexivity. }
      destruct Hh' as [-> Hw']. exists (Z.of_nat (List.length webinars)), w0.
      split; [|exact Hw'].
      apply (sameLogIds_trans w1 w2 w0 H12).
      refine (along_at sameLogIds _ _ _ _ _ Hbody).
      pose proof sameLogIds_completeSyncLog. pose proof sameLogIds_saveBatches.
      unfold ZoomWebinarSyncService.saveWebinars.
      repeat first
        [ frame_step
        | apply sameLogIds_update; cbn; intros [Hx|[]]; discriminate ]. }
  destruct Hend as (total & w0 & H10 & Hw').
  destruct (completeSyncLog_failed id total (message e) w0) as (w3 & E3 & H03 & Hrows).
  rewrite E3 in Hw'. cbn [snd] in Hw'. subst w3.
  assert (Hids : map (col "id") (zoom_sync_logs (db w'))
                 = (map (col "id") (zoom_sync_logs (db w)) ++ [id])%list).
  { unfold sameLogIds in H10, H03. rewrite H03, H10, Hlogs, map_app. cbn [map].
    rewrite Hid. reflexivity. }
  destruct (last_row_by_id _ _ _ Hids) as (earlier & log & Hsplit & Hlen & Hlid).
  exists earlier, log. split; [exact Hsplit|]. split; [rewrite Hlen; apply length_map|].
  split; [exact Hlid|].
  rewrite Forall_forall in Hrows.
  destruct (Hrows log) as (Hs & _ & Hc & Hm).
  - rewrite Hsplit. apply in_or_app. right. left. reflexivity.
  - unfold whereEq. rewrite Hlid. apply sqlEq_refl. reflexivity.
  - split; [exact Hs|]. split; [rewrite Hc; discriminate | exact Hm].
Qed.

Lemma syncWebinars_failure_marks_log_failed_witness :
  exists e w' earlier log,
    ZoomWebinarSyncService.syncWebinars (platformOf listingDown) 10
      (JStr "conn-1") (JStr "incremental") (JStr "req-1") (startWorld sampleDb)
    = (Throw e, w')
    /\ zoom_sync_logs (db w') = (earlier ++ [log])%list
    /\ List.length earlier = List.length (zoom_sync_logs (db (startWorld sampleDb)))
    /\ col "id" log = JNum (next_id (db (startWorld sampleDb)))
    /\ col "status" log = JStr "failed"
    /\ col "completed_at" log <> JUndef
    /\ (message e <> "" -> col "error_message" log = JStr (message e)).
Proof.
  exists (ZoomWebinarSyncService.EdgeFunctionError "Failed to fetch webinars: 500" 500).
  exists (snd (ZoomWebinarSyncService.syncWebinars (platformOf listingDown) 10
                 (JStr "conn-1") (JStr "incremental") (JStr "req-1") (startWorld sampleDb))).
  assert (E : ZoomWebinarSyncService.syncWebinars (platformOf listingDown) 10
                (JStr "conn-1") (JStr "incremental") (JStr "req-1") (startWorld sampleDb)
              = (Throw (ZoomWebinarSyncService.EdgeFunctionError
                          "Failed to fetch webinars: 500" 500),
                 snd (ZoomWebinarSyncService.syncWebinars (platformOf listingDown) 10
                        (JStr "conn-1") (JStr "incremental") (JStr "req-1")
                        (startWorld sampleDb))))
    by (vm_compute; reflexivity).
  destruct (syncWebinars_failure_marks_log_failed (platformOf listingDown) 10
              (JStr "conn-1") (JStr "incremental") (JStr "req-1") (startWorld sampleDb)
              _ _ (fun _ => eq_refl) E) as (earlier & log & H).
  exists earlier, log. split; [exact E | exact H].
Defined.

(** ** The older batch sync: saving the webinars *)

Fixpoint json_eqb_eq (a b : json) {struct a} : json_eqb a b = true -> a = b.
Proof.
  destruct a as [| |x|x|x|xs|xs], b as [| |y|y|y|ys|ys]; cbn [json_eqb];
    try discriminate; intros H.
  - reflexivity.
  - reflexivity.
  - apply Bool.eqb_prop in H. congruence.
  - apply Z.eqb_eq in H. congruence.
  - apply String.eqb_eq in H. congruence.
  - f_equal. revert ys H.
    induction xs as [|x rest IH]; intros [|y ys] H; try discriminate; [reflexivity|].
    apply andb_prop in H. destruct H as [H1 H2].
    rewrite (json_eqb_eq x y H1), (IH ys H2). reflexivity.
  - f_equal. revert ys H.
    induction xs as [|[k x] rest IH]; intros [|[k' y] ys] H; try discriminate;
      [reflexivity|].
    apply andb_prop in H. destruct H as [H1 H2].
    apply andb_prop in H1. destruct H1 as [Hk Hx].
    apply String.eqb_eq in Hk.
    rewrite Hk, (json_eqb_eq x y Hx), (IH ys H2). reflexivity.
Qed.

Lemma sqlEq_eq (a b : json) : sqlEq a b = true -> a = b.
Proof.
  unfold sqlEq. intros H. apply andb_prop in H. destruct H as [_ H].
  apply json_eqb_eq, H.
Qed.

(** A row for webinar [wid] of connection [conn] is in the table. *)
Definition has (conn wid : json) (rows : list row) : Prop :=
  exists x, In x rows /\ col "connection_id" x = conn /\ col "webinar_id" x = wid.

Lemma keyed_cols (r : row) :
  keyed ZoomWebinarSyncService.conflictTarget r ->
  forall x,
    col "connection_id" (applyPatch r x) = col "connection_id" r
    /\ col "webinar_id" (applyPatch r x) = col "webinar_id" r.
Proof.
  intros [Hnd Hk] x. unfold ZoomWebinarSyncService.conflictTarget in Hk.
  inversion Hk as [|? ? (v1 & Hv1 & _) Hk']; subst.
  inversion Hk' as [|? ? (v2 & Hv2 & _) _]; subst.
  rewrite (col_applyPatch_in _ _ _ x Hnd Hv1), (col_applyPatch_in _ _ _ x Hnd Hv2).
  rewrite (col_In _ _ _ Hnd Hv1), (col_In _ _ _ Hnd Hv2). split; reflexivity.
Qed.

Lemma conflicts_cols (r x : row) :
  conflicts ZoomWebinarSyncService.conflictTarget r x = true ->
  col "connection_id" x = col "connection_id" r
  /\ col "webinar_id" x = col "webinar_id" r.
Proof.
  unfold conflicts, ZoomWebinarSyncService.conflictTarget. cbn [forallb]. intros H.
  apply andb_prop in H. destruct H as [H1 H]. apply andb_prop in H. destruct H as [H2 _].
  split; apply sqlEq_eq; assumption.
Qed.

Lemma upsertRow_has (r : row) :
  keyed ZoomWebinarSyncService.conflictTarget r ->
  forall rows,
    has (col "connection_id" r) (col "webinar_id" r)
      (upsertRow ZoomWebinarSyncService.conflictTarget r rows).
Proof.
  intros Hk. induction rows as [|x rest IH]; cbn [upsertRow].
  - exists r. split; [left; reflexivity | split; reflexivity].
  - destruct (conflicts _ r x) eqn:E.
    + exists (applyPatch r x). split; [left; reflexivity | apply keyed_cols, Hk].
    + destruct IH as (y & Hy & Hc). exists y. split; [right; exact Hy | exact Hc].
Qed.

Lemma upsertRow_keeps (r : row) (conn wid : json) :
  keyed ZoomWebinarSyncService.conflictTarget r ->
  forall rows,
    has conn wid rows ->
    has conn wid (upsertRow ZoomWebinarSyncService.conflictTarget r rows).
Proof.
  intros Hk. induction rows as [|x rest IH]; intros (y & Hy & Hc & Hw); [destruct Hy|].
  cbn [upsertRow]. destruct (conflicts _ r x) eqn:E.
  - destruct Hy as [->|Hy].
    + exists (applyPatch r y). split; [left; reflexivity|].
      destruct (keyed_cols r Hk y) as [K1 K2], (conflicts_cols r y E) as [C1 C2].
      split; congruence.
    + exists y. split; [right; exact Hy | split; assumption].
  - destruct Hy as [->|Hy].
    + exists y. split; [left; reflexivity | split; assumption].
    + destruct (IH (ex_intro _ y (conj Hy (conj Hc Hw)))) as (z & Hz & Hzc).
      exists z. split; [right; exact Hz | exact Hzc].
Qed.

Lemma upsertAll_has (payload : list row) :
  Forall (keyed ZoomWebinarSyncService.conflictTarget) payload ->
  forall rows,
    (forall conn wid, has conn wid rows ->
       has conn wid
         (fold_left (fun rows r => upsertRow ZoomWebinarSyncService.conflictTarget r rows)
            payload rows))
    /\ Forall (fun r =>
                 has (col "connection_id" r) (col "webinar_id" r)
                   (fold_left
                      (fun rows r => upsertRow ZoomWebinarSyncService.conflictTarget r rows)
                      payload rows))
              payload.
Proof.
  induction 1 as [|r rest Hr _ IH]; intros rows; cbn [fold_left].
  - split; [auto | constructor].
  - destruct (IH (upsertRow ZoomWebinarSyncService.conflictTarget r rows)) as [IH1 IH2].
    split.
    + intros conn wid H. apply IH1, upsertRow_keeps; assumption.
    + constructor; [|exact IH2]. apply IH1, upsertRow_has, Hr.
Qed.

(** A listed webinar the older sync can save: an object with an [id]. *)
Definition saveable (webinar : json) : Prop :=
  nullish webinar = false /\ nullish (prop "id" webinar) = false.

Lemma webinarRow_keyed (P : platform) (now : Z) (conn webinar : json) (w : world) :
  saveable webinar -> nullish conn = false ->
  exists r,
    ZoomWebinarSyncService.webinarRow P now conn webinar w = (Return r, w)
    /\ keyed ZoomWebinarSyncService.conflictTarget (serialize r)
    /\ col "connection_id" (serialize r) = conn
    /\ col "webinar_id" (serialize r) = JStr (toString (prop "id" webinar)).
Proof.
  intros [H1 H2] Hc. unfold ZoomWebinarSyncService.webinarRow. rewrite H1, H2.
  eexists. split; [reflexivity|].
  match goal with |- keyed _ (serialize ?r) /\ _ => set (r0 := r) end.
  assert (Hnd : NoDup (map fst (serialize r0)))
    by (apply serialize_NoDup, distinct_NoDup; reflexivity).
  assert (I1 : In ("connection_id", conn) (serialize r0)).
  { apply serialize_In; [left; reflexivity|]. apply nullish_not_undef, Hc. }
  assert (I2 : In ("webinar_id", JStr (toString (prop "id" webinar))) (serialize r0)).
  { apply serialize_In; [right; left; reflexivity | discriminate]. }
  split; [|split; apply col_In; assumption].
  split; [exact Hnd|].
  constructor; [exists conn; split; [exact I1 | exact Hc]|].
  constructor; [|constructor].
  eexists. split; [exact I2 | reflexivity].
Qed.

Lemma webinarRows_keyed (P : platform) (now : Z) (conn : json) (w : world) :
  nullish conn = false ->
  forall batch,
    Forall saveable batch ->
    exists rows,
      ZoomWebinarSyncService.webinarRows P now conn batch w = (Return rows, w)
      /\ Forall (keyed ZoomWebinarSyncService.conflictTarget) (map serialize rows)
      /\ Forall2 (fun webinar r =>
                    col "connection_id" r = conn
                    /\ col "webinar_id" r = JStr (toString (prop "id" webinar)))
           batch (map serialize rows).
Proof.
  intros Hc. induction 1 as [|x rest Hx _ (rows & E & Hk & Hv)];
    cbn [ZoomWebinarSyncService.webinarRows].
  - exists []. split; [reflexivity | split; constructor].
  - destruct (webinarRow_keyed P now conn x w Hx Hc) as (r & Er & Kr & C1 & C2).
    exists (r :: rows). unfold bind at 1. rewrite Er. unfold bind at 1. rewrite E.
    split; [reflexivity|]. cbn [map].
    split; constructor; auto.
Qed.

Lemma Forall2_has (conn : json) (batch : list json) (payload table : list row) :
  Forall2 (fun webinar r =>
             col "connection_id" r = conn
             /\ col "webinar_id" r = JStr (toString (prop "id" webinar)))
    batch payload ->
  Forall (fun r => has (col "connection_id" r) (col "webinar_id" r) table) payload ->
  Forall (fun webinar => has conn (JStr (toString (prop "id" webinar))) table) batch.
Proof.
  intros H. induction H as [|x r xs rs Hxr _ IH]; intros HF; [constructor|].
  destruct Hxr as [H1 H2]. apply Forall_cons_iff in HF. destruct HF as [Hr HF'].
  constructor; [|apply IH, HF']. rewrite H1, H2 in Hr. exact Hr.
Qed.

Lemma saveBatches_saves (P : platform) (conn id : json) :
  nullish conn = false ->
  (forall rows, storeFault P "zoom_webinars" rows = None) ->
  forall (fuel : nat) (webinars : list json) (count : Z) (w : world),
    Forall saveable webinars ->
    (List.length webinars < fuel)%nat ->
    exists w',
      ZoomWebinarSyncService.saveBatches P fuel webinars conn id count w = (Return tt, w')
      /\ requests w' = requests w
      /\ (forall c wid, has c wid (zoom_webinars (db w)) ->
                        has c wid (zoom_webinars (db w')))
      /\ Forall (fun webinar =>
                   has conn (JStr (toString (prop "id" webinar))) (zoom_webinars (db w')))
                webinars
      /\ (webinars = [] -> zoom_sync_logs (db w') = zoom_sync_logs (db w))
      /\ (webinars <> [] ->
          Forall (fun r =>
                    whereEq "id" id r = true ->
                    col "processed_items" r
                    = JNum (count + Z.of_nat (List.length webinars)))
                 (zoom_sync_logs (db w'))).
Proof.
  intros Hc Hok.
  induction fuel as [|fuel IH]; intros webinars count w Hall Hfuel; [lia|].
  cbn [ZoomWebinarSyncService.saveBatches].
  destruct webinars as [|x rest].
  { exists w. split; [reflexivity|]. split; [reflexivity|]. split; [auto|].
    split; [constructor|]. split; [reflexivity | intros H; contradiction]. }
  set (webinars := x :: rest) in *.
  set (batch := firstn ZoomWebinarSyncService.batchSize webinars).
  set (later := skipn ZoomWebinarSyncService.batchSize webinars).
  assert (Hsplit : webinars = (batch ++ later)%list)
    by (symmetry; apply firstn_skipn).
  assert (Hb : Forall saveable batch).
  { apply Forall_forall. intros y Hy. rewrite Forall_forall in Hall. apply Hall.
    rewrite Hsplit. apply in_or_app. left. exact Hy. }
  assert (Hl : Forall saveable later).
  { apply Forall_forall. intros y Hy. rewrite Forall_forall in Hall. apply Hall.
    rewrite Hsplit. apply in_or_app. right. exact Hy. }
  assert (Hlen : List.length webinars = (List.length batch + List.length later)%nat)
    by (rewrite Hsplit at 1; apply length_app).
  assert (Hpos : (0 < List.length batch)%nat) by (subst batch webinars; cbn; lia).
  unfold bind at 1, dateNow.
  destruct (webinarRows_keyed P (clock w) conn w Hc batch Hb) as (rows & Er & Hk & Hv).
  unfold bind at 1. rewrite Er. rewrite Hok.
  unfold bind at 1, modifyDb at 1, modify at 1.
  unfold bind at 1, ZoomWebinarSyncService.updateSyncProgress, modifyDb at 1, modify at 1.
  match goal with
  | |- context [ZoomWebinarSyncService.saveBatches P fuel later conn id ?c ?w1] =>
      destruct (IH later c w1 Hl ltac:(lia)) as (w' & E & Hreq & Hkeep & Hsaved & Hnil & Hcons);
      set (w1' := w1) in *
  end.
  exists w'. split; [exact E|].
  destruct (upsertAll_has (map serialize rows) Hk (zoom_webinars (db w))) as [U1 U2].
  assert (Htable : zoom_webinars (db w1')
                   = fold_left
                       (fun rows r => upsertRow ZoomWebinarSyncService.conflictTarget r rows)
                       (map serialize rows) (zoom_webinars (db w)))
    by reflexivity.
  split; [rewrite Hreq; reflexivity|].
  split; [intros c wid H; apply Hkeep; rewrite Htable; apply U1, H|].
  split.
  - rewrite Hsplit. apply Forall_app. split; [|exact Hsaved].
    pose proof (Forall2_has conn batch _ _ Hv U2) as HB.
    rewrite Forall_forall in *. intros y Hy. apply Hkeep. rewrite Htable. apply HB, Hy.
  - split; [discriminate|]. intros _.
    destruct later as [|y later'] eqn:El.
    + rewrite (Hnil eq_refl). subst w1'.
      cbn [db setDb zoom_sync_logs setSyncLogs setWebinars].
      rewrite Hlen. cbn [List.length]. rewrite Nat.add_0_r.
      apply updateWhere_sets; [apply distinct_NoDup; reflexivity | left; reflexivity].
    + assert (Hne : y :: later' <> []) by discriminate.
      specialize (Hcons Hne). rewrite Hlen.
      replace (count + Z.of_nat (List.length batch + List.length (y :: later')))
        with (count + Z.of_nat (List.length batch) + Z.of_nat (List.length (y :: later')))
        by lia.
      exact Hcons.
Qed.

(** X19.  When the store accepts the writes, [saveWebinars] called for a
    connection on a list of one or more webinars that each are an object with
    an [id] returns without a request to the remote service.  Afterwards the
    table of webinars holds, for every listed webinar, a row of that
    connection whose [webinar_id] is the webinar's [id] as a string; a
    (connection, webinar) pair that had a row before still has one; and the
    sync logs with the given identifier report as [processed_items] the
    number of webinars listed. *)
Theorem saveWebinars_saves_every_webinar :
  forall (P : platform) (webinars : list json) (connectionId syncLogId : json) (w : world),
    nullish connectionId = false ->
    (forall rows, storeFault P "zoom_webinars" rows = None) ->
    Forall saveable webinars ->
    webinars <> [] ->
    exists w',
      ZoomWebinarSyncService.saveWebinars P webinars connectionId syncLogId w
      = (Return tt, w')
      /\ requests w' = requests w
      /\ Forall (fun webinar =>
                   has connectionId (JStr (toString (prop "id" webinar)))
                     (zoom_webinars (db w')))
                webinars
      /\ (forall conn wid, has conn wid (zoom_webinars (db w)) ->
                           has conn wid (zoom_webinars (db w')))
      /\ Forall (fun r =>
                   whereEq "id" syncLogId r = true ->
                   col "processed_items" r = JNum (Z.of_nat (List.length webinars)))
                (zoom_sync_logs (db w')).
Proof.
  intros P webinars conn id w Hc Hok Hall Hne.
  unfold ZoomWebinarSyncService.saveWebinars.
  destruct (saveBatches_saves P conn id Hc Hok (S (List.length webinars)) webinars 0 w
              Hall ltac:(lia)) as (w' & E & Hreq & Hkeep & Hsaved & _ & Hlog).
  exists w'. repeat split; try assumption. exact (Hlog Hne).
Qed.

Lemma saveWebinars_saves_every_webinar_witness :
  exists w',
    ZoomWebinarSyncService.saveWebinars (platformOf threeWebinars)
      [stub 1; stub 2; stub 3] (JStr "conn-1") (JNum 1) (startWorld sampleDb)
    = (Return tt, w')
    /\ requests w' = requests (startWorld sampleDb)
    /\ Forall (fun webinar =>
                 has (JStr "conn-1") (JStr (toString (prop "id" webinar)))
                   (zoom_webinars (db w')))
              [stub 1; stub 2; stub 3]
    /\ (forall conn wid, has conn wid (zoom_webinars (db (startWorld sampleDb))) ->
                         has conn wid (zoom_webinars (db w')))
    /\ Forall (fun r =>
                 whereEq "id" (JNum 1) r = true ->
                 col "processed_items" r
                 = JNum (Z.of_nat (List.length [stub 1; stub 2; stub 3])))
              (zoom_sync_logs (db w')).
Proof.
  apply (saveWebinars_saves_every_webinar (platformOf threeWebinars)
           [stub 1; stub 2; stub 3] (JStr "conn-1") (JNum 1) (startWorld sampleDb)).
  - reflexivity.
  - reflexivity.
  - repeat constructor.
  - discriminate.
Defined.

(** ** The order of the work items (v2, lines 913-919) *)

From Stdlib Require Import Permutation Sorted.

(** [queueOrder] compares by priority, higher first, then by the scheduled
    instant, earlier first: any two rows compare, and the comparison chains. *)
Lemma queueOrder_total (a b : row) : queueOrder a b = false -> queueOrder b a = true.
Proof.
  unfold queueOrder. intros H. apply orb_false_iff in H. destruct H as [H1 H2].
  destruct (numOf (col "priority" b) >? numOf (col "priority" a)) eqn:E; [reflexivity|].
  cbn [orb]. rewrite Z.gtb_ltb in H1, E. apply Z.ltb_ge in H1, E.
  assert (Heq : numOf (col "priority" a) = numOf (col "priority" b)) by lia.
  rewrite Heq, Z.eqb_refl in *. cbn [andb] in *. apply Z.leb_gt in H2. apply Z.leb_le. lia.
Qed.

Lemma queueOrder_trans (a b c : row) :
  queueOrder a b = true -> queueOrder b c = true -> queueOrder a c = true.
Proof.
  unfold queueOrder. intros H1 H2.
  apply orb_true_iff in H1. apply orb_true_iff in H2. apply orb_true_iff.
  rewrite !Z.gtb_ltb, !andb_true_iff, !Z.ltb_lt, !Z.eqb_eq, !Z.leb_le in *.
  lia.
Qed.

Lemma insertOrdered_perm (r : row) (sorted : list row) :
  Permutation (insertOrdered r sorted) (r :: sorted).
Proof.
  induction sorted as [|x rest IH]; cbn [insertOrdered]; [apply Permutation_refl|].
  destruct (queueOrder r x); [apply Permutation_refl|].
  apply (perm_trans (perm_skip x IH)), perm_swap.
Qed.

Lemma insertOrdered_sorted (r : row) (sorted : list row) :
  StronglySorted (fun a b => queueOrder a b = true) sorted ->
  StronglySorted (fun a b => queueOrder a b = true) (insertOrdered r sorted).
Proof.
  induction 1 as [|x rest Hs IH Hx]; cbn [insertOrdered].
  - constructor; constructor.
  - destruct (queueOrder r x) eqn:E.
    + constructor; [constructor; assumption|].
      constructor; [exact E|].
      eapply Forall_impl; [|exact Hx]. intros y Hy. exact (queueOrder_trans r x y E Hy).
    + constructor; [exact IH|].
      apply (Permutation_Forall (Permutation_sym (insertOrdered_perm r rest))).
      constructor; [apply queueOrder_total, E | exact Hx].
Qed.


(** ** The drain *)

(** The work items keep their identifiers and only the ones numbered [id]
    may have changed. *)
Definition touches (id : json) (w w' : world) : Prop :=
  Forall2 (fun r r' => col "id" r' = col "id" r /\ (whereEq "id" id r = false -> r' = r))
    (webinar_sync_queue (db w)) (webinar_sync_queue (db w')).

Lemma touches_refl (id : json) (w : world) : touches id w w.
Proof. apply Forall2_same. intros x. split; reflexivity. Qed.

Lemma touches_trans (id : json) (a b c : world) :
  touches id a b -> touches id b c -> touches id a c.
Proof.
  apply Forall2_chain. intros x y z [I1 U1] [I2 U2]. split; [congruence|].
  intros Hx. rewrite <- (U1 Hx). apply U2. rewrite (U1 Hx). exact Hx.
Qed.

Lemma touches_store (id : json) (w w' : world) : db w' = db w -> touches id w w'.
Proof. intros H. unfold touches. rewrite H. apply (touches_refl id w). Qed.

Lemma serialize_keys (k : string) (r : row) :
  ~ In k (map fst r) -> ~ In k (map fst (serialize r)).
Proof.
  intros H Hin. apply H. apply in_map_iff in Hin. destruct Hin as (kv & Hk & Hin).
  apply in_map_iff. exists kv. split; [exact Hk|].
  unfold serialize in Hin. apply filter_In in Hin. apply Hin.
Qed.

Lemma touches_updateQueueItem (id : json) (patch : row) :
  ~ In "id" (map fst patch) -> along (touches id) (updateQueueItem id patch).
Proof.
  intros Hnot w. unfold touches. cbn.
  unfold updateWhere. induction (webinar_sync_queue (db w)) as [|r rest IH];
    cbn [map]; constructor; [|exact IH].
  split.
  - destruct (whereEq "id" id r); [|reflexivity].
    apply col_applyPatch_notin, serialize_keys, Hnot.
  - intros H. rewrite H. reflexivity.
Qed.

Lemma touches_processWebinar (P : platform) (fuel : nat) (item : row)
    (syncId connectionId : json) :
  along (touches (col "id" item)) (processWebinar P fuel item syncId connectionId).
Proof.
  set (id := col "id" item).
  assert (Hlift : forall A (m : M A), along sameStore m -> along (touches id) m)
    by (intros A m; apply along_sameStore, touches_store).
  assert (Hq : forall patch, ~ In "id" (map fst patch) ->
                             along (touches id) (updateQueueItem id patch))
    by (intros; apply touches_updateQueueItem; assumption).
  assert (Hb : forall s t m d p, along (touches id) (broadcastProgress s t m d p))
    by (intros s t m d p w; apply (touches_refl id w)).
  assert (Hu : forall r, along (touches id) (upsertWebinar P r)).
  { intros r w. unfold upsertWebinar. destruct (storeFault P _ _);
      apply (touches_refl id w). }
  pose proof (touches_refl id). pose proof (touches_trans id).
  unfold processWebinar. fold id.
  repeat first
    [ frame_step
    | apply Hq; cbn; intros Hin;
      repeat (destruct Hin as [Hin|Hin]; [discriminate|]); exact Hin
    | apply Hlift, sameStore_execute, sameStore_fetchWebinarDetails
    | apply Hlift, sameStore_fetchAdditionalWebinarData
    | apply Hlift, sameStore_buildWebinarData ].
Qed.

(** A work item that has been dealt with. *)
Definition done (r : row) : Prop :=
  col "processing_status" r = JStr "completed"
  \/ col "processing_status" r = JStr "failed".

Lemma done_not_pending (r : row) :
  done r -> whereEq "processing_status" (JStr "pending") r = false.
Proof. unfold whereEq. intros [H|H]; rewrite H; reflexivity. Qed.

(** What the [try] block of [processWebinar] leaves behind when it goes
    through. *)
Lemma processWebinar_return (P : platform) (fuel : nat) (item : row)
    (syncId conn : json) (w w' : world) :
  processWebinar P fuel item syncId conn w = (Return tt, w') ->
  Forall (fun r =>
            whereEq "id" (col "id" item) r = true ->
            col "processing_status" r = JStr "completed")
         (webinar_sync_queue (db w')).
Proof.
  unfold processWebinar, tryCatch.
  match goal with
  | |- context [match ?m w with _ => _ end] => destruct (m w) as [[[]|e0|] w0] eqn:Hbody
  end; intros H; try discriminate.
  inversion H; subst w0; clear H.
  do 7 (apply bind_inv_Return in Hbody; destruct Hbody as (? & ? & _ & Hbody)).
  apply bind_inv_Return in Hbody. destruct Hbody as (completed & w8 & E8 & Hbody).
  inversion E8; subst completed w8; clear E8.
  apply bind_inv_Return in Hbody. destruct Hbody as ([] & w9 & E9 & Hbody).
  revert Hbody. unfold broadcastProgress, modifyDb, modify. intros Hbody.
  inversion Hbody; subst w'; clear Hbody.
  revert E9. unfold updateQueueItem, modifyDb, modify. intros E9.
  inversion E9; subst w9; clear E9.
  cbn [db setDb webinar_sync_queue setProgress setQueue].
  apply updateWhere_sets; [apply distinct_NoDup; reflexivity | left; reflexivity].
Qed.

Lemma whereEq_same_id (id : json) (r r' : row) :
  col "id" r' = col "id" r -> whereEq "id" id r' = whereEq "id" id r.
Proof. unfold whereEq. intros ->. reflexivity. Qed.

(** One item of the drain: afterwards the work items numbered like it have
    been dealt with and the others are as they were. *)
Definition marks (item : row) (q q' : list row) : Prop :=
  Forall2 (fun r r' =>
             col "id" r' = col "id" r
             /\ if whereEq "id" (col "id" item) r then done r' else r' = r)
    q q'.

Lemma Forall2_Forall_r {A B} (Q : A -> B -> Prop) (F : B -> Prop) (l : list A)
    (l' : list B) :
  Forall2 Q l l' -> Forall F l' -> Forall2 (fun x y => Q x y /\ F y) l l'.
Proof.
  induction 1 as [|x y l l' Hxy _ IH]; intros HF; [constructor|].
  apply Forall_cons_iff in HF. destruct HF as [Hy HF]. constructor; auto.
Qed.

Lemma processWebinar_marks (P : platform) (fuel : nat) (item : row)
    (syncId conn : json) (w : world) :
  fst (processWebinar P fuel item syncId conn w) <> Diverge ->
  marks item (webinar_sync_queue (db w))
    (webinar_sync_queue (db (snd (processWebinar P fuel item syncId conn w)))).
Proof.
  intros Hend.
  pose proof (touches_processWebinar P fuel item syncId conn w) as Ht.
  destruct (processWebinar P fuel item syncId conn w) as [[[]|e|] w1] eqn:E;
    cbn [fst snd] in *; [| |contradiction].
  - pose proof (processWebinar_return _ _ _ _ _ _ _ E) as Hd.
    pose proof (Forall2_Forall_r _ _ _ _ Ht Hd) as H.
    unfold marks. eapply Forall2_impl; [|exact H].
    intros r r1 [[Hid Hun] Hdone]. cbn beta in *. split; [exact Hid|].
    destruct (whereEq "id" (col "id" item) r) eqn:Er.
    + left. apply Hdone. rewrite (whereEq_same_id _ _ _ Hid). exact Er.
    + apply Hun. reflexivity.
  - destruct (processWebinar_throw _ _ _ _ _ _ _ _ E) as (w0 & Hq & _).
    pose proof (failed_patch_applied (col "id" item) (message e) (nextRetryCount item)
                  (webinar_sync_queue (db w0)) (nextRetryCount_defined item)) as Hd.
    rewrite <- Hq in Hd.
    pose proof (Forall2_Forall_r _ _ _ _ Ht Hd) as H.
    unfold marks. eapply Forall2_impl; [|exact H].
    intros r r1 [[Hid Hun] Hdone]. cbn beta in *. split; [exact Hid|].
    destruct (whereEq "id" (col "id" item) r) eqn:Er.
    + right. apply Hdone. rewrite (whereEq_same_id _ _ _ Hid). exact Er.
    + apply Hun. reflexivity.
Qed.

(** Whether one of [items] has the identifier of [r]. *)
Definition claimed (items : list row) (r : row) : bool :=
  existsb (fun item => whereEq "id" (col "id" item) r) items.

Lemma claimed_same_id (items : list row) (r r1 : row) :
  col "id" r1 = col "id" r -> claimed items r1 = claimed items r.
Proof.
  intros H. unfold claimed. induction items as [|i rest IH]; [reflexivity|].
  cbn [existsb]. rewrite (whereEq_same_id _ _ _ H), IH. reflexivity.
Qed.

(** The drain of [items]: the work items numbered like one of them have been
    dealt with, the others are as they were. *)
Definition drained (items : list row) (q q' : list row) : Prop :=
  Forall2 (fun r r' =>
             col "id" r' = col "id" r /\ if claimed items r then done r' else r' = r)
    q q'.

Lemma drained_step (item : row) (rest q q1 q2 : list row) :
  marks item q q1 -> drained rest q1 q2 -> drained (item :: rest) q q2.
Proof.
  unfold marks, drained. intros H1. revert q2.
  induction H1 as [|r r1 q q1 HM _ IH]; intros q2 H2;
    inversion H2 as [|? r2 ? q3 HD H2t]; subst; constructor; [|apply IH; exact H2t].
  destruct HM as [I1 M1], HD as [I2 D2].
  split; [congruence|]. cbn [claimed existsb]. fold (claimed rest r).
  rewrite (claimed_same_id rest r r1 I1) in D2.
  destruct (whereEq "id" (col "id" item) r); cbn [orb].
  - destruct (claimed rest r); [exact D2 | rewrite D2; exact M1].
  - subst r1. exact D2.
Qed.

Lemma drainQueue_drains (P : platform) (fuel : nat) (syncId conn : json) (total : nat) :
  quiet P ->
  forall (items : list row) (processed failed : Z) (w : world),
    exists processed1 failed1 w1,
      drainQueue P (S fuel) syncId conn total items processed failed w
      = (Return (processed1, failed1), w1)
      /\ processed1 + failed1 = processed + failed + Z.of_nat (List.length items)
      /\ drained items (webinar_sync_queue (db w)) (webinar_sync_queue (db w1)).
Proof.
  intros HP. induction items as [|item rest IH]; intros processed failed w.
  - exists processed, failed, w. split; [reflexivity|]. split; [cbn; lia|].
    apply Forall2_same. intros r. split; reflexivity.
  - cbn [drainQueue].
    pose proof (settles_processWebinar P fuel item syncId conn HP w) as Hs.
    assert (Hend : fst (processWebinar P (S fuel) item syncId conn w) <> Diverge).
    { unfold settlesAt in Hs. intros E. rewrite E in Hs. exact Hs. }
    pose proof (processWebinar_marks P (S fuel) item syncId conn w Hend) as Hm.
    match goal with
    | |- context [bind (tryCatch ?m ?h) ?k] =>
        assert (Hstep : exists c w1,
                   tryCatch m h w = (Return c, w1)
                   /\ fst c + snd c = processed + failed + 1
                   /\ webinar_sync_queue (db w1)
                      = webinar_sync_queue
                          (db (snd (processWebinar P (S fuel) item syncId conn w))))
    end.
    { unfold tryCatch, bind at 1.
      destruct (processWebinar P (S fuel) item syncId conn w) as [[[]|e|] w2];
        [| |contradiction].
      - eexists _, _. split; [reflexivity|]. split; [cbn [fst snd]; lia | reflexivity].
      - eexists _, _. split; [reflexivity|]. split; [cbn [fst snd]; lia | reflexivity]. }
    destruct Hstep as (c & w1 & E1 & Hc & Hq).
    unfold bind at 1. rewrite E1.
    destruct (IH (fst c) (snd c) w1) as (p1 & f1 & w2 & E2 & Hsum & Hd).
    exists p1, f1, w2. split; [exact E2|]. split; [cbn [List.length]; lia|].
    rewrite Hq in Hd. exact (drained_step item rest _ _ _ Hm Hd).
Qed.

Lemma selectPending_In (syncId : json) (queue : list row) (r : row) :
  In r (filter (fun r => whereEq "sync_id" syncId r
                         && whereEq "processing_status" (JStr "pending") r) queue) ->
  In r (selectPending syncId queue).
Proof.
  unfold selectPending. induction (filter _ queue) as [|x rest IH]; intros H; [destruct H|].
  cbn [fold_right].
  apply (Permutation_in r (Permutation_sym (insertOrdered_perm x _))).
  destruct H as [->|H]; [left; reflexivity | right; apply IH, H].
Qed.

Lemma drained_nothing_pending (syncId : json) (items q q1 : list row) :
  drained items q q1 ->
  (forall r, In r q ->
             whereEq "sync_id" syncId r
             && whereEq "processing_status" (JStr "pending") r = true ->
             claimed items r = true) ->
  filter (fun r => whereEq "sync_id" syncId r
                   && whereEq "processing_status" (JStr "pending") r) q1 = [].
Proof.
  unfold drained. induction 1 as [|r r1 q q1 HR _ IH]; intros Hin; [reflexivity|].
  destruct HR as [Hid Hr]. cbn [filter].
  rewrite IH by (intros x Hx; apply Hin; right; exact Hx).
  destruct (claimed items r) eqn:Ec.
  - rewrite (done_not_pending r1 Hr), andb_false_r. reflexivity.
  - subst r1.
    destruct (whereEq "sync_id" syncId r
              && whereEq "processing_status" (JStr "pending") r) eqn:Ep; [|reflexivity].
    rewrite (Hin r (or_introl eq_refl) Ep) in Ec. discriminate.
Qed.



(** ** A run that is answered with 200 *)

(** Every work item has an identifier. *)
Definition numbered (w : world) : Prop :=
  Forall (fun r => nullish (col "id" r) = false) (webinar_sync_queue (db w)).

Definition staysNumbered (w w' : world) : Prop := numbered w -> numbered w'.

Lemma staysNumbered_refl (w : world) : staysNumbered w w.
Proof. intros H. exact H. Qed.

Lemma staysNumbered_trans (a b c : world) :
  staysNumbered a b -> staysNumbered b c -> staysNumbered a c.
Proof. unfold staysNumbered. auto. Qed.

Lemma staysNumbered_store (w w' : world) : db w' = db w -> staysNumbered w w'.
Proof. intros H. unfold staysNumbered, numbered. rewrite H. auto. Qed.

Lemma staysNumbered_lift {A} (m : M A) : along sameStore m -> along staysNumbered m.
Proof. apply along_sameStore, staysNumbered_store. Qed.

(** A change of the store that leaves the queue alone. *)
Lemma staysNumbered_elsewhere (f : database -> database) :
  (forall d, webinar_sync_queue (f d) = webinar_sync_queue d) ->
  along staysNumbered (modifyDb f).
Proof.
  intros H w Hn. unfold numbered. cbn. rewrite H. exact Hn.
Qed.

Lemma staysNumbered_broadcastProgress syncId type msg details pct :
  along staysNumbered (broadcastProgress syncId type msg details pct).
Proof. apply staysNumbered_elsewhere. reflexivity. Qed.

#[export] Hint Resolve staysNumbered_refl staysNumbered_trans
  staysNumbered_broadcastProgress : frame.

Lemma staysNumbered_createSyncLog P connectionId syncMode dateRange :
  along staysNumbered (createSyncLog P connectionId syncMode dateRange).
Proof.
  unfold createSyncLog.
  repeat first [ frame_step | apply staysNumbered_elsewhere; reflexivity ].
Qed.

Lemma staysNumbered_getZoomAccessToken P connectionId :
  along staysNumbered (getZoomAccessToken P connectionId).
Proof.
  unfold getZoomAccessToken.
  repeat first
    [ frame_step
    | apply staysNumbered_lift, sameStore_fetch
    | apply staysNumbered_elsewhere; reflexivity ].
Qed.

Lemma staysNumbered_listPages P retries type from to syncId pct start :
  forall fuel token pageCount acc,
    along staysNumbered
      (listPages P retries fuel type from to syncId pct start token pageCount acc).
Proof.
  induction fuel as [|fuel IH]; intros token pageCount acc; cbn [listPages];
    [apply along_diverge, staysNumbered_refl|].
  apply along_bind; [exact staysNumbered_trans | |intros [webinars next]].
  { apply staysNumbered_lift, sameStore_execute, sameStore_fetchWebinarList. }
  apply along_bind; [exact staysNumbered_trans | |intros stubs].
  { apply staysNumbered_lift. destruct webinars; try apply along_throw, sameStore_refl.
    apply sameStore_stubsOf. }
  apply along_bind;
    [exact staysNumbered_trans | apply staysNumbered_broadcastProgress | intros _].
  destruct (truthy next); [apply IH | apply along_ret, staysNumbered_refl].
Qed.

Lemma staysNumbered_enumerateWebinars P fuel syncId from to :
  along staysNumbered (enumerateWebinars P fuel syncId from to).
Proof. pose proof staysNumbered_listPages. unfold enumerateWebinars. frame. Qed.

Lemma insertQueueRows_numbered (syncId : json) (now : Z)
    (allWebinars : list WebinarQueueItem) :
  forall firstId : Z,
    Forall (fun r => nullish (col "id" r) = false)
      (insertQueueRows (queueItems syncId now allWebinars) firstId).
Proof.
  induction allWebinars as [|x rest IH]; intros firstId; [constructor|].
  cbn [queueItems map insertQueueRows]. constructor; [|apply IH].
  destruct syncId, (webinar_id x); reflexivity.
Qed.

Lemma staysNumbered_queueWebinars P syncId connectionId allWebinars :
  along staysNumbered (queueWebinars P syncId connectionId allWebinars).
Proof.
  unfold queueWebinars.
  repeat first
    [ frame_step
    | apply staysNumbered_elsewhere; reflexivity
    | intros w Hn; unfold numbered; cbn; apply Forall_app; split;
      [exact Hn | apply insertQueueRows_numbered] ].
Qed.

Lemma drainQueue_drained (P : platform) (fuel : nat) (syncId conn : json) (total : nat) :
  forall (items : list row) (processed failed : Z) (w : world) (counts : Z * Z)
         (w1 : world),
    drainQueue P fuel syncId conn total items processed failed w = (Return counts, w1) ->
    drained items (webinar_sync_queue (db w)) (webinar_sync_queue (db w1)).
Proof.
  induction items as [|item rest IH]; intros processed failed w counts w1 H.
  - inversion H; subst. apply Forall2_same. intros r. split; reflexivity.
  - cbn [drainQueue] in H.
    apply bind_inv_Return in H. destruct H as (c & w2 & E & H).
    assert (Hq : fst (processWebinar P fuel item syncId conn w) <> Diverge
                 /\ webinar_sync_queue (db w2)
                    = webinar_sync_queue
                        (db (snd (processWebinar P fuel item syncId conn w)))).
    { revert E. unfold tryCatch, bind at 1.
      destruct (processWebinar P fuel item syncId conn w) as [[[]|e|] w3];
        intros E; [| |discriminate].
      - split; [discriminate|]. inversion E. reflexivity.
      - split; [discriminate|]. inversion E. reflexivity. }
    destruct Hq as [Hend Hq].
    pose proof (processWebinar_marks P fuel item syncId conn w Hend) as Hm.
    apply IH in H. rewrite Hq in H.
    exact (drained_step item rest _ _ _ Hm H).
Qed.



(** ** The older batch sync: a run that goes through *)

(** The sync logs are the same rows under the same identifiers and with the
    same [total_items]. *)
Definition logKey (r : row) : json * json := (col "id" r, col "total_items" r).

Definition sameLogKeys (w w' : world) : Prop :=
  map logKey (zoom_sync_logs (db w')) = map logKey (zoom_sync_logs (db w)).

Lemma sameLogKeys_refl (w : world) : sameLogKeys w w.
Proof. reflexivity. Qed.

Lemma sameLogKeys_trans (a b c : world) :
  sameLogKeys a b -> sameLogKeys b c -> sameLogKeys a c.
Proof. unfold sameLogKeys. congruence. Qed.

Lemma sameLogKeys_update (p : row -> bool) (patch : row) :
  ~ In "id" (map fst patch) -> ~ In "total_items" (map fst patch) ->
  along sameLogKeys
    (modifyDb (fun d => setSyncLogs (updateWhere p patch (zoom_sync_logs d)) d)).
Proof.
  intros H1 H2 w. unfold sameLogKeys. cbn. unfold updateWhere. rewrite map_map.
  apply map_ext. intros r. destruct (p r); [|reflexivity].
  unfold logKey. rewrite !col_applyPatch_notin by assumption. reflexivity.
Qed.

Ltac absent :=
  cbn; intros Hin; repeat (destruct Hin as [Hin|Hin]; [discriminate|]); exact Hin.

Lemma sameLogKeys_saveBatches P conn id :
  forall fuel webinars count,
    along sameLogKeys (ZoomWebinarSyncService.saveBatches P fuel webinars conn id count).
Proof.
  induction fuel as [|fuel IH]; intros webinars count;
    cbn [ZoomWebinarSyncService.saveBatches]; [apply along_diverge, sameLogKeys_refl|].
  destruct webinars as [|x rest]; [apply along_ret, sameLogKeys_refl|].
  apply along_bind; [exact sameLogKeys_trans | apply along_dateNow, sameLogKeys_refl |].
  intros now.
  apply along_bind; [exact sameLogKeys_trans | |].
  { intros w. unfold sameLogKeys.
    rewrite (sameStore_webinarRows P now conn _ w). reflexivity. }
  intros rows. destruct (storeFault P _ _); [apply along_throw, sameLogKeys_refl|].
  apply along_bind; [exact sameLogKeys_trans | intros w; reflexivity |].
  intros _.
  apply along_bind; [exact sameLogKeys_trans | |intros _; apply IH].
  unfold ZoomWebinarSyncService.updateSyncProgress. apply sameLogKeys_update; absent.
Qed.



(** ** The calls made for one work item *)

(** [m] issues the requests [eps], the last one first, and no other. *)
Definition asks (eps : list endpoint) {A} (m : M A) : Prop :=
  forall w, requests (snd (m w)) = (eps ++ requests w)%list.

Lemma asks_nothing_bind {A B} (eps : list endpoint) (m : M A) (k : A -> M B) :
  asks [] m -> returns m -> (forall a, asks eps (k a)) -> asks eps (bind m k).
Proof.
  intros Hm Hr Hk w. destruct (Hr w) as (a & w1 & E). specialize (Hm w).
  unfold bind. rewrite E in *. cbn [snd app] in Hm. rewrite Hk, Hm. reflexivity.
Qed.

Lemma asks_bind_nothing {A B} (eps : list endpoint) (m : M A) (k : A -> M B) :
  asks eps m -> (forall a, asks [] (k a)) -> asks eps (bind m k).
Proof.
  intros Hm Hk w. specialize (Hm w). unfold bind.
  destruct (m w) as [[a|e|] w1]; cbn [snd] in *; try exact Hm.
  rewrite Hk. exact Hm.
Qed.

Lemma asks_bind {A B} (e1 e2 : list endpoint) (m : M A) (k : A -> M B) :
  asks e1 m -> returns m -> (forall a, asks e2 (k a)) -> asks (e2 ++ e1) (bind m k).
Proof.
  intros Hm Hr Hk w. destruct (Hr w) as (a & w1 & E). specialize (Hm w).
  unfold bind. rewrite E in *. cbn [snd] in Hm. rewrite Hk, Hm, app_assoc. reflexivity.
Qed.

Lemma asks_tryCatch {A} (eps : list endpoint) (m : M A) (h : error -> M A) :
  asks eps m -> (forall e, asks [] (h e)) -> asks eps (tryCatch m h).
Proof.
  intros Hm Hh w. specialize (Hm w). unfold tryCatch.
  destruct (m w) as [[a|e|] w1]; cbn [snd] in *; try exact Hm.
  rewrite Hh. exact Hm.
Qed.

Lemma asks_ret {A} (a : A) : asks [] (ret a).
Proof. intros w. reflexivity. Qed.

Lemma asks_throw {A} (e : error) : asks [] (@throw A e).
Proof. intros w. reflexivity. Qed.

Lemma asks_fetch (P : platform) (ep : endpoint) : asks [ep] (fetch P ep).
Proof. intros w. rewrite fetch_unfold. destruct (server P ep _); reflexivity. Qed.

Lemma asks_responseJson (r : response) : asks [] (responseJson r).
Proof. unfold responseJson. destruct (body r); [apply asks_ret | apply asks_throw]. Qed.

Lemma asks_requireObject (v : json) : asks [] (requireObject v).
Proof. unfold requireObject. destruct (nullish v); [apply asks_throw | apply asks_ret]. Qed.

Lemma asks_modifyDb (f : database -> database) : asks [] (modifyDb f).
Proof. intros w. reflexivity. Qed.

Lemma asks_sumDurations (l : list json) :
  forall total valid, asks [] (sumDurations l total valid).
Proof.
  induction l as [|p rest IH]; intros total valid; cbn [sumDurations];
    [apply asks_ret|].
  destruct (nullish p); [apply asks_throw|].
  destruct (prop "duration" p) as [| | |d| | |]; try apply IH.
  destruct (negb (d =? 0) && (d >? 0)); apply IH.
Qed.

(** A rate limited operation that is not turned away is run once. *)
Lemma asks_execute {T} (eps : list endpoint) (fuel : nat) (fn : M T) :
  settles fn -> asks eps fn -> asks eps (executeWithRateLimit (S fuel) fn).
Proof.
  intros Hs Ha w. rewrite executeWithRateLimit_step.
  specialize (Hs (waited w)). specialize (Ha (waited w)). unfold settlesAt in Hs.
  rewrite (proj1 (waited_frame w)) in Ha.
  destruct (fn (waited w)) as [[v|e|] w2]; cbn [fst snd] in *.
  - exact Ha.
  - rewrite Hs. exact Ha.
  - contradiction.
Qed.

Lemma asks_fetchWebinarDetails P id type :
  asks [match type with past => PastWebinarDetail id | upcoming => WebinarDetail id end]
    (fetchWebinarDetails P id type).
Proof.
  unfold fetchWebinarDetails. apply asks_bind_nothing; [apply asks_fetch|].
  intros r. destruct (negb (ok r)); [apply asks_throw|].
  apply asks_bind_nothing; [apply asks_responseJson|]. intros data.
  apply asks_bind_nothing; [apply asks_requireObject | intros; apply asks_ret].
Qed.

Lemma asks_fetchRegistrantCount P fuel id :
  quiet P -> asks [Registrants id] (fetchRegistrantCount P (S fuel) id).
Proof.
  intros HP. unfold fetchRegistrantCount.
  apply asks_tryCatch; [|intros; apply asks_ret].
  apply asks_bind_nothing.
  - apply asks_execute; [apply settles_fetch, HP | apply asks_fetch].
  - intros r. destruct (ok r); [|apply asks_ret].
    apply asks_bind_nothing; [apply asks_responseJson|]. intros data.
    apply asks_bind_nothing; [apply asks_requireObject | intros; apply asks_ret].
Qed.

Lemma asks_fetchParticipantData P fuel id :
  quiet P -> asks [Participants id] (fetchParticipantData P (S fuel) id).
Proof.
  intros HP. unfold fetchParticipantData.
  apply asks_tryCatch; [|intros; apply asks_ret].
  apply asks_bind_nothing.
  - apply asks_execute; [apply settles_fetch, HP | apply asks_fetch].
  - intros r. destruct (ok r); [|apply asks_ret].
    apply asks_bind_nothing; [apply asks_responseJson|]. intros data.
    apply asks_bind_nothing; [apply asks_requireObject|]. intros _.
    destruct (orj _ _); try apply asks_throw.
    apply asks_bind_nothing; [apply asks_sumDurations|]. intros [t v]. apply asks_ret.
Qed.

Lemma asks_addListField P fuel ep key field ad :
  quiet P -> asks [ep] (addListField P (S fuel) ep key field ad).
Proof.
  intros HP. unfold addListField.
  apply asks_tryCatch; [|intros; apply asks_ret].
  apply asks_bind_nothing; [|intros; apply asks_ret].
  unfold fetchListField. apply asks_execute.
  - settle.
  - apply asks_bind_nothing; [apply asks_fetch|].
    intros r. destruct (ok r); [|apply asks_ret].
    apply asks_bind_nothing; [apply asks_responseJson|]. intros data.
    apply asks_bind_nothing; [apply asks_requireObject | intros; apply asks_ret].
Qed.

(** The enrichment calls, the last one first. *)
Definition enrichmentCalls (id : json) (type : webinarType) : list endpoint :=
  match type with
  | past => [QA id; Polls id; Participants id; Registrants id]
  | upcoming => [TrackingSources id; Registrants id]
  end.

Lemma asks_fetchAdditionalWebinarData P fuel id type :
  quiet P ->
  asks (enrichmentCalls id type) (fetchAdditionalWebinarData P (S fuel) id type).
Proof.
  intros HP. unfold fetchAdditionalWebinarData, enrichmentCalls. destruct type.
  - apply (asks_bind [Registrants id] [QA id; Polls id; Participants id]);
      [apply asks_fetchRegistrantCount, HP | apply returns_fetchRegistrantCount, HP|].
    intros rc.
    apply (asks_bind [Participants id] [QA id; Polls id]).
    { apply asks_bind_nothing; [apply asks_fetchParticipantData, HP | intros; apply asks_ret]. }
    { apply returns_bind; [apply returns_fetchParticipantData, HP | intros; apply returns_ret]. }
    intros ad.
    apply asks_nothing_bind; [apply asks_ret | apply returns_ret|]. intros ad1.
    apply (asks_bind [Polls id] [QA id]);
      [apply asks_addListField, HP | apply returns_addListField, HP|].
    intros ad2. apply asks_addListField, HP.
  - apply (asks_bind [Registrants id] [TrackingSources id]);
      [apply asks_fetchRegistrantCount, HP | apply returns_fetchRegistrantCount, HP|].
    intros rc.
    apply asks_nothing_bind; [apply asks_ret | apply returns_ret|]. intros ad.
    apply (asks_bind [TrackingSources id] []);
      [apply asks_addListField, HP | apply returns_addListField, HP|].
    intros ad1. apply asks_ret.
Qed.

Lemma asks_buildWebinarData P now conn type payload ad status :
  asks [] (buildWebinarData P now conn type payload ad status).
Proof.
  unfold buildWebinarData.
  apply asks_bind_nothing.
  { destruct (truthy _); [destruct (newDate P _); [apply asks_ret | apply asks_throw]
                         | apply asks_ret]. }
  intros created. apply asks_bind_nothing; [|intros; apply asks_ret].
  destruct (truthy _); [|apply asks_ret].
  destruct (prop "alternative_hosts_email" payload); try apply asks_throw. apply asks_ret.
Qed.

Definition detailCall (id : json) (type : webinarType) : endpoint :=
  match type with past => PastWebinarDetail id | upcoming => WebinarDetail id end.

(** [m] issues the requests [e1], or else the requests [e2]. *)
Definition asksEither (e1 e2 : list endpoint) {A} (m : M A) : Prop :=
  forall w,
    requests (snd (m w)) = (e1 ++ requests w)%list
    \/ requests (snd (m w)) = (e2 ++ requests w)%list.

Lemma asksEither_after {A B} (e1 e2 : list endpoint) (m : M A) (k : A -> M B) :
  asks [] m -> returns m -> (forall a, asksEither e1 e2 (k a)) ->
  asksEither e1 e2 (bind m k).
Proof.
  intros Hm Hr Hk w. destruct (Hr w) as (a & w1 & E). specialize (Hm w).
  unfold bind. rewrite E in *. cbn [snd app] in Hm. rewrite <- Hm. apply Hk.
Qed.

Lemma asksEither_bind {A B} (e1 e : list endpoint) (m : M A) (k : A -> M B) :
  asks e1 m -> (forall a, asks e (k a)) -> asksEither e1 (e ++ e1) (bind m k).
Proof.
  intros Hm Hk w. specialize (Hm w). unfold bind.
  destruct (m w) as [[a|e0|] w1]; cbn [snd] in *; [|left; exact Hm|left; exact Hm].
  right. rewrite Hk, Hm, app_assoc. reflexivity.
Qed.

Lemma asksEither_tryCatch {A} (e1 e2 : list endpoint) (m : M A) (h : error -> M A) :
  asksEither e1 e2 m -> (forall e, asks [] (h e)) -> asksEither e1 e2 (tryCatch m h).
Proof.
  intros Hm Hh w. specialize (Hm w). unfold tryCatch.
  destruct (m w) as [[a|e|] w1]; cbn [snd] in *; try exact Hm.
  rewrite Hh. exact Hm.
Qed.



(** ** Calls that are turned away are not counted (v2, lines 33-52) *)

(** The first [n] requests of the run are turned away with a 429 that asks
    to retry after [header] seconds; every later one is answered. *)
Definition turnedAway (header : string) (n : nat) (ep : endpoint) (k : nat) : fetchResult :=
  if (k <? n)%nat then tooManyRequests (Some header) else jsonOk (JObj []).

(** The limiter has counted no call and is not inside a retry-after period. *)
Definition idle (w : world) : Prop :=
  callsPerSecond (limiter w) = 0 /\ callsPerMinute (limiter w) = 0 /\ blocked w = false.

Lemma waited_idle (w : world) :
  idle w ->
  clock (waited w) = clock w
  /\ callsPerSecond (limiter (waited w)) = 0
  /\ callsPerMinute (limiter (waited w)) = 0
  /\ retryAfter (limiter (waited w)) = retryAfter (limiter w).
Proof.
  destruct w as [clk reqs [cpm cps ws sws ra] d]. unfold idle, blocked.
  cbn [limiter retryAfter clock callsPerSecond callsPerMinute].
  intros (H1 & H2 & Hb). subst cpm cps.
  wait_cases; repeat split; try reflexivity; try lia;
    destruct ra; try discriminate; congruence.
Qed.

Lemma turnedAway_retries (n : nat) :
  forall (k : nat) (w : world),
    idle w ->
    List.length (requests w) = k ->
    exists r w',
      executeWithRateLimit (S n) (fetch (platformOf (turnedAway "0" (k + n))) UsersMe) w
      = (Return r, w')
      /\ List.length (requests w') = S (k + n)
      /\ clock w' = clock w.
Proof.
  induction n as [|n IH]; intros k w Hidle Hk.
  - rewrite executeWithRateLimit_step, fetch_unfold.
    destruct (waited_frame w) as (R & _ & _).
    destruct (waited_idle w Hidle) as (C & _).
    rewrite R, Hk. cbn [server platformOf]. unfold turnedAway at 1.
    replace (k <? k + 0)%nat with false by (symmetry; apply Nat.ltb_ge; lia).
    unfold jsonOk. eexists _, _. split; [reflexivity|].
    split; cbn [requests clock recorded setLimiter setClock setRequests List.length];
      rewrite ?R, ?Hk, ?C; lia.
  - rewrite executeWithRateLimit_step, fetch_unfold.
    destruct (waited_frame w) as (R & _ & _).
    destruct (waited_idle w Hidle) as (C & S1 & S2 & _).
    rewrite R, Hk. cbn [server platformOf]. unfold turnedAway at 1.
    replace (k <? k + S n)%nat with true by (symmetry; apply Nat.ltb_lt; lia).
    unfold tooManyRequests. cbn [is429 status Z.eqb Pos.eqb].
    replace (k + S n)%nat with (S k + n)%nat by lia.
    match goal with
    | |- context [executeWithRateLimit (S n) _ ?w1] =>
        destruct (IH (S k) w1) as (r & w' & E & L & Cl)
    end.
    + unfold idle, blocked, backedOff.
      change (retryAfterSeconds (mkError "Too Many Requests" (Some 429) (Some "0")))
        with (Some 0).
      cbn [limiter setClock setLimiter setRequests callsPerSecond callsPerMinute
           retryAfter clock].
      repeat split; try assumption. rewrite Z.gtb_ltb. apply Z.ltb_ge. lia.
    + rewrite (proj1 (backedOff_frame _ _)).
      cbn [requests setClock setRequests List.length]. rewrite ?R, ?Hk. reflexivity.
    + exists r, w'. split; [exact E|]. split; [exact L|].
      rewrite Cl. unfold backedOff.
      change (retryAfterSeconds (mkError "Too Many Requests" (Some 429) (Some "0")))
        with (Some 0).
      cbn [clock setClock setLimiter setRequests]. lia.
Qed.

(** X25.  A call that is turned away is not counted against the quotas, and
    a 429 that asks to retry after 0 seconds is retried without a wait: from
    a limiter that has counted no call, an operation turned away [n] times in
    this way is requested [n + 1] times and returns at the instant it
    started, for every [n]; the quota of two calls per second does not hold
    the retries back. *)
Theorem executeWithRateLimit_retries_at_once :
  forall (n : nat) (w : world),
    callsPerSecond (limiter w) = 0 ->
    callsPerMinute (limiter w) = 0 ->
    blocked w = false ->
    exists r w',
      executeWithRateLimit (S n)
        (fetch (platformOf (turnedAway "0" (List.length (requests w) + n))) UsersMe) w
      = (Return r, w')
      /\ List.length (requests w') = S (List.length (requests w) + n)
      /\ clock w' = clock w.
Proof.
  intros n w H1 H2 H3.
  apply (turnedAway_retries n (List.length (requests w)) w); [|reflexivity].
  repeat split; assumption.
Qed.

Lemma executeWithRateLimit_retries_at_once_witness :
  exists r w',
    executeWithRateLimit 11
      (fetch (platformOf (turnedAway "0" (List.length (requests freshWorld) + 10))) UsersMe)
      freshWorld
    = (Return r, w')
    /\ List.length (requests w') = S (List.length (requests freshWorld) + 10)
    /\ clock w' = clock freshWorld.
Proof.
  apply (executeWithRateLimit_retries_at_once 10 freshWorld); reflexivity.
Defined.

(** ** A 429 that comes as a response *)

(** X26.  A detail request that is answered with a response that is not ok,
    whatever its status (429 included), is not retried: the rate limited call
    throws an error that carries the text of the response and no status,
    after one request, without counting the call and without setting a
    retry-after period. *)
Theorem refused_response_is_not_retried :
  forall (P : platform) (fuel : nat) (id : json) (type : webinarType) (w : world)
         (took : Z) (r : response),
    server P (detailCall id type) (List.length (requests w)) = Fulfilled took r ->
    ok r = false ->
    exists w',
      executeWithRateLimit (S fuel) (fetchWebinarDetails P id type) w
      = (Throw (Error ("Failed to fetch webinar details: " ++ text r)), w')
      /\ requests w' = (detailCall id type :: requests w)%list
      /\ limiter w' = limiter (waited w)
      /\ db w' = db w.
Proof.
  intros P fuel id type w took r Hs Hok.
  rewrite executeWithRateLimit_step.
  destruct (waited_frame w) as (R & D & _).
  unfold fetchWebinarDetails. fold (detailCall id type).
  unfold bind at 1. rewrite fetch_unfold, R, Hs, Hok. cbn [negb].
  unfold throw. cbn [is429 status Error].
  eexists. split; [reflexivity|].
  cbn [requests limiter db setClock setRequests]. rewrite D. repeat split.
Qed.

Lemma refused_response_is_not_retried_witness :
  exists w',
    executeWithRateLimit 5
      (fetchWebinarDetails
         (platformOf (fun _ _ => Fulfilled 0 (mkResponse false 429 None "Too Many Requests")))
         (JNum 1) upcoming) freshWorld
    = (Throw (Error ("Failed to fetch webinar details: "
                       ++ text (mkResponse false 429 None "Too Many Requests"))), w')
    /\ requests w' = (detailCall (JNum 1) upcoming :: requests freshWorld)%list
    /\ limiter w' = limiter (waited freshWorld)
    /\ db w' = db freshWorld.
Proof.
  apply (refused_response_is_not_retried
           (platformOf (fun _ _ => Fulfilled 0 (mkResponse false 429 None "Too Many Requests")))
           4 (JNum 1) upcoming freshWorld 0
           (mkResponse false 429 None "Too Many Requests")); reflexivity.
Defined.

(** ** The two listings (v2, lines 790-867) *)

(** A listing answered in one page: an object whose [webinars] are [l] and
    that hands out no continuation token. *)
Definition onePage (data : json) (l : list json) : Prop :=
  nullish data = false
  /\ prop "webinars" data = JArr l
  /\ truthy (prop "next_page_token" data) = false
  /\ Forall (fun x => nullish x = false) l.

Lemma listPages_onePage (P : platform) (retries fuel : nat) (type : webinarType)
    (from to : option Z) (syncId : json) (pct : Q) (start : nat)
    (acc : list WebinarQueueItem) (w : world) (data : json) (l : list json) :
  server P (ListWebinars type from to 100 None) (List.length (requests w)) = jsonOk data ->
  onePage data l ->
  exists w',
    listPages P (S retries) (S fuel) type from to syncId pct start JUndef 0 acc w
    = (Return (acc ++ map (stubOf type) l)%list, w')
    /\ requests w' = (ListWebinars type from to 100 None :: requests w)%list.
Proof.
  intros Hs (Hn & Hw & Ht & Hl). cbn [listPages].
  unfold bind at 1. rewrite executeWithRateLimit_step.
  destruct (waited_frame w) as (R & _ & _).
  unfold fetchWebinarList. unfold bind at 1. rewrite fetch_unfold, R.
  cbn [truthy]. rewrite Hs. unfold jsonOk. cbn [ok negb].
  unfold bind at 1, responseJson. cbn [body]. unfold ret at 1.
  unfold bind at 1, requireObject. rewrite Hn. unfold ret at 1 2.
  rewrite Hw. cbn [orj truthy].
  unfold bind at 1. rewrite (stubsOf_map type l _ Hl).
  unfold bind at 1, broadcastProgress, modifyDb, modify. rewrite Ht.
  eexists. split; [reflexivity|].
  cbn [requests setClock setRequests setDb setLimiter recorded]. reflexivity.
Qed.

(** X27.  When each of the two listings is answered in one page, the
    enumeration makes two requests, the past listing from the start date and
    then the upcoming listing up to the end date, each for pages of 100, and
    returns one work item per listed webinar, the past ones first and marked
    past, then the upcoming ones marked upcoming.  Nothing is left out: a
    webinar that is on both listings is returned twice. *)
Theorem enumerateWebinars_returns_both_listings :
  forall (P : platform) (fuel : nat) (syncId : json) (from to : Z) (w : world)
         (pastData upcomingData : json) (pastList upcomingList : list json),
    server P (ListWebinars past (Some from) None 100 None) (List.length (requests w))
    = jsonOk pastData ->
    server P (ListWebinars upcoming None (Some to) 100 None)
      (S (List.length (requests w)))
    = jsonOk upcomingData ->
    onePage pastData pastList ->
    onePage upcomingData upcomingList ->
    exists w',
      enumerateWebinars P (S fuel) syncId from to w
      = (Return (map (stubOf past) pastList ++ map (stubOf upcoming) upcomingList)%list, w')
      /\ requests w'
         = ([ListWebinars upcoming None (Some to) 100 None;
             ListWebinars past (Some from) None 100 None] ++ requests w)%list.
Proof.
  intros P fuel syncId from to w pastData upcomingData pastList upcomingList H1 H2 O1 O2.
  unfold enumerateWebinars.
  unfold bind at 1, broadcastProgress at 1, modifyDb at 1, modify at 1.
  match goal with
  | |- context [bind (listPages _ _ _ _ _ _ _ _ _ _ _ _) _ ?w0] =>
      destruct (listPages_onePage P fuel fuel past (Some from) None syncId 5%Q 0 [] w0
                  pastData pastList H1 O1) as (w1 & E1 & R1)
  end.
  unfold bind at 1. rewrite E1. cbn [app].
  destruct (listPages_onePage P fuel fuel upcoming None (Some to) syncId 10%Q
              (List.length (map (stubOf past) pastList)) (map (stubOf past) pastList) w1
              upcomingData upcomingList) as (w2 & E2 & R2); [|exact O2|].
  { rewrite R1. exact H2. }
  exists w2. split; [exact E2|]. rewrite R2, R1. reflexivity.
Qed.

Lemma enumerateWebinars_returns_both_listings_witness :
  exists w',
    enumerateWebinars
      (platformOf (fun _ _ => jsonOk (JObj [("webinars", JArr [stub 1; stub 2])])))
      1 (JNum 1) 19000 19270 freshWorld
    = (Return (map (stubOf past) [stub 1; stub 2]
                 ++ map (stubOf upcoming) [stub 1; stub 2])%list, w')
    /\ requests w'
       = ([ListWebinars upcoming None (Some 19270) 100 None;
           ListWebinars past (Some 19000) None 100 None] ++ requests freshWorld)%list.
Proof.
  apply (enumerateWebinars_returns_both_listings
           (platformOf (fun _ _ => jsonOk (JObj [("webinars", JArr [stub 1; stub 2])])))
           0 (JNum 1) 19000 19270 freshWorld
           (JObj [("webinars", JArr [stub 1; stub 2])])
           (JObj [("webinars", JArr [stub 1; stub 2])])
           [stub 1; stub 2] [stub 1; stub 2]);
    try reflexivity; repeat split; repeat constructor.
Defined.

(** ** The older batch sync: the connection check (lines 17-26) *)

(** [validateConnection(connection)]; a comparison with an invalid date is
    false. *)
Definition validateConnection (P : platform) (connection : row) : M unit :=
  if negb (truthy (col "access_token" connection)) then
    throw (ZoomWebinarSyncService.EdgeFunctionError
             "No access token found. Please reconnect your Zoom account." 400)
  else
    let tokenExpiresAt := newDate P (col "token_expires_at" connection) in
    now <- dateNow ;;
    if match tokenExpiresAt with Some t => t <? now | None => false end then
      throw (ZoomWebinarSyncService.EdgeFunctionError
               "Zoom access token has expired. Please reconnect your account." 401)
    else ret tt.

(** X28.  The older sync refuses a connection only when it has no access
    token (400) or its expiry is a valid date strictly in the past (401), and
    it never refreshes: an expiry that is not a date, or that is the present
    instant, is accepted.  For a connection on file whose token expires
    within the next five minutes, the older sync accepts the stored token as
    it is while the queue based sync calls the token endpoint. *)
Theorem validateConnection_accepts_what_v2_refreshes :
  forall (P : platform) (id : json) (w : world) (connection : row) (token : string),
    onFile P id w connection token ->
    (truthy (col "access_token" connection) = false ->
     exists e, validateConnection P connection w = (Throw e, w) /\ status e = Some 400)
    /\ (truthy (col "access_token" connection) = true ->
        (forall t, newDate P (col "token_expires_at" connection) = Some t -> t < clock w ->
                   exists e, validateConnection P connection w = (Throw e, w)
                             /\ status e = Some 401)
        /\ (forall t, newDate P (col "token_expires_at" connection) = Some t ->
                      clock w <= t ->
                      validateConnection P connection w = (Return tt, w))
        /\ (newDate P (col "token_expires_at" connection) = None ->
            validateConnection P connection w = (Return tt, w))
        /\ (forall t, newDate P (col "token_expires_at" connection) = Some t ->
                      clock w <= t <= clock w + 5 * 60 * 1000 ->
                      validateConnection P connection w = (Return tt, w)
                      /\ requests (snd (getZoomAccessToken P id w))
                         = OAuthToken (col "refresh_token" connection) :: requests w)).
Proof.
  intros P id w connection token H. unfold validateConnection. split.
  - intros Ht. rewrite Ht. cbn [negb]. eexists. split; reflexivity.
  - intros Ht. rewrite Ht. cbn [negb]. unfold bind, dateNow.
    split; [|split; [|split]].
    + intros t Hd Hlt. rewrite Hd.
      replace (t <? clock w) with true by (symmetry; apply Z.ltb_lt; exact Hlt).
      eexists. split; reflexivity.
    + intros t Hd Hle. rewrite Hd.
      replace (t <? clock w) with false by (symmetry; apply Z.ltb_ge; exact Hle).
      reflexivity.
    + intros Hd. rewrite Hd. reflexivity.
    + intros t Hd [Hle Hge]. rewrite Hd.
      replace (t <? clock w) with false by (symmetry; apply Z.ltb_ge; exact Hle).
      split; [reflexivity|].
      assert (He : expiring P connection (clock w) = true)
        by (unfold expiring; rewrite Hd; apply Z.leb_le; lia).
      rewrite (getZoomAccessToken_onFile P id w connection token H), He.
      unfold bind at 1. rewrite fetch_unfold.
      destruct (server P _ _) as [took r|took e]; [|reflexivity].
      destruct (ok r); cbn [negb]; [|reflexivity].
      unfold bind at 1, responseJson. destruct (body r) as [tokens|]; [|reflexivity].
      unfold ret at 1. unfold bind at 1, requireObject.
      destruct (nullish tokens); [reflexivity|].
      unfold ret at 1. unfold bind at 1, dateNow.
      destruct (prop "expires_in" tokens); reflexivity.
Qed.

Lemma validateConnection_accepts_what_v2_refreshes_witness :
  validateConnection (platformOf tokenServer) expiringConnection expiringWorld
  = (Return tt, expiringWorld)
  /\ requests (snd (getZoomAccessToken (platformOf tokenServer) (JStr "conn-1")
                      expiringWorld))
     = OAuthToken (col "refresh_token" expiringConnection) :: requests expiringWorld.
Proof.
  pose proof (validateConnection_accepts_what_v2_refreshes (platformOf tokenServer)
                (JStr "conn-1") expiringWorld expiringConnection "token"
                expiringWorld_onFile) as [_ H].
  destruct (H eq_refl) as (_ & _ & _ & Hboth).
  apply (Hboth 1700000000000); [reflexivity|].
  change (clock expiringWorld) with 1700000000000. lia.
Defined.
